(** * codex-switcher: the presentation layer, embedded and verified

    The development follows the TypeScript sources of the layer:
    - the hook [useAccounts] (accounts, current id, settings, and the remote
      calls that change them) is module [useAccounts];
    - the hook [useUsage] of [hooks/useUsage.ts] is module [useUsage];
    - the root component [App] of [App.tsx], with [handleSwitch] and the
      props it gives to the modal, is module [App];
    - the component [AccountList], which follows [App] in the same file:
      its pure rules (filters, durations, colours) are [AccountListView],
      its state and [handleRefreshOne] are [AccountList];
    - [getColorClass] of [components/UsageCard.tsx] is [UsageCard];
    - the component of [components/AddAccountModal.tsx], with the manual
      import and the OAuth flow, is [AddAccountModal].

    Conventions of the embedding.
    - A JavaScript string is a Rocq [string] holding its UTF-8 bytes.  Substring
      search and literal comparison on well-formed text agree with the UTF-16
      operations of the engine, because UTF-8 is self-synchronising.
    - A JavaScript [number] is a rational, or one of NaN, +Infinity,
      -Infinity ([number]).  The duration parser is given twice.
      [AccountListView.parseChineseDuration] adds the integers read as exact
      rationals: the thresholds of the colours and the shape of the text
      are stated on it.  [DurationParser.parseChineseDuration] computes as
      the engine does, in binary64 ([Float64]): [parseInt], [*], [+] and
      [/] round to nearest, ties to even, and numbers are printed by
      [Number::toString]; the hours and the printed numbers are stated on
      it.  The two zeros of binary64 are one value here: the code neither
      divides by a zero nor prints one that could be negative.
    - React state is an explicit record.  A handler receives the record of
      the render it was created in (what its closure reads) and runs in a
      monad that threads the live state, the trace of effects and the
      backend; one run of a handler is not interleaved with another.
    - The backend is any function from the effects observed so far and a
      call to a settled promise: theorems quantify over all of them. *)

From Stdlib Require Import QArith ZArith NArith Ascii String List Bool Lia.
From Stdlib Require Import DecimalString DecimalN Lqa Qround Qabs Qpower SpecFloat.
From stdpp Require Import base gmap sets list strings.

Local Open Scope string_scope.

(* ===================================================================== *)
(** * JavaScript primitives *)
(* ===================================================================== *)

Module Js.

(** ** Strings *)

(** [s.startsWith(p)], used to express the matcher and [includes]. *)
Fixpoint startsWith (p s : string) : bool :=
match p, s with
| EmptyString, _ => true
| String a p', String b s' => if Ascii.eqb a b then startsWith p' s' else false
| String _ _, EmptyString => false
end.

(** [hay.includes(needle)] *)
Fixpoint includes (needle hay : string) : bool :=
if startsWith needle hay then true
else match hay with
     | EmptyString => false
     | String _ hay' => includes needle hay'
     end.

(** Truthiness of a string: the empty string is falsy. *)
Definition truthy (s : string) : bool :=
match s with EmptyString => false | String _ _ => true end.

Definition is_upper (c : ascii) : bool :=
let n := nat_of_ascii c in Nat.leb 65 n && Nat.leb n 90.

Definition is_lower (c : ascii) : bool :=
let n := nat_of_ascii c in Nat.leb 97 n && Nat.leb n 122.

Definition lower_char (c : ascii) : ascii :=
if is_upper c then ascii_of_nat (nat_of_ascii c + 32) else c.

Definition upper_char (c : ascii) : ascii :=
if is_lower c then ascii_of_nat (nat_of_ascii c - 32) else c.

(** [s.toLowerCase()] on the letters A-Z.  Bytes of multi-byte characters are
  left alone.  For the plan filters this is the function of the engine: no
  character outside ASCII lowercases to a letter of "plus" or "team".  For
  the search by name it is the function of the engine on names and queries
  within ASCII; outside ASCII the engine also lowercases letters such as
  É, which stay as they are here. *)
Fixpoint toLowerCase (s : string) : string :=
match s with
| EmptyString => EmptyString
| String c s' => String (lower_char c) (toLowerCase s')
end.

(** [s.toUpperCase()] on the letters a-z. *)
Fixpoint toUpperCase (s : string) : string :=
match s with
| EmptyString => EmptyString
| String c s' => String (upper_char c) (toUpperCase s')
end.

(** ** Digits, [parseInt] and number printing *)

(** The class [\d]: the ten ASCII digits. *)
Definition is_digit (c : ascii) : bool :=
let n := nat_of_ascii c in Nat.leb 48 n && Nat.leb n 57.

(** The longest prefix of digits, and what follows it (greedy [\d*]). *)
Fixpoint span_digits (s : string) : string * string :=
match s with
| EmptyString => (EmptyString, EmptyString)
| String c s' =>
    if is_digit c
    then let '(ds, rest) := span_digits s' in (String c ds, rest)
    else (EmptyString, s)
end.

Fixpoint all_digits (s : string) : bool :=
match s with
| EmptyString => true
| String c s' => is_digit c && all_digits s'
end.

Fixpoint no_digit (s : string) : bool :=
match s with
| EmptyString => true
| String c s' => negb (is_digit c) && no_digit s'
end.

Definition starts_with_digit (s : string) : bool :=
match s with
| EmptyString => false
| String c _ => is_digit c
end.

Definition digit_value (c : ascii) : N := N.of_nat (nat_of_ascii c - 48).

Fixpoint parseInt_from (acc : N) (s : string) : N :=
match s with
| EmptyString => acc
| String c s' => parseInt_from (10 * acc + digit_value c) s'
end.

(** [parseInt(ds)] for a string of decimal digits, as captured by [(\d+)]:
    the integer written.  The engine rounds it to binary64
    ([Float64.parseInt]); up to [2^53] the two are the same number. *)
Definition parseInt (ds : string) : N := parseInt_from 0 ds.

(** [`${n}`] for a non-negative integer: its decimal numeral.  The engine
    prints a binary64 number ([Float64.toString]), which is this numeral
    below [2^53]. *)
Definition show (n : N) : string := NilEmpty.string_of_uint (N.to_uint n).

(** ** The regular expressions [/(\d+)tok/]

  [str.match(/(\d+)tok/)] tries the start positions from left to right.
  At one position [\d+] takes the longest run of digits and [tok] must
  follow; giving digits back cannot help, since [tok] never begins with a
  digit here.  The result is the captured group [match[1]]. *)
Definition match_here (tok s : string) : option string :=
let '(ds, rest) := span_digits s in
if truthy ds && startsWith tok rest then Some ds else None.

Fixpoint match_digits (tok s : string) : option string :=
match match_here tok s with
| Some ds => Some ds
| None =>
    match s with
    | EmptyString => None
    | String _ s' => match_digits tok s'
    end
end.

(** ** [trim]

  The white space and line terminators that [String.prototype.trim]
  removes, each given by its UTF-8 bytes: TAB, LF, VT, FF, CR, SPACE,
  U+00A0, U+1680, U+2000..U+200A, U+2028, U+2029, U+202F, U+205F, U+3000
  and U+FEFF. *)
Definition utf8 (l : list nat) : string :=
fold_right (fun n s => String (ascii_of_nat n) s) EmptyString l.

Definition white_space : list string :=
map utf8
  [ [9]; [10]; [11]; [12]; [13]; [32]; [194; 160]; [225; 154; 128];
    [226; 128; 128]; [226; 128; 129]; [226; 128; 130]; [226; 128; 131];
    [226; 128; 132]; [226; 128; 133]; [226; 128; 134]; [226; 128; 135];
    [226; 128; 136]; [226; 128; 137]; [226; 128; 138];
    [226; 128; 168]; [226; 128; 169]; [226; 128; 175]; [226; 129; 159];
    [227; 128; 128]; [239; 187; 191] ].

Fixpoint drop_bytes (n : nat) (s : string) : string :=
match n, s with
| S n', String _ s' => drop_bytes n' s'
| _, _ => s
end.

(** Removes one leading character if it is one of [ws]. *)
Fixpoint strip_one (ws : list string) (s : string) : option string :=
match ws with
| [] => None
| w :: ws' =>
    if startsWith w s then Some (drop_bytes (String.length w) s)
    else strip_one ws' s
end.

Fixpoint strip_leading (fuel : nat) (ws : list string) (s : string) : string :=
match fuel with
| O => s
| S fuel' =>
    match strip_one ws s with
    | Some s' => strip_leading fuel' ws s'
    | None => s
    end
end.

Definition trimStart (s : string) : string :=
strip_leading (String.length s) white_space s.

Definition trimEnd (s : string) : string :=
String.rev
  (strip_leading (String.length s) (map String.rev white_space) (String.rev s)).

(** [s.trim()] *)
Definition trim (s : string) : string := trimEnd (trimStart s).

(** ** Numbers *)

Inductive number : Type :=
| Num (q : Q)
| NaN
| Infinity
| NegInfinity.

(** [a > b] on numbers: false as soon as one side is NaN. *)
Definition gt (a b : number) : bool :=
match a, b with
| NaN, _ | _, NaN => false
| Num x, Num y => negb (Qle_bool x y)
| Infinity, Infinity => false
| Infinity, _ => true
| _, Infinity => false
| NegInfinity, _ => false
| Num _, NegInfinity => true
end.

(** [a < b] and [a === b] on finite numbers. *)
Definition Qlt_bool (a b : Q) : bool := negb (Qle_bool b a).

(** ** Thrown values and [String(err)] *)

(** What a rejected promise carries: a string (what the remote boundary
    usually rejects with), an [Error] object with its message, or a plain
    object. *)
Inductive exn : Type :=
| ThrownString (s : string)
| ThrownError (message : string)
| ThrownObject.

(** [String(err)]; [Error.prototype.toString] gives the name alone when the
    message is empty. *)
Definition String_ (e : exn) : string :=
  match e with
  | ThrownString s => s
  | ThrownError EmptyString => "Error"
  | ThrownError m => "Error: " +:+ m
  | ThrownObject => "[object Object]"
  end.

End Js.


(* ===================================================================== *)
(** * Data model ([hooks/useAccounts.ts], [hooks/useUsage.ts]) *)
(* ===================================================================== *)

Import Js.

(** [interface CachedQuota].  [plan_type] is declared a string; the views
    read it through [?.], so an absent value is part of the model. *)
Module CachedQuota.
Record t : Type := {
  five_hour_left : number;
  five_hour_reset : string;
  five_hour_reset_at : option number;
  weekly_left : number;
  weekly_reset : string;
  weekly_reset_at : option number;
  plan_type : option string;
  is_valid_for_cli : option bool;
  updated_at : string
}.
End CachedQuota.

(** [interface AppSettings] *)
Module AppSettings.
Record t : Type := {
  auto_reload_ide : bool;
  primary_ide : string;
  use_pkill_restart : bool;
  background_refresh : bool;
  refresh_interval_minutes : number;
  theme : string
}.
End AppSettings.

(** [interface Account]; [auth_json] is opaque to this layer. *)
Module Account.
Record t : Type := {
  id : string;
  name : string;
  auth_json : string;
  created_at : string;
  last_used : option string;
  notes : option string;
  cached_quota : option CachedQuota.t
}.
End Account.

(** [interface UsageDisplay] *)
Module UsageDisplay.
Record t : Type := {
  plan_type : option string;
  five_hour_used : number;
  five_hour_left : number;
  five_hour_reset : string;
  five_hour_reset_at : option number;
  weekly_used : number;
  weekly_left : number;
  weekly_reset : string;
  weekly_reset_at : option number;
  credits_balance : option number;
  has_credits : bool
}.
End UsageDisplay.

(** [interface UsageData] of the account list. *)
Module UsageData.
Record t : Type := {
  five_hour_left : number;
  five_hour_reset : string;
  weekly_left : number;
  weekly_reset : string;
  plan_type : option string;
  is_valid_for_cli : bool
}.
End UsageData.

(** The object [get_quota_by_id] resolves to.  [useUsage] reads it as a
    [UsageDisplay], the account list as a [UsageData]: two views of one
    object. *)
Module QuotaReply.
Record t : Type := {
  display : UsageDisplay.t;
  is_valid_for_cli : bool
}.

Definition as_UsageDisplay (r : t) : UsageDisplay.t := display r.

Definition as_UsageData (r : t) : UsageData.t :=
  {| UsageData.five_hour_left := UsageDisplay.five_hour_left (display r);
     UsageData.five_hour_reset := UsageDisplay.five_hour_reset (display r);
     UsageData.weekly_left := UsageDisplay.weekly_left (display r);
     UsageData.weekly_reset := UsageDisplay.weekly_reset (display r);
     UsageData.plan_type := UsageDisplay.plan_type (display r);
     UsageData.is_valid_for_cli := is_valid_for_cli r |}.
End QuotaReply.

(* ===================================================================== *)
(** * Presentation rules of the account list and the usage card *)
(* ===================================================================== *)

(** [components/UsageCard.tsx] *)
Module UsageCard.

Definition getColorClass (percent : number) : string :=
  if gt percent (Num 50) then "green"
  else if gt percent (Num 20) then "orange"
  else "red".

End UsageCard.

(** [components/AccountList.tsx]: the functions that do not touch state. *)
Module AccountListView.

Inductive FilterType : Type := all | plus | team | free.

(** What [parseChineseDuration] returns: [{ text, hours }].  Here the
    numbers read are integers and the hours their exact sum;
    [DurationParser] has the function with the rounding of the engine. *)
Record Duration : Type := { text : string; hours : Q }.

Definition N2Q (n : N) : Q := inject_Z (Z.of_N n).

Definition parseChineseDuration (str : option string) : Duration :=
  match str with
  | None => {| text := "N/A"; hours := 999 |}
  | Some str =>
      if negb (truthy str) || String.eqb str "未知" || String.eqb str "N/A"
      then {| text := "N/A"; hours := 999 |}
      else if String.eqb str "即将重置"
      then {| text := "Soon"; hours := 0 |}
      else
        let dayMatch := match_digits "天" str in
        let hourMatch := match_digits "小时" str in
        let minMatch := match_digits "分钟" str in
        let days := match dayMatch with Some d => parseInt d | None => 0%N end in
        let hours := match hourMatch with Some h => parseInt h | None => 0%N end in
        let mins := match minMatch with Some m => parseInt m | None => 0%N end in
        let totalHours := (N2Q days * 24 + N2Q hours + N2Q mins / 60)%Q in
        let compactText :=
          if (0 <? days)%N then show days +:+ "d " +:+ show hours +:+ "h"
          else if (0 <? hours)%N then show hours +:+ "h " +:+ show mins +:+ "m"
          else show mins +:+ "m" in
        let compactText := if negb (truthy compactText) then "N/A" else compactText in
        {| text := compactText; hours := totalHours |}
  end.

Definition formatTimeRemaining (dateStr : option string) : string :=
  text (parseChineseDuration dateStr).

Definition getTimeColorClass (dateStr : option string) : string :=
  let hours := hours (parseChineseDuration dateStr) in
  if Qeq_bool hours 999 then "neutral"
  else if Qlt_bool hours 1 then "success"
  else if Qlt_bool hours 6 then "warning"
  else "neutral".

Definition getQuotaColor (percent : number) : string :=
  if gt percent (Num 50) then "green"
  else if gt percent (Num 20) then "orange"
  else "red".

(** ** Search and plan filters *)

Section Filters.
Variable usageMap : gmap string UsageData.t.

(** [usage?.plan_type?.toLowerCase().includes(word)], as a condition. *)
Definition plan_includes (word : string) (a : Account.t) : bool :=
  match usageMap !! Account.id a with
  | Some usage =>
      match UsageData.plan_type usage with
      | Some p => includes word (toLowerCase p)
      | None => false
      end
  | None => false
  end.

(** [usage?.plan_type?.toLowerCase() || ''] *)
Definition tier_of (a : Account.t) : string :=
  match usageMap !! Account.id a with
  | Some usage =>
      match UsageData.plan_type usage with
      | Some p => toLowerCase p
      | None => ""
      end
  | None => ""
  end.

(** [tier && !tier.includes('plus') && !tier.includes('team')] *)
Definition plan_is_free (a : Account.t) : bool :=
  let tier := tier_of a in
  truthy tier && negb (includes "plus" tier) && negb (includes "team" tier).

Definition searchedAccounts (accounts : list Account.t) (searchQuery : string)
  : list Account.t :=
  if negb (truthy searchQuery) then accounts
  else
    let lowQuery := toLowerCase searchQuery in
    List.filter (fun a => includes lowQuery (toLowerCase (Account.name a))) accounts.

Record FilterCounts : Type := {
  count_all : nat; count_plus : nat; count_team : nat; count_free : nat
}.

Definition filterCounts (searched : list Account.t) : FilterCounts :=
  {| count_all := List.length searched;
     count_plus := List.length (List.filter (plan_includes "plus") searched);
     count_team := List.length (List.filter (plan_includes "team") searched);
     count_free := List.length (List.filter plan_is_free searched) |}.

Definition filteredAccounts (searched : list Account.t) (filter : FilterType)
  : list Account.t :=
  match filter with
  | plus => List.filter (plan_includes "plus") searched
  | team => List.filter (plan_includes "team") searched
  | free => List.filter plan_is_free searched
  | all => searched
  end.
End Filters.

End AccountListView.

(* ===================================================================== *)
(** * The remote boundary and the effect monad *)
(* ===================================================================== *)

(** The commands passed to [invoke], with their arguments. *)
Module Remote.

Inductive Call : Type :=
| get_accounts
| get_current_account_id
| get_settings
| update_settings (settings : AppSettings.t)
| import_current_account (name : string) (notes : option string)
| switch_account (id : string)
| delete_account (id : string)
| update_account (id : string) (name notes : option string)
| export_accounts
| import_accounts (json : string)
| check_codex_login
| start_oauth_login
| finalize_oauth_login (code : string)
| reload_ide_windows (useWindowReload : bool)
| get_quota_by_id (id : string).

(** The type parameter of each [invoke<T>(...)]. *)
Definition Reply (c : Call) : Type :=
  match c with
  | get_accounts => list Account.t
  | get_current_account_id => option string
  | get_settings => AppSettings.t
  | export_accounts => string
  | check_codex_login => bool
  | start_oauth_login => string
  | finalize_oauth_login _ => Account.t
  | reload_ide_windows _ => list string
  | get_quota_by_id _ => QuotaReply.t
  | update_settings _ | import_current_account _ _ | switch_account _
  | delete_account _ | update_account _ _ _ | import_accounts _ => unit
  end.

End Remote.

Module Eff.

Import Remote.

(** The callbacks handed to [setTimeout], by the place that creates them. *)
Inductive Timer : Type :=
| timer_reload_ide        (* App.handleSwitch: await reloadIdeWindows(false) *)
| timer_refresh_usage     (* App.handleSwitch: refreshUsage() *)
| timer_oauth_done.       (* AddAccountModal: onSuccess?.(); onClose() *)

(** What a handler does to the world outside React state. *)
Inductive Effect : Type :=
| Invoked (c : Call)
| SetTimeout (callback : Timer) (ms : nat)
| ConsoleError (msg : string).

(** A settled promise: rejected or fulfilled, and when. *)
Record Settled (A : Type) : Type := {
  outcome : exn + A;
  latency : nat
}.
Arguments outcome {A} _.
Arguments latency {A} _.

(** The backend process: any function of what was observed so far. *)
Definition Backend : Type := list Effect -> forall c : Call, Settled (Reply c).

Inductive Outcome (A : Type) : Type :=
| Return (a : A)
| Throw (e : exn).
Arguments Return {A} a.
Arguments Throw {A} e.

(** A computation over React state [S]: it sees the backend and the trace
    so far, and gives an outcome, the extended trace and the new state. *)
Definition M (S A : Type) : Type :=
  Backend -> list Effect -> S -> Outcome A * list Effect * S.

Section Monad.
Context {S : Type}.

Definition ret {A} (a : A) : M S A := fun _ tr s => (Return a, tr, s).

Definition throw {A} (e : exn) : M S A := fun _ tr s => (Throw e, tr, s).

Definition bind {A B} (m : M S A) (k : A -> M S B) : M S B :=
  fun be tr s =>
    match m be tr s with
    | (Return a, tr', s') => k a be tr' s'
    | (Throw e, tr', s') => (Throw e, tr', s')
    end.

(** [try { m } catch (err) { handler err }] *)
Definition try_catch {A} (m : M S A) (handler : exn -> M S A) : M S A :=
  fun be tr s =>
    match m be tr s with
    | (Return a, tr', s') => (Return a, tr', s')
    | (Throw e, tr', s') => handler e be tr' s'
    end.

(** [try { m } finally { fin }]: [fin] runs on both exits and keeps the
    outcome of [m] unless it throws itself. *)
Definition finally {A} (m : M S A) (fin : M S unit) : M S A :=
  fun be tr s =>
    match m be tr s with
    | (r, tr', s') =>
        match fin be tr' s' with
        | (Return _, tr'', s'') => (r, tr'', s'')
        | (Throw e, tr'', s'') => (Throw e, tr'', s'')
        end
    end.

(** A state setter called with an updater function, [setX(prev => ...)];
    [setX(v)] is the constant updater. *)
Definition modify (f : S -> S) : M S unit :=
  fun _ tr s => (Return tt, tr, f s).

Definition emit (e : Effect) : M S unit :=
  fun _ tr s => (Return tt, (tr ++ [e])%list, s).

(** [invoke(c)] without [await]: the call is made, the promise exists. *)
Definition invoke_start (c : Call) : M S (Settled (Reply c)) :=
  fun be tr s => (Return (be tr c), (tr ++ [Invoked c])%list, s).

Definition await {A} (p : Settled A) : M S A :=
  match outcome p with
  | inl e => throw e
  | inr a => ret a
  end.

(** [await invoke(c)] *)
Definition invoke (c : Call) : M S (Reply c) :=
  bind (invoke_start c) await.

Definition setTimeout (callback : Timer) (ms : nat) : M S unit :=
  emit (SetTimeout callback ms).

Definition console_error (msg : string) : M S unit :=
  emit (ConsoleError msg).

(** Drops the value, as a caller that ignores the result does. *)
Definition void {A} (m : M S A) : M S unit := bind m (fun _ => ret tt).
End Monad.

(** The three components of a finished run. *)
Definition result_of {S A} (run : Outcome A * list Effect * S) : Outcome A :=
  fst (fst run).
Definition trace_of {S A} (run : Outcome A * list Effect * S) : list Effect :=
  snd (fst run).
Definition state_of {S A} (run : Outcome A * list Effect * S) : S :=
  snd run.

Definition fulfilled {A} (a : A) : Settled A :=
  {| outcome := inr a; latency := 0 |}.

(** Runs a computation of a part of the state inside the whole: a hook
    used by a component. *)
Definition zoom {S T A} (view : S -> T) (update : T -> S -> S) (m : M T A)
  : M S A :=
  fun be tr s =>
    match m be tr (view s) with
    | (r, tr', t') => (r, tr', update t' s)
    end.

(** [Promise.all([p1, p2, p3])]: fulfilled when all three are; otherwise
    rejected with the reason of the rejection that settles first (the
    leftmost among simultaneous ones). *)
Fixpoint race (first : exn * nat) (others : list (exn * nat)) : exn * nat :=
  match others with
  | [] => first
  | (e', t') :: others' =>
      if Nat.ltb t' (snd first) then race (e', t') others' else race first others'
  end.

Definition rejection {A} (p : Settled A) : list (exn * nat) :=
  match outcome p with
  | inl e => [(e, latency p)]
  | inr _ => []
  end.

Definition rejected {A} (r : exn * nat) : Settled A :=
  {| outcome := inl (fst r); latency := snd r |}.

Definition Promise_all3 {A B C} (p1 : Settled A) (p2 : Settled B) (p3 : Settled C)
  : Settled (A * B * C) :=
  match outcome p1, outcome p2, outcome p3 with
  | inr a, inr b, inr c =>
      {| outcome := inr (a, b, c);
         latency := Nat.max (latency p1) (Nat.max (latency p2) (latency p3)) |}
  | inl e1, _, _ =>
      rejected (race (e1, latency p1) (rejection p2 ++ rejection p3)%list)
  | inr _, inl e2, _ =>
      rejected (race (e2, latency p2) (rejection p3))
  | inr _, inr _, inl e3 =>
      rejected (e3, latency p3)
  end.

End Eff.

Declare Scope js_scope.
Delimit Scope js_scope with js.
Notation "x <- m ;; k" := (Eff.bind m (fun x => k))
  (at level 100, m at next level, right associativity) : js_scope.
Notation "m ;; k" := (Eff.bind m (fun _ => k))
  (at level 100, right associativity) : js_scope.

Local Open Scope js_scope.

(* ===================================================================== *)
(** * [hooks/useAccounts.ts] *)
(* ===================================================================== *)

Module useAccounts.

Import Remote Eff.

(** The five [useState] cells of one instance of the hook. *)
Record State : Type := {
  accounts : list Account.t;
  currentId : option string;
  settings : AppSettings.t;
  loading : bool;
  error : option string
}.

Definition initial : State :=
  {| accounts := [];
     currentId := None;
     settings :=
       {| AppSettings.auto_reload_ide := false;
          AppSettings.primary_ide := "Windsurf";
          AppSettings.use_pkill_restart := false;
          AppSettings.background_refresh := true;
          AppSettings.refresh_interval_minutes := Num 30;
          AppSettings.theme := "light" |};
     loading := true;
     error := None |}.

Definition setAccounts (v : list Account.t) : M State unit :=
  modify (fun s => {| accounts := v; currentId := currentId s;
                      settings := settings s; loading := loading s;
                      error := error s |}).

Definition setCurrentId (v : option string) : M State unit :=
  modify (fun s => {| accounts := accounts s; currentId := v;
                      settings := settings s; loading := loading s;
                      error := error s |}).

Definition setSettings (v : AppSettings.t) : M State unit :=
  modify (fun s => {| accounts := accounts s; currentId := currentId s;
                      settings := v; loading := loading s;
                      error := error s |}).

Definition setLoading (v : bool) : M State unit :=
  modify (fun s => {| accounts := accounts s; currentId := currentId s;
                      settings := settings s; loading := v;
                      error := error s |}).

Definition setError (v : option string) : M State unit :=
  modify (fun s => {| accounts := accounts s; currentId := currentId s;
                      settings := settings s; loading := loading s;
                      error := v |}).

Definition loadData : M State unit :=
  finally
    (try_catch
       (setLoading true ;;
        setError None ;;
        p1 <- invoke_start get_accounts ;;
        p2 <- invoke_start get_current_account_id ;;
        p3 <- invoke_start get_settings ;;
        r <- await (Promise_all3 p1 p2 p3) ;;
        let '(accountList, current, appSettings) := r in
        setAccounts accountList ;;
        setCurrentId current ;;
        setSettings appSettings)
       (fun err => setError (Some (String_ err))))
    (setLoading false).

Definition updateSettings (newSettings : AppSettings.t) : M State unit :=
  try_catch
    (setError None ;;
     invoke (update_settings newSettings) ;;
     setSettings newSettings)
    (fun err => setError (Some (String_ err)) ;; throw err).

Definition importCurrent (name : string) (notes : option string) : M State unit :=
  try_catch
    (setError None ;;
     invoke (import_current_account name notes) ;;
     loadData)
    (fun err => setError (Some (String_ err)) ;; throw err).

Definition switchTo (id : string) : M State unit :=
  try_catch
    (setError None ;;
     invoke (switch_account id) ;;
     setCurrentId (Some id) ;;
     loadData)
    (fun err => setError (Some (String_ err)) ;; throw err).

Definition deleteAccount (id : string) : M State unit :=
  try_catch
    (setError None ;;
     invoke (delete_account id) ;;
     loadData)
    (fun err => setError (Some (String_ err)) ;; throw err).

Definition updateAccount (id : string) (name notes : option string) : M State unit :=
  try_catch
    (setError None ;;
     invoke (update_account id name notes) ;;
     loadData)
    (fun err => setError (Some (String_ err)) ;; throw err).

Definition exportAccounts : M State string :=
  try_catch
    (invoke export_accounts)
    (fun err => setError (Some (String_ err)) ;; throw err).

Definition importAccounts (json : string) : M State unit :=
  try_catch
    (setError None ;;
     invoke (import_accounts json) ;;
     loadData)
    (fun err => setError (Some (String_ err)) ;; throw err).

Definition checkCodexLogin : M State bool :=
  try_catch
    (invoke check_codex_login)
    (fun _ => ret false).

Definition startOAuthLogin : M State string :=
  try_catch
    (setError None ;;
     invoke start_oauth_login)
    (fun err => setError (Some (String_ err)) ;; throw err).

Definition finalizeOAuthLogin (code : string) : M State Account.t :=
  try_catch
    (setError None ;;
     account <- invoke (finalize_oauth_login code) ;;
     loadData ;;
     ret account)
    (fun err => setError (Some (String_ err)) ;; throw err).

(** The parameter defaults to [false] when the caller leaves it out. *)
Definition reloadIdeWindows (useWindowReload : bool) : M State (list string) :=
  try_catch
    (setError None ;;
     invoke (reload_ide_windows useWindowReload))
    (fun err => setError (Some (String_ err)) ;; throw err).

End useAccounts.

(* ===================================================================== *)
(** * [hooks/useUsage.ts] *)
(* ===================================================================== *)

Module useUsage.

Import Remote Eff.

Record State : Type := {
  usage : option UsageDisplay.t;
  loading : bool;
  error : option string
}.

Definition initial : State :=
  {| usage := None; loading := false; error := None |}.

Definition setUsage (v : option UsageDisplay.t) : M State unit :=
  modify (fun s => {| usage := v; loading := loading s; error := error s |}).

Definition setLoading (v : bool) : M State unit :=
  modify (fun s => {| usage := usage s; loading := v; error := error s |}).

Definition setError (v : option string) : M State unit :=
  modify (fun s => {| usage := usage s; loading := loading s; error := v |}).

Definition fetchUsage : M State unit :=
  setLoading true ;;
  setError None ;;
  finally
    (try_catch
       (currentId <- invoke get_current_account_id ;;
        match currentId with
        | Some id =>
            if truthy id then
              data <- invoke (get_quota_by_id id) ;;
              setUsage (Some (QuotaReply.as_UsageDisplay data))
            else setError (Some "未设置当前账号")
        | None => setError (Some "未设置当前账号")
        end)
       (fun err => setError (Some (String_ err))))
    (setLoading false).

End useUsage.

(* ===================================================================== *)
(** * [components/AccountList.tsx]: state and refresh *)
(* ===================================================================== *)

Module AccountList.

Import Remote Eff.
Export AccountListView.

Record State : Type := {
  selectedIds : gset string;
  refreshingIds : gset string;
  usageMap : gmap string UsageData.t;
  isRefreshingAll : bool;
  searchQuery : string;
  filter : FilterType;
  invalidIds : gset string
}.

Definition initial : State :=
  {| selectedIds := ∅; refreshingIds := ∅; usageMap := ∅;
     isRefreshingAll := false; searchQuery := ""; filter := all;
     invalidIds := ∅ |}.

Definition setRefreshingIds (f : gset string -> gset string) : M State unit :=
  modify (fun s => {| selectedIds := selectedIds s;
                      refreshingIds := f (refreshingIds s);
                      usageMap := usageMap s;
                      isRefreshingAll := isRefreshingAll s;
                      searchQuery := searchQuery s; filter := filter s;
                      invalidIds := invalidIds s |}).

Definition setUsageMap (f : gmap string UsageData.t -> gmap string UsageData.t)
  : M State unit :=
  modify (fun s => {| selectedIds := selectedIds s;
                      refreshingIds := refreshingIds s;
                      usageMap := f (usageMap s);
                      isRefreshingAll := isRefreshingAll s;
                      searchQuery := searchQuery s; filter := filter s;
                      invalidIds := invalidIds s |}).

Definition setInvalidIds (f : gset string -> gset string) : M State unit :=
  modify (fun s => {| selectedIds := selectedIds s;
                      refreshingIds := refreshingIds s;
                      usageMap := usageMap s;
                      isRefreshingAll := isRefreshingAll s;
                      searchQuery := searchQuery s; filter := filter s;
                      invalidIds := f (invalidIds s) |}).

(** The entry built from [acc.cached_quota]; a missing validity flag
    counts as valid ([is_valid_for_cli !== false]). *)
Definition usage_of_cache (q : CachedQuota.t) : UsageData.t :=
  {| UsageData.five_hour_left := CachedQuota.five_hour_left q;
     UsageData.five_hour_reset := CachedQuota.five_hour_reset q;
     UsageData.weekly_left := CachedQuota.weekly_left q;
     UsageData.weekly_reset := CachedQuota.weekly_reset q;
     UsageData.plan_type := CachedQuota.plan_type q;
     UsageData.is_valid_for_cli :=
       match CachedQuota.is_valid_for_cli q with
       | Some false => false
       | _ => true
       end |}.

(** The effect that runs when the [accounts] prop changes. *)
Definition loadFromCache (accounts : list Account.t) : M State unit :=
  let initial :=
    fold_left
      (fun m acc =>
         match Account.cached_quota acc with
         | Some q => <[Account.id acc := usage_of_cache q]> m
         | None => m
         end) accounts (∅ : gmap string UsageData.t) in
  let invalidSet :=
    fold_left
      (fun st acc =>
         match Account.cached_quota acc with
         | Some q =>
             if UsageData.is_valid_for_cli (usage_of_cache q) then st
             else st ∪ {[Account.id acc]}
         | None => st
         end) accounts (∅ : gset string) in
  setUsageMap (fun prev => initial ∪ prev) ;;
  setInvalidIds (fun _ => invalidSet).

(** [handleRefreshOne]; the two [console.log] lines of debugging output
    are left out, [console.error] is kept. *)
Definition handleRefreshOne (id : string) : M State unit :=
  setRefreshingIds (fun prev => prev ∪ {[id]}) ;;
  setInvalidIds (fun prev => prev ∖ {[id]}) ;;
  finally
    (try_catch
       (reply <- invoke (get_quota_by_id id) ;;
        let usage := QuotaReply.as_UsageData reply in
        setUsageMap (fun prev => <[id := usage]> prev) ;;
        if negb (UsageData.is_valid_for_cli usage)
        then setInvalidIds (fun prev => prev ∪ {[id]})
        else ret tt)
       (fun err =>
          let errStr := String_ err in
          console_error ("刷新配额失败: " +:+ errStr) ;;
          if includes "TOKEN_INVALID" errStr
          then setInvalidIds (fun prev => prev ∪ {[id]})
          else ret tt))
    (setRefreshingIds (fun prev => prev ∖ {[id]})).

(** [const isCurrent = account.id === currentId] of a rendered row. *)
Definition isCurrent (currentId : option string) (account : Account.t) : bool :=
  match currentId with
  | Some cur => String.eqb (Account.id account) cur
  | None => false
  end.

End AccountList.

(* ===================================================================== *)
(** * [components/AddAccountModal.tsx] *)
(* ===================================================================== *)

Module AddAccountModal.

Import Remote Eff.

Inductive TabType : Type := official | openai.

(** The modal calls [useAccounts()] itself: [hook] is its own instance of
    that state, next to its six [useState] cells. *)
Record State : Type := {
  hook : useAccounts.State;
  activeTab : TabType;
  name : string;
  notes : string;
  loading : bool;
  error : option string;
  oauthStatus : string
}.

Definition initial : State :=
  {| hook := useAccounts.initial; activeTab := openai; name := "";
     notes := ""; loading := false; error := None; oauthStatus := "" |}.

Definition setHook (h : useAccounts.State) (s : State) : State :=
  {| hook := h; activeTab := activeTab s; name := name s; notes := notes s;
     loading := loading s; error := error s; oauthStatus := oauthStatus s |}.

Definition setName (v : string) : M State unit :=
  modify (fun s => {| hook := hook s; activeTab := activeTab s; name := v;
                      notes := notes s; loading := loading s;
                      error := error s; oauthStatus := oauthStatus s |}).

Definition setNotes (v : string) : M State unit :=
  modify (fun s => {| hook := hook s; activeTab := activeTab s; name := name s;
                      notes := v; loading := loading s;
                      error := error s; oauthStatus := oauthStatus s |}).

Definition setLoading (v : bool) : M State unit :=
  modify (fun s => {| hook := hook s; activeTab := activeTab s; name := name s;
                      notes := notes s; loading := v;
                      error := error s; oauthStatus := oauthStatus s |}).

Definition setError (v : option string) : M State unit :=
  modify (fun s => {| hook := hook s; activeTab := activeTab s; name := name s;
                      notes := notes s; loading := loading s;
                      error := v; oauthStatus := oauthStatus s |}).

Definition setOauthStatus (v : string) : M State unit :=
  modify (fun s => {| hook := hook s; activeTab := activeTab s; name := name s;
                      notes := notes s; loading := loading s;
                      error := error s; oauthStatus := v |}).

(** The component inside a parent whose state is [W]; the props are the
    section variables.  Each handler takes [render], the state of the
    render that created it: that is what its closure reads. *)
Section Component.
Context {W : Type}.
Variable view : W -> State.
Variable update : State -> W -> W.
Variable onClose : M W unit.
Variable onAdd : string -> option string -> M W unit.
Variable onSuccess : option (M W unit).

Definition here {A} (m : M State A) : M W A := zoom view update m.

Definition startOAuthLogin : M W string :=
  here (zoom hook setHook useAccounts.startOAuthLogin).

Definition finalizeOAuthLogin (code : string) : M W Account.t :=
  here (zoom hook setHook (useAccounts.finalizeOAuthLogin code)).

Definition handleClose (render : State) : M W unit :=
  if loading render && negb (includes "成功" (oauthStatus render))
  then ret tt
  else
    here (setName "" ;; setNotes "" ;; setError None ;; setOauthStatus "") ;;
    onClose.

(** [notes.trim() || undefined] *)
Definition notes_argument (notes : string) : option string :=
  if truthy (trim notes) then Some (trim notes) else None.

Definition handleSubmitOfficial (render : State) : M W unit :=
  if negb (truthy (trim (name render)))
  then here (setError (Some "请输入账号名称"))
  else
    here (setLoading true) ;;
    here (setError None) ;;
    finally
      (try_catch
         (onAdd (trim (name render)) (notes_argument (notes render)) ;;
          handleClose render)
         (fun err => here (setError (Some (String_ err)))))
      (here (setLoading false)).

Definition handleOpenAILogin : M W unit :=
  here (setLoading true) ;;
  here (setError None) ;;
  here (setOauthStatus "正在启动官方浏览器授权...") ;;
  try_catch
    (startOAuthLogin ;;
     here (setOauthStatus "请在打开的浏览器窗口中完成 OpenAI 授权..."))
    (fun err =>
       here (setError (Some (String_ err))) ;;
       here (setOauthStatus "") ;;
       here (setLoading false)).

(** The listener of the event "oauth-callback-received", registered
    while the modal is open; [code] is the event payload. *)
Definition on_oauth_callback_received (code : string) : M W unit :=
  here (setOauthStatus "已获取授权码，正在交换令牌...") ;;
  try_catch
    (finalizeOAuthLogin code ;;
     here (setOauthStatus "授权成功！账号已添加。") ;;
     here (setLoading false) ;;
     setTimeout timer_oauth_done 1000)
    (fun err =>
       here (setError (Some (String_ err))) ;;
       here (setOauthStatus "") ;;
       here (setLoading false)).

(** The callback of that timer: [onSuccess?.(); onClose()]. *)
Definition oauth_done : M W unit :=
  match onSuccess with
  | Some f => f
  | None => ret tt
  end ;;
  onClose.
End Component.

End AddAccountModal.

(* ===================================================================== *)
(** * [App.tsx] *)
(* ===================================================================== *)

Module App.

Import Remote Eff.

Inductive PageType : Type := dashboard | accounts | settings.

(** The state of the component tree: the two hooks of [App], its two
    [useState] cells, and the state of the children it mounts. *)
Record State : Type := {
  hook : useAccounts.State;
  usageHook : useUsage.State;
  currentPage : PageType;
  showAddModal : bool;
  accountList : AccountList.State;
  addAccountModal : AddAccountModal.State
}.

Definition initial : State :=
  {| hook := useAccounts.initial; usageHook := useUsage.initial;
     currentPage := dashboard; showAddModal := false;
     accountList := AccountList.initial;
     addAccountModal := AddAccountModal.initial |}.

Definition withHook (h : useAccounts.State) (s : State) : State :=
  {| hook := h; usageHook := usageHook s; currentPage := currentPage s;
     showAddModal := showAddModal s; accountList := accountList s;
     addAccountModal := addAccountModal s |}.

Definition withUsageHook (u : useUsage.State) (s : State) : State :=
  {| hook := hook s; usageHook := u; currentPage := currentPage s;
     showAddModal := showAddModal s; accountList := accountList s;
     addAccountModal := addAccountModal s |}.

Definition withAccountList (l : AccountList.State) (s : State) : State :=
  {| hook := hook s; usageHook := usageHook s; currentPage := currentPage s;
     showAddModal := showAddModal s; accountList := l;
     addAccountModal := addAccountModal s |}.

Definition withModal (m : AddAccountModal.State) (s : State) : State :=
  {| hook := hook s; usageHook := usageHook s; currentPage := currentPage s;
     showAddModal := showAddModal s; accountList := accountList s;
     addAccountModal := m |}.

Definition setCurrentPage (v : PageType) : M State unit :=
  modify (fun s => {| hook := hook s; usageHook := usageHook s;
                      currentPage := v; showAddModal := showAddModal s;
                      accountList := accountList s;
                      addAccountModal := addAccountModal s |}).

Definition setShowAddModal (v : bool) : M State unit :=
  modify (fun s => {| hook := hook s; usageHook := usageHook s;
                      currentPage := currentPage s; showAddModal := v;
                      accountList := accountList s;
                      addAccountModal := addAccountModal s |}).

(** The operations of the two hooks, as [App] destructures them. *)
Definition refresh : M State unit := zoom hook withHook useAccounts.loadData.
Definition importCurrent (name : string) (notes : option string) : M State unit :=
  zoom hook withHook (useAccounts.importCurrent name notes).
Definition switchTo (id : string) : M State unit :=
  zoom hook withHook (useAccounts.switchTo id).
Definition deleteAccount (id : string) : M State unit :=
  zoom hook withHook (useAccounts.deleteAccount id).
Definition exportAccounts : M State string :=
  zoom hook withHook useAccounts.exportAccounts.
Definition importAccounts (json : string) : M State unit :=
  zoom hook withHook (useAccounts.importAccounts json).
Definition reloadIdeWindows (useWindowReload : bool) : M State (list string) :=
  zoom hook withHook (useAccounts.reloadIdeWindows useWindowReload).
Definition updateSettings (newSettings : AppSettings.t) : M State unit :=
  zoom hook withHook (useAccounts.updateSettings newSettings).
Definition refreshUsage : M State unit :=
  zoom usageHook withUsageHook useUsage.fetchUsage.

(** [accounts.find(a => a.id === currentId) || null] *)
Definition currentAccount (s : State) : option Account.t :=
  List.find (AccountList.isCurrent (useAccounts.currentId (hook s)))
            (useAccounts.accounts (hook s)).

(** [handleSwitch]; [settings] is the value of the render that created the
    handler. *)
Definition handleSwitch (render : State) (id : string) : M State unit :=
  switchTo id ;;
  (if AppSettings.auto_reload_ide (useAccounts.settings (hook render))
   then setTimeout timer_reload_ide 300
   else ret tt) ;;
  setTimeout timer_refresh_usage 500.

(** The modal as [App] mounts it:
    [onClose={() => setShowAddModal(false)} onAdd={importCurrent}
     onSuccess={refresh}]. *)
Definition modal_handleSubmitOfficial (render : State) : M State unit :=
  AddAccountModal.handleSubmitOfficial addAccountModal withModal
    (setShowAddModal false) importCurrent (addAccountModal render).

Definition modal_handleClose (render : State) : M State unit :=
  AddAccountModal.handleClose addAccountModal withModal
    (setShowAddModal false) (addAccountModal render).

Definition modal_handleOpenAILogin : M State unit :=
  AddAccountModal.handleOpenAILogin addAccountModal withModal.

Definition modal_on_oauth_callback_received (code : string) : M State unit :=
  AddAccountModal.on_oauth_callback_received addAccountModal withModal code.

(** What each timer callback does when it fires. *)
Definition fire (t : Timer) : M State unit :=
  match t with
  | timer_reload_ide => void (reloadIdeWindows false)
  | timer_refresh_usage => refreshUsage
  | timer_oauth_done =>
      AddAccountModal.oauth_done (setShowAddModal false) (Some refresh)
  end.

(** ** The transitions of the layer *)

(** What can happen to the mounted tree: user actions, backend events and
    timers.  This is a coarse view of the running program.  A handler is
    run to its end in one step, so the states in which a call is in flight
    are not among the reachable ones; the selection, search and tab
    handlers of the list are not actions; and the list and the modal keep
    their state across a reload, whereas [App] shows a spinner while the
    hook is loading and mounts them anew afterwards. *)
Inductive Action : Type :=
| AccountsUpdated                      (* event "accounts-updated" *)
| ClickSwitch (id : string)
| ClickDelete (id : string)
| SaveSettings (newSettings : AppSettings.t)
| ClickExport
| PickImportFile (json : string)
| ClickRefreshUsage
| ClickRefreshOne (id : string)
| Navigate (page : PageType)
| OpenAddModal
| TypeName (v : string)
| TypeNotes (v : string)
| SubmitOfficial
| ClickOpenAILogin
| OAuthCallbackReceived (code : string)
| CloseModal
| AccountsPropChanged                  (* the effect of the account list *)
| TimerFires (t : Timer).

Definition run (a : Action) (render : State) : M State unit :=
  match a with
  | AccountsUpdated => refresh
  | ClickSwitch id => handleSwitch render id
  | ClickDelete id => deleteAccount id
  | SaveSettings newSettings => updateSettings newSettings
  | ClickExport => void exportAccounts
  | PickImportFile json => importAccounts json
  | ClickRefreshUsage => refreshUsage
  | ClickRefreshOne id =>
      zoom accountList withAccountList (AccountList.handleRefreshOne id)
  | Navigate page => setCurrentPage page
  | OpenAddModal => setShowAddModal true
  | TypeName v => zoom addAccountModal withModal (AddAccountModal.setName v)
  | TypeNotes v => zoom addAccountModal withModal (AddAccountModal.setNotes v)
  | SubmitOfficial => modal_handleSubmitOfficial render
  | ClickOpenAILogin => modal_handleOpenAILogin
  | OAuthCallbackReceived code => modal_on_oauth_callback_received code
  | CloseModal => modal_handleClose render
  | AccountsPropChanged =>
      zoom accountList withAccountList
        (AccountList.loadFromCache (useAccounts.accounts (hook render)))
  | TimerFires t => fire t
  end.

(** One transition: an action handled to completion against some backend. *)
Definition step (s s' : State) : Prop :=
  exists (a : Action) (be : Backend) (tr : list Effect),
    state_of (run a s be tr s) = s'.

Inductive reachable : State -> Prop :=
| reachable_initial : reachable initial
| reachable_step s s' : reachable s -> step s s' -> reachable s'.

End App.

(* ===================================================================== *)
(** * Vocabulary of the statements *)
(* ===================================================================== *)

Module Shapes.

Import Js.

(** A non-empty string of digits: what [(\d+)] captures. *)
Definition number_text (d : string) : bool := all_digits d && truthy d.

(** A reset description made of the three tokens, each after its number,
    with text free of digits before and between them and anything after. *)
Definition duration_text (p0 d p1 h p2 m p3 : string) : string :=
  p0 +:+ d +:+ "天" +:+ p1 +:+ h +:+ "小时" +:+ p2 +:+ m +:+ "分钟" +:+ p3.

(** The regular expression [/(\d+)tok/] matches [s] at byte offset [i] with
    group [d]: a non-empty run of digits at [i], followed by [tok]. *)
Definition matches_at (tok s : string) (i : nat) (d : string) : Prop :=
  exists pre post : string,
    s = pre +:+ d +:+ tok +:+ post
    /\ String.length pre = i
    /\ number_text d = true.

(** [d] is the group of the leftmost match, what [s.match(re)[1]] is. *)
Definition first_match (tok s d : string) : Prop :=
  exists i : nat,
    matches_at tok s i d
    /\ forall (j : nat) (d' : string), j < i -> ~ matches_at tok s j d'.

(** Two bytes that are equal, or the two cases of one ASCII letter. *)
Definition is_letter (c : ascii) : bool := is_upper c || is_lower c.

Definition same_letter (c c' : ascii) : bool :=
  Ascii.eqb c c'
  || (is_letter c && is_letter c'
      && (Nat.eqb (nat_of_ascii c + 32) (nat_of_ascii c')
          || Nat.eqb (nat_of_ascii c' + 32) (nat_of_ascii c))).

(** Two strings that differ at most in the case of their letters. *)
Fixpoint recased (s s' : string) : bool :=
  match s, s' with
  | EmptyString, EmptyString => true
  | String c r, String c' r' => same_letter c c' && recased r r'
  | _, _ => false
  end.

(** [usageMap[a.id]?.plan_type] *)
Definition plan_of (usageMap : gmap string UsageData.t) (a : Account.t)
  : option string :=
  match usageMap !! Account.id a with
  | Some usage => UsageData.plan_type usage
  | None => None
  end.

(** The plan types stored for [a] in two usage maps differ at most in the
    case of their letters. *)
Definition same_plan_up_to_case (um um' : gmap string UsageData.t)
           (a : Account.t) : bool :=
  match plan_of um a, plan_of um' a with
  | Some p, Some p' => recased p p'
  | None, None => true
  | _, _ => false
  end.

Import Remote Eff.

(** The promise [Promise.all] gives for the three calls that [loadData]
    starts when the trace is [tr]. *)
Definition loaded (be : Backend) (tr : list Effect)
  : Settled (list Account.t * option string * AppSettings.t) :=
  Promise_all3
    (be tr get_accounts)
    (be (tr ++ [Invoked get_accounts])%list get_current_account_id)
    (be ((tr ++ [Invoked get_accounts]) ++ [Invoked get_current_account_id])%list
        get_settings).

Definition loadData_calls : list Effect :=
  [Invoked get_accounts; Invoked get_current_account_id; Invoked get_settings].

(** The hook state with another [error]. *)
Definition with_error (v : option string) (s : useAccounts.State)
  : useAccounts.State :=
  {| useAccounts.accounts := useAccounts.accounts s;
     useAccounts.currentId := useAccounts.currentId s;
     useAccounts.settings := useAccounts.settings s;
     useAccounts.loading := useAccounts.loading s;
     useAccounts.error := v |}.

(** The hook state with another [currentId]. *)
Definition with_currentId (v : option string) (s : useAccounts.State)
  : useAccounts.State :=
  {| useAccounts.accounts := useAccounts.accounts s;
     useAccounts.currentId := v;
     useAccounts.settings := useAccounts.settings s;
     useAccounts.loading := useAccounts.loading s;
     useAccounts.error := useAccounts.error s |}.

(** The sentence of the specification for one call site of the account
    hook: a rejection of [c] ends up, as a string, in [error]. *)
Definition stores_rejection {A} (op : M useAccounts.State A) (c : Call) : Prop :=
  forall (be : Backend) (tr : list Effect) (s : useAccounts.State) (e : exn),
    outcome (be tr c) = inl e ->
    useAccounts.error (state_of (op be tr s)) = Some (String_ e).

(** What the hook operations other than [checkCodexLogin] and [loadData]
    do when their call rejects: nothing else is called, [error] holds the
    string, the rejection is passed on to the caller. *)
Definition reports_and_rethrows {A} (op : M useAccounts.State A) (c : Call)
  : Prop :=
  forall (be : Backend) (tr : list Effect) (s : useAccounts.State) (e : exn),
    outcome (be tr c) = inl e ->
    op be tr s
    = (Throw e, (tr ++ [Invoked c])%list, with_error (Some (String_ e)) s).

(** An operation that reloads after its call succeeded: from there on it
    is [loadData], started without error (and with [prepare] applied). *)
Definition then_reloads (op : M useAccounts.State unit) (c : Call)
           (prepare : useAccounts.State -> useAccounts.State) : Prop :=
  forall (be : Backend) (tr : list Effect) (s : useAccounts.State)
         (v : Reply c),
    outcome (be tr c) = inr v ->
    op be tr s
    = useAccounts.loadData be (tr ++ [Invoked c])%list
        (prepare (with_error None s)).

End Shapes.

(* ===================================================================== *)
(** * Sample data *)
(* ===================================================================== *)

Module Samples.

Import Js Remote Eff.

Definition usage_with_plan (p : string) : UsageData.t :=
  {| UsageData.five_hour_left := Num 80; UsageData.five_hour_reset := "2小时30分钟";
     UsageData.weekly_left := Num 15; UsageData.weekly_reset := "3天4小时";
     UsageData.plan_type := Some p; UsageData.is_valid_for_cli := true |}.

Definition account (id name : string) : Account.t :=
  {| Account.id := id; Account.name := name; Account.auth_json := "{}";
     Account.created_at := "2025-01-01T00:00:00Z"; Account.last_used := None;
     Account.notes := None; Account.cached_quota := None |}.

Definition alice : Account.t := account "a1" "alice@example.com".
Definition bob : Account.t := account "b2" "bob@example.com".

Definition display : UsageDisplay.t :=
  {| UsageDisplay.plan_type := Some "Plus";
     UsageDisplay.five_hour_used := Num 20; UsageDisplay.five_hour_left := Num 80;
     UsageDisplay.five_hour_reset := "2小时30分钟";
     UsageDisplay.five_hour_reset_at := None;
     UsageDisplay.weekly_used := Num 85; UsageDisplay.weekly_left := Num 15;
     UsageDisplay.weekly_reset := "3天4小时"; UsageDisplay.weekly_reset_at := None;
     UsageDisplay.credits_balance := None; UsageDisplay.has_credits := false |}.

Definition reply (valid : bool) : QuotaReply.t :=
  {| QuotaReply.display := display; QuotaReply.is_valid_for_cli := valid |}.

(** A backend that fulfils every call: two accounts, [current] as the
    current id, quota replies whose validity flag is [valid]. *)
Definition backend_ok (current : option string) (valid : bool) : Backend :=
  fun _ c =>
    match c return Settled (Reply c) with
    | get_accounts => fulfilled [alice; bob]
    | get_current_account_id => fulfilled current
    | get_settings => fulfilled (useAccounts.settings useAccounts.initial)
    | export_accounts => fulfilled "[]"
    | check_codex_login => fulfilled true
    | start_oauth_login => fulfilled "https://auth.example/authorize"
    | finalize_oauth_login _ => fulfilled alice
    | reload_ide_windows _ => fulfilled ["Windsurf"]
    | get_quota_by_id _ => fulfilled (reply valid)
    | update_settings _ | import_current_account _ _ | switch_account _
    | delete_account _ | update_account _ _ _ | import_accounts _ => fulfilled tt
    end.

(** A backend that rejects every call with [e]. *)
Definition backend_rejecting (e : exn) : Backend :=
  fun _ c => {| outcome := inl e; latency := 0 |}.

(** A backend that knows the current account but rejects quota queries. *)
Definition backend_quota_rejecting (e : exn) : Backend :=
  fun tr c =>
    match c return Settled (Reply c) with
    | get_quota_by_id _ => {| outcome := inl e; latency := 0 |}
    | c' => backend_ok (Some "a1") true tr c'
    end.

(** Two usage maps that store the plan of "a1" in different letter case. *)
Definition usage_upper : gmap string UsageData.t :=
  {[ "a1" := usage_with_plan "ChatGPT PLUS" ]}.
Definition usage_lower : gmap string UsageData.t :=
  {[ "a1" := usage_with_plan "chatgpt plus" ]}.

(** The tree after the user typed a name and notes into the modal. *)
Definition typed (name notes : string) : App.State :=
  App.withModal
    {| AddAccountModal.hook := useAccounts.initial;
       AddAccountModal.activeTab := AddAccountModal.official;
       AddAccountModal.name := name; AddAccountModal.notes := notes;
       AddAccountModal.loading := false; AddAccountModal.error := None;
       AddAccountModal.oauthStatus := "" |}
    App.initial.

(** The tree with the automatic reload switched on or off. *)
Definition with_auto_reload (on : bool) : App.State :=
  App.withHook
    {| useAccounts.accounts := [alice; bob];
       useAccounts.currentId := Some "a1";
       useAccounts.settings :=
         {| AppSettings.auto_reload_ide := on;
            AppSettings.primary_ide := "Windsurf";
            AppSettings.use_pkill_restart := false;
            AppSettings.background_refresh := true;
            AppSettings.refresh_interval_minutes := Num 30;
            AppSettings.theme := "light" |};
       useAccounts.loading := false;
       useAccounts.error := None |}
    App.initial.

End Samples.

(* ===================================================================== *)
(** * The rest of the components *)
(* ===================================================================== *)

(** ** Loops and the calls of a trace *)

Module EffLoop.

Import Eff.


(** The remote calls of a trace, in order. *)
Definition calls (tr : list Effect) : list Remote.Call :=
  omap (fun e => match e with Invoked c => Some c | _ => None end) tr.

End EffLoop.

(** ** [UsageCard]: which of its four views is rendered *)

Module UsageCardView.

Record Meter : Type := {
  label : string;
  reset : string;
  percent : number;
  color : string
}.

Inductive View : Type :=
| Loading                                   (* the spinner *)
| Failed (message : string)                 (* the error text and the retry button *)
| Nothing                                   (* [return null] *)
| Meters (rows : list Meter) (credits : option number).

(** [usage.plan_type?.toLowerCase() === 'free'] *)
Definition is_free_plan (usage : UsageDisplay.t) : bool :=
  match UsageDisplay.plan_type usage with
  | Some p => String.eqb (toLowerCase p) "free"
  | None => false
  end.

(** [usage.has_credits && usage.credits_balance !== null] *)
Definition credits_shown (usage : UsageDisplay.t) : option number :=
  if UsageDisplay.has_credits usage then UsageDisplay.credits_balance usage
  else None.

Definition meters (usage : UsageDisplay.t) : list Meter :=
  if is_free_plan usage then
    [ {| label := "限额";
         reset := UsageDisplay.five_hour_reset usage;
         percent := UsageDisplay.five_hour_left usage;
         color := UsageCard.getColorClass (UsageDisplay.five_hour_left usage) |} ]
  else
    [ {| label := "5h 配额";
         reset := UsageDisplay.five_hour_reset usage;
         percent := UsageDisplay.five_hour_left usage;
         color := UsageCard.getColorClass (UsageDisplay.five_hour_left usage) |};
      {| label := "周配额";
         reset := UsageDisplay.weekly_reset usage;
         percent := UsageDisplay.weekly_left usage;
         color := UsageCard.getColorClass (UsageDisplay.weekly_left usage) |} ].

(** The component function: the three early returns, then the meters.
    [if (error)] takes a non-empty string only. *)
Definition render (usage : option UsageDisplay.t) (loading : bool)
           (error : option string) : View :=
  if loading && negb (bool_decide (is_Some usage)) then Loading
  else
    match error with
    | Some message =>
        if truthy message then Failed message
        else match usage with
             | Some u => Meters (meters u) (credits_shown u)
             | None => Nothing
             end
    | None =>
        match usage with
        | Some u => Meters (meters u) (credits_shown u)
        | None => Nothing
        end
    end.

(** The card fed from the usage hook.  In the sources [App] hands [usage],
    [loading] and [error] of the hook to [Dashboard], which is not among the
    files of the layer; that [Dashboard] passes the three on to [UsageCard]
    as they are is an assumption of the model. *)
Definition of_hook (s : useUsage.State) : View :=
  render (useUsage.usage s) (useUsage.loading s) (useUsage.error s).

End UsageCardView.

(** ** [AccountList]: selection and refreshing several accounts *)

Module AccountListActions.

Import Remote Eff EffLoop.

Definition setSelectedIds (v : gset string) : M AccountList.State unit :=
  modify (fun s => {| AccountList.selectedIds := v;
                      AccountList.refreshingIds := AccountList.refreshingIds s;
                      AccountList.usageMap := AccountList.usageMap s;
                      AccountList.isRefreshingAll := AccountList.isRefreshingAll s;
                      AccountList.searchQuery := AccountList.searchQuery s;
                      AccountList.filter := AccountList.filter s;
                      AccountList.invalidIds := AccountList.invalidIds s |}).


(** [filteredAccounts] of a render: the [accounts] prop after the search and
    the plan filter. *)
Definition visible (accounts : list Account.t) (render : AccountList.State)
  : list Account.t :=
  AccountListView.filteredAccounts (AccountList.usageMap render)
    (AccountListView.searchedAccounts accounts (AccountList.searchQuery render))
    (AccountList.filter render).

Definition handleToggleSelect (render : AccountList.State) (id : string)
  : M AccountList.State unit :=
  let newSet := AccountList.selectedIds render in
  if bool_decide (id ∈ newSet)
  then setSelectedIds (newSet ∖ {[id]})
  else setSelectedIds (newSet ∪ {[id]}).




End AccountListActions.

(** ** [AccountCard] *)

Module AccountCard.

Import Eff.

Record State : Type := {
  switching : bool;
  deleting : bool;
  confirmDelete : bool
}.

Definition initial : State :=
  {| switching := false; deleting := false; confirmDelete := false |}.

Definition setSwitching (v : bool) : M State unit :=
  modify (fun s => {| switching := v; deleting := deleting s;
                      confirmDelete := confirmDelete s |}).

Definition setDeleting (v : bool) : M State unit :=
  modify (fun s => {| switching := switching s; deleting := v;
                      confirmDelete := confirmDelete s |}).

Definition setConfirmDelete (v : bool) : M State unit :=
  modify (fun s => {| switching := switching s; deleting := deleting s;
                      confirmDelete := v |}).

(** The card next to the state [P] of its parent; [onSwitch] and [onDelete]
    are the parent's functions. *)
Section Component.
Context {P : Type}.
Variable isCurrent : bool.
Variable onSwitch : M P unit.
Variable onDelete : M P unit.

Definition here {A} (m : M State A) : M (State * P) A :=
  zoom fst (fun c w => (c, snd w)) m.

Definition parent {A} (m : M P A) : M (State * P) A :=
  zoom snd (fun p w => (fst w, p)) m.

Definition handleSwitch (render : State) : M (State * P) unit :=
  if isCurrent || switching render then ret tt
  else
    here (setSwitching true) ;;
    finally (parent onSwitch) (here (setSwitching false)).

Definition handleDelete (render : State) : M (State * P) unit :=
  if deleting render then ret tt
  else if negb (confirmDelete render) then here (setConfirmDelete true)
  else
    here (setDeleting true) ;;
    finally (parent onDelete)
      (here (setDeleting false) ;; here (setConfirmDelete false)).
End Component.

End AccountCard.

(** ** [AddAccountModal]: the tabs *)

Module AddAccountModalTabs.

Import Eff.

Definition setActiveTab (v : AddAccountModal.TabType) : M AddAccountModal.State unit :=
  modify (fun s => {| AddAccountModal.hook := AddAccountModal.hook s;
                      AddAccountModal.activeTab := v;
                      AddAccountModal.name := AddAccountModal.name s;
                      AddAccountModal.notes := AddAccountModal.notes s;
                      AddAccountModal.loading := AddAccountModal.loading s;
                      AddAccountModal.error := AddAccountModal.error s;
                      AddAccountModal.oauthStatus := AddAccountModal.oauthStatus s |}).

(** [onClick={() => !loading && setActiveTab(tab)}] *)
Definition clickTab (render : AddAccountModal.State) (tab : AddAccountModal.TabType)
  : M AddAccountModal.State unit :=
  if negb (AddAccountModal.loading render) then setActiveTab tab else ret tt.

(** [disabled={loading && !oauthStatus.includes('成功')}] of the close button. *)
Definition close_disabled (render : AddAccountModal.State) : bool :=
  AddAccountModal.loading render
  && negb (includes "成功" (AddAccountModal.oauthStatus render)).

End AddAccountModalTabs.

(** ** [App]: what the dashboard is told about the current account *)

Module AppView.

(** [currentAccount?.cached_quota?.is_valid_for_cli === false] *)
Definition isCurrentInvalid (s : App.State) : bool :=
  match App.currentAccount s with
  | Some a =>
      match Account.cached_quota a with
      | Some q =>
          match CachedQuota.is_valid_for_cli q with
          | Some false => true
          | _ => false
          end
      | None => false
      end
  | None => false
  end.

End AppView.

(** ** Accounts that carry a cached quota *)

Module CachedSamples.

Import Js.

Definition quota (valid : option bool) : CachedQuota.t :=
  {| CachedQuota.five_hour_left := Num 80;
     CachedQuota.five_hour_reset := "2小时30分钟";
     CachedQuota.five_hour_reset_at := None;
     CachedQuota.weekly_left := Num 15;
     CachedQuota.weekly_reset := "3天4小时";
     CachedQuota.weekly_reset_at := None;
     CachedQuota.plan_type := Some "Plus";
     CachedQuota.is_valid_for_cli := valid;
     CachedQuota.updated_at := "2025-01-02T00:00:00Z" |}.

Definition carol (valid : option bool) : Account.t :=
  {| Account.id := "c3"; Account.name := "carol@example.com";
     Account.auth_json := "{}";
     Account.created_at := "2025-01-01T00:00:00Z"; Account.last_used := None;
     Account.notes := None; Account.cached_quota := Some (quota valid) |}.

(** The tree in which the current account is [carol]. *)
Definition with_current (valid : option bool) : App.State :=
  App.withHook
    {| useAccounts.accounts := [Samples.alice; carol valid];
       useAccounts.currentId := Some "c3";
       useAccounts.settings := useAccounts.settings useAccounts.initial;
       useAccounts.loading := false;
       useAccounts.error := None |}
    App.initial.

End CachedSamples.

(* ===================================================================== *)
(** * The numbers of the engine: binary64 *)
(* ===================================================================== *)

Module Float64.

Import Js.

Local Open Scope Q_scope.

(** [2^e] for an integer exponent of either sign. *)
Definition pow2 (e : Z) : Q := 2 ^ e.

(** The binade of a positive rational: the [E] with [2^E <= q < 2^(E+1)]. *)
Definition binade (q : Q) : Z :=
  let e0 := (Z.log2 (Qnum q) - Z.log2 (Zpos (Qden q)))%Z in
  if Qle_bool (pow2 e0) q then e0 else (e0 - 1)%Z.

(** The integer nearest to [m]; of two equally near, the even one. *)
Definition nearest_even (m : Q) : Z :=
  let f := Qfloor m in
  match Qcompare (m - inject_Z f) (1 # 2) with
  | Lt => f
  | Gt => (f + 1)%Z
  | Eq => if Z.even f then f else (f + 1)%Z
  end.

(** The exponent of the last place of the binary64 numbers near a positive
    [q]: 53 significant bits, and no finer than [2^-1074]. *)
Definition ulp_exponent (q : Q) : Z := Z.max (binade q - 52) (-1074).

(** A positive rational rounded to binary64, to nearest and ties to even;
    [None] when the rounded value does not fit below [2^1024]. *)
Definition round_pos (q : Q) : option Q :=
  let e := ulp_exponent q in
  let w := inject_Z (nearest_even (q / pow2 e)) * pow2 e in
  if Qle_bool (pow2 1024) w then None else Some (Qred w).

(** The Number value for a rational. *)
Definition round (q : Q) : number :=
  match Qcompare q 0 with
  | Eq => Num 0
  | Gt => match round_pos q with
          | Some w => Num w
          | None => Infinity
          end
  | Lt => match round_pos (- q) with
          | Some w => Num (- w)
          | None => NegInfinity
          end
  end.

Definition is_zero (q : Q) : bool := Qeq_bool q 0.
Definition is_negative (q : Q) : bool := Qlt_bool q 0.

Definition neg (a : number) : number :=
  match a with
  | Num q => Num (- q)
  | NaN => NaN
  | Infinity => NegInfinity
  | NegInfinity => Infinity
  end.

(** [a + b] *)
Definition add (a b : number) : number :=
  match a, b with
  | NaN, _ | _, NaN => NaN
  | Infinity, NegInfinity | NegInfinity, Infinity => NaN
  | Infinity, _ | _, Infinity => Infinity
  | NegInfinity, _ | _, NegInfinity => NegInfinity
  | Num x, Num y => round (x + y)
  end.

(** An infinity times, or divided by, a finite number [y]. *)
Definition scale_infinity (inf : number) (y : Q) : number :=
  if is_negative y then neg inf else inf.

(** [a * b] *)
Definition mul (a b : number) : number :=
  match a, b with
  | NaN, _ | _, NaN => NaN
  | Num x, Num y => round (x * y)
  | Num x, (Infinity | NegInfinity) =>
      if is_zero x then NaN else scale_infinity b x
  | (Infinity | NegInfinity), Num y =>
      if is_zero y then NaN else scale_infinity a y
  | Infinity, Infinity | NegInfinity, NegInfinity => Infinity
  | Infinity, NegInfinity | NegInfinity, Infinity => NegInfinity
  end.

(** [a / b] *)
Definition div (a b : number) : number :=
  match a, b with
  | NaN, _ | _, NaN => NaN
  | Num x, Num y =>
      if is_zero y
      then (if is_zero x then NaN
            else if is_negative x then NegInfinity else Infinity)
      else round (x / y)
  | Num _, (Infinity | NegInfinity) => Num 0
  | (Infinity | NegInfinity), Num y => scale_infinity a y
  | (Infinity | NegInfinity), (Infinity | NegInfinity) => NaN
  end.

(** The mathematical integer that a string of decimal digits represents. *)
Definition mathematical_value (ds : string) : N := parseInt_from 0 ds.

Definition of_N (n : N) : Q := inject_Z (Z.of_N n).

(** [parseInt(ds)] for a string of decimal digits, as captured by [(\d+)]:
    the Number value for the integer written.  (The language lets an engine
    read the digits after the twentieth as zeros; the engines in use round
    the integer as it is written, as is done here.  Up to sixteen digits
    there is no difference.) *)
Definition parseInt (ds : string) : number := round (of_N (mathematical_value ds)).

(** ** [Number::toString]

    For a positive [v] the digits printed are those of the integer [s] with
    the fewest digits [k] such that [s * 10^(n-k)] rounds to [v], where
    [10^(n-1) <= v < 10^n]; of two such integers the one nearer to [v]. *)

Definition pow10 (e : Z) : Q := 10 ^ e.

Fixpoint zeros (n : nat) : string :=
  match n with
  | O => EmptyString
  | S n' => String "0" (zeros n')
  end.

Fixpoint decimal_exponent_below_one (fuel : nat) (v : Q) (n : Z) : Z :=
  match fuel with
  | O => n
  | S fuel' =>
      if Qle_bool (pow10 (n - 1)) v then n
      else decimal_exponent_below_one fuel' v (n - 1)
  end.

(** The [n] with [10^(n-1) <= v < 10^n]. *)
Definition decimal_exponent (v : Q) : Z :=
  if Qle_bool 1 v
  then Z.of_nat (String.length (show (Z.to_N (Qfloor v))))
  else decimal_exponent_below_one 400 v 0.

(** [s * 10^(n-k)] rounds to [v]. *)
Definition reads_back (v : Q) (n k s : Z) : bool :=
  match round (inject_Z s * pow10 (n - k)) with
  | Num w => Qeq_bool w v
  | _ => false
  end.

(** The digits [s] for a given number [k] of digits, when there are any:
    one of the two integers around [v / 10^(n-k)]. *)
Definition digits_of_length (v : Q) (n k : Z) : option Z :=
  let scale := pow10 (n - k) in
  let lo := Qfloor (v / scale) in
  let hi := (lo + 1)%Z in
  match reads_back v n k lo, reads_back v n k hi with
  | true, false => Some lo
  | false, true => Some hi
  | true, true =>
      match Qcompare (v - inject_Z lo * scale) (inject_Z hi * scale - v) with
      | Lt => Some lo
      | Gt => Some hi
      | Eq => Some (if Z.even lo then lo else hi)
      end
  | false, false => None
  end.

Fixpoint shortest_digits (fuel : nat) (v : Q) (n k : Z) : Z * Z :=
  match fuel with
  | O => (Qfloor (v / pow10 (n - k)), k)
  | S fuel' =>
      match digits_of_length v n k with
      | Some s => (s, k)
      | None => shortest_digits fuel' v n (k + 1)
      end
  end.

(** The triple [(n, k, s)] of the algorithm. *)
Definition decimal_of (v : Q) : Z * Z * Z :=
  let n := decimal_exponent v in
  let '(s, k) := shortest_digits 17 v n 1 in
  if Qeq_bool (inject_Z s) (pow10 k) then ((n + 1)%Z, 1%Z, 1%Z) else (n, k, s).

Definition show_Z (z : Z) : string := show (Z.to_N z).

Definition take (n : nat) (s : string) : string := String.substring 0 n s.
Definition drop (n : nat) (s : string) : string :=
  String.substring n (String.length s - n) s.

Definition toString_pos (v : Q) : string :=
  let '(n, k, s) := decimal_of v in
  let digits := show_Z s in
  if ((k <=? n) && (n <=? 21))%Z
  then digits +:+ zeros (Z.to_nat (n - k))
  else if ((0 <? n) && (n <=? 21))%Z
  then take (Z.to_nat n) digits +:+ "." +:+ drop (Z.to_nat n) digits
  else if ((-6 <? n) && (n <=? 0))%Z
  then "0." +:+ zeros (Z.to_nat (- n)) +:+ digits
  else
    let e := (n - 1)%Z in
    let exponent := (if (e <? 0)%Z then "-" else "+") +:+ show_Z (Z.abs e) in
    if (k =? 1)%Z then digits +:+ "e" +:+ exponent
    else take 1 digits +:+ "." +:+ drop 1 digits +:+ "e" +:+ exponent.

(** [`${x}`] for a number [x]. *)
Definition toString (x : number) : string :=
  match x with
  | NaN => "NaN"
  | Infinity => "Infinity"
  | NegInfinity => "-Infinity"
  | Num q =>
      match Qcompare q 0 with
      | Eq => "0"
      | Gt => toString_pos q
      | Lt => "-" +:+ toString_pos (- q)
      end
  end.

(** ** Comparison with the standard library

    [SpecFloat] of the standard library specifies the same arithmetic on
    mantissas and exponents.  Its values are read here as numbers, so that
    the two can be compared on examples. *)

Definition of_spec_float (f : spec_float) : number :=
  match f with
  | S754_zero _ => Num 0
  | S754_infinity false => Infinity
  | S754_infinity true => NegInfinity
  | S754_nan => NaN
  | S754_finite s m e =>
      Num (Qred (inject_Z (if s then Z.neg m else Z.pos m) * pow2 e))
  end.

Definition spec_of_Z (z : Z) : spec_float := binary_normalize 53 1024 z 0 false.

End Float64.

(* ===================================================================== *)
(** * [parseChineseDuration] in the arithmetic of the engine *)
(* ===================================================================== *)

(** [AccountListView.parseChineseDuration] reads the numbers as integers and
    adds them as rationals.  The engine computes with binary64 numbers:
    [parseInt] rounds the integer written, each of [*], [+] and [/] rounds
    its result, and the template literals print with [Number::toString].
    This is the function with those operations. *)
Module DurationParser.

Import Js.

Record Duration : Type := { text : string; hours : number }.

Definition parseChineseDuration (str : option string) : Duration :=
  match str with
  | None => {| text := "N/A"; hours := Num 999 |}
  | Some str =>
      if negb (truthy str) || String.eqb str "未知" || String.eqb str "N/A"
      then {| text := "N/A"; hours := Num 999 |}
      else if String.eqb str "即将重置"
      then {| text := "Soon"; hours := Num 0 |}
      else
        let dayMatch := match_digits "天" str in
        let hourMatch := match_digits "小时" str in
        let minMatch := match_digits "分钟" str in
        let days :=
          match dayMatch with Some d => Float64.parseInt d | None => Num 0 end in
        let hours :=
          match hourMatch with Some h => Float64.parseInt h | None => Num 0 end in
        let mins :=
          match minMatch with Some m => Float64.parseInt m | None => Num 0 end in
        let totalHours :=
          Float64.add (Float64.add (Float64.mul days (Num 24)) hours)
                   (Float64.div mins (Num 60)) in
        let compactText :=
          if gt days (Num 0)
          then Float64.toString days +:+ "d " +:+ Float64.toString hours +:+ "h"
          else if gt hours (Num 0)
          then Float64.toString hours +:+ "h " +:+ Float64.toString mins +:+ "m"
          else Float64.toString mins +:+ "m" in
        let compactText :=
          if negb (truthy compactText) then "N/A" else compactText in
        {| text := compactText; hours := totalHours |}
  end.

(** The hours as the specification writes them, without rounding. *)
Definition exact_hours (d h m : N) : Q :=
  (Float64.of_N d * 24 + Float64.of_N h + Float64.of_N m / 60)%Q.

End DurationParser.

(** ** Text within ASCII *)

Module AsciiText.

(** The text has no character outside ASCII: every byte is below 128.  On
    such text [Js.toLowerCase] is [String.prototype.toLowerCase]. *)
Fixpoint ascii_only (s : string) : bool :=
  match s with
  | EmptyString => true
  | String c s' => Nat.ltb (nat_of_ascii c) 128 && ascii_only s'
  end.

End AsciiText.

(* ===================================================================== *)
(** * Properties of the string primitives *)
(* ===================================================================== *)

Module JsFacts.

Import Js.

Lemma append_cons (c : ascii) (a b : string) :
  String c a +:+ b = String c (a +:+ b).
Proof. reflexivity. Qed.

Lemma append_nil (b : string) : "" +:+ b = b.
Proof. reflexivity. Qed.

Lemma startsWith_append (p s : string) : startsWith p (p +:+ s) = true.
Proof.
  induction p as [|c p IH]; [reflexivity|].
  rewrite append_cons. simpl. now rewrite Ascii.eqb_refl.
Qed.

Lemma span_digits_run (d rest : string) :
  all_digits d = true -> starts_with_digit rest = false ->
  span_digits (d +:+ rest) = (d, rest).
Proof.
  intros Hd Hrest. induction d as [|c d IH].
  - rewrite append_nil. destruct rest as [|c r]; [reflexivity|].
    simpl in *. now rewrite Hrest.
  - simpl in Hd. apply andb_true_iff in Hd as [Hc Hd].
    rewrite append_cons. simpl. rewrite Hc, (IH Hd). reflexivity.
Qed.

Lemma match_here_run (tok d rest : string) :
  all_digits d = true -> truthy d = true -> starts_with_digit tok = false ->
  truthy tok = true ->
  match_here tok (d +:+ tok +:+ rest) = Some d.
Proof.
  intros Hd Hne Htok Htok'. unfold match_here.
  rewrite span_digits_run; try assumption.
  - now rewrite Hne, startsWith_append.
  - destruct tok; [discriminate|]. exact Htok.
Qed.

Lemma match_digits_found (tok d rest : string) :
  all_digits d = true -> truthy d = true -> starts_with_digit tok = false ->
  truthy tok = true ->
  match_digits tok (d +:+ tok +:+ rest) = Some d.
Proof.
  intros Hd Hne Htok Htok'.
  pose proof (match_here_run tok d rest Hd Hne Htok Htok') as H.
  revert H. generalize (d +:+ tok +:+ rest). intros s H.
  destruct s; cbn [match_digits]; now rewrite H.
Qed.

Lemma match_here_no_digit (tok : string) (c : ascii) (s : string) :
  is_digit c = false -> match_here tok (String c s) = None.
Proof. intros Hc. unfold match_here. simpl. now rewrite Hc. Qed.

(** The matcher passes over text without digits. *)
Lemma match_digits_skip (tok p s : string) :
  no_digit p = true -> match_digits tok (p +:+ s) = match_digits tok s.
Proof.
  intros Hp. induction p as [|c p IH]; [reflexivity|].
  simpl in Hp. apply andb_true_iff in Hp as [Hc Hp].
  apply negb_true_iff in Hc.
  rewrite append_cons. cbn [match_digits]. rewrite (match_here_no_digit _ _ _ Hc).
  now apply IH.
Qed.

(** The matcher passes over a run of digits that [tok] does not follow. *)
Lemma match_digits_skip_run (tok d rest : string) :
  all_digits d = true -> starts_with_digit rest = false ->
  startsWith tok rest = false ->
  match_digits tok (d +:+ rest) = match_digits tok rest.
Proof.
  intros Hd Hrest Htok. induction d as [|c d IH]; [reflexivity|].
  pose proof (span_digits_run _ _ Hd Hrest) as Hspan.
  simpl in Hd. apply andb_true_iff in Hd as [Hc Hd].
  rewrite append_cons. cbn [match_digits].
  unfold match_here. rewrite append_cons in Hspan. rewrite Hspan.
  rewrite Htok, andb_false_r. now apply IH.
Qed.

Lemma no_digit_append (a b : string) :
  no_digit (a +:+ b) = no_digit a && no_digit b.
Proof.
  induction a as [|c a IH]; [reflexivity|].
  rewrite append_cons. simpl. now rewrite IH, andb_assoc.
Qed.

Lemma all_digits_not_no_digit (d : string) :
  all_digits d = true -> truthy d = true -> no_digit d = false.
Proof.
  destruct d as [|c d]; [discriminate|]. simpl.
  intros H _. apply andb_true_iff in H as [-> _]. reflexivity.
Qed.

End JsFacts.

(** ** The matcher against the regular expression *)

Section MatcherSpec.
Import Js JsFacts Shapes.

Lemma span_digits_spec (s ds rest : string) :
  span_digits s = (ds, rest) ->
  s = ds +:+ rest /\ all_digits ds = true /\ starts_with_digit rest = false.
Proof.
  revert ds rest. induction s as [|c s IH]; intros ds rest.
  - intros [= <- <-]. auto.
  - simpl. destruct (is_digit c) eqn:Hc.
    + destruct (span_digits s) as [ds' rest'].
      intros [= <- <-]. destruct (IH _ _ eq_refl) as (-> & Hd & Hr).
      rewrite append_cons. simpl. rewrite Hc, Hd. auto.
    + intros [= <- <-]. simpl. auto.
Qed.

Lemma startsWith_spec (p s : string) :
  startsWith p s = true <-> exists post, s = p +:+ post.
Proof.
  split.
  - revert s. induction p as [|a p IH]; intros s H.
    + now exists s.
    + destruct s as [|b s]; [discriminate|]. simpl in H.
      destruct (Ascii.eqb_spec a b) as [->|]; [|discriminate].
      destruct (IH _ H) as [post ->]. now exists post.
  - intros [post ->]. apply startsWith_append.
Qed.

(** One start position: the group is the whole run of digits found there. *)
Lemma match_here_spec (tok s d : string) :
  truthy tok = true -> starts_with_digit tok = false ->
  match_here tok s = Some d <-> matches_at tok s 0 d.
Proof.
  intros Htok Htok'. unfold matches_at. split.
  - unfold match_here. destruct (span_digits s) as [ds rest] eqn:Hspan.
    destruct (span_digits_spec _ _ _ Hspan) as (-> & Hd & Hr).
    destruct (truthy ds) eqn:Hne; [|discriminate]. cbn [andb].
    destruct (startsWith tok rest) eqn:Hst; [|discriminate].
    intros [= <-]. apply startsWith_spec in Hst as [post ->].
    exists "", post. unfold number_text. rewrite Hd, Hne. auto.
  - intros (pre & post & -> & Hlen & [Hd Hne]%andb_true_iff).
    destruct pre; [|discriminate]. rewrite append_nil.
    now apply match_here_run.
Qed.

Lemma matches_at_cons (tok : string) (c : ascii) (s : string) (i : nat) (d : string) :
  matches_at tok (String c s) (S i) d <-> matches_at tok s i d.
Proof.
  unfold matches_at. split.
  - intros (pre & post & Heq & Hlen & Hd).
    destruct pre as [|c' pre]; [discriminate|].
    rewrite append_cons in Heq. injection Heq as -> ->.
    exists pre, post. simpl in Hlen. auto.
  - intros (pre & post & -> & <- & Hd).
    exists (String c pre), post. auto.
Qed.

Lemma matches_at_empty (tok : string) (i : nat) (d : string) :
  ~ matches_at tok "" i d.
Proof.
  intros (pre & post & Heq & _ & [_ Hne]%andb_true_iff).
  destruct pre; [|discriminate]. rewrite append_nil in Heq.
  destruct d; discriminate.
Qed.

(** The matcher computes the leftmost match of the regular expression. *)
Theorem match_digits_leftmost (tok s d : string) :
  truthy tok = true -> starts_with_digit tok = false ->
  match_digits tok s = Some d <-> first_match tok s d.
Proof.
  intros Htok Htok'. unfold first_match. revert d.
  induction s as [|c s IH]; intros d.
  - cbn. split; [discriminate|].
    intros (i & H & _). now apply matches_at_empty in H.
  - cbn [match_digits]. destruct (match_here tok (String c s)) as [ds|] eqn:Hhere.
    + apply match_here_spec in Hhere; [|assumption..]. split.
      * intros [= <-]. exists 0. split; [assumption|]. intros j d' Hj. lia.
      * intros ([|i] & H & Hmin).
        -- apply match_here_spec in H, Hhere; try assumption. congruence.
        -- exfalso. apply (Hmin 0 ds); [lia | assumption].
    + rewrite IH. split.
      * intros (i & H & Hmin). exists (S i). split.
        -- now apply matches_at_cons.
        -- intros [|j] d' Hj.
           ++ intros H0. apply match_here_spec in H0; try assumption. congruence.
           ++ rewrite matches_at_cons. apply Hmin. lia.
      * intros ([|i] & H & Hmin).
        -- apply match_here_spec in H; try assumption. congruence.
        -- exists i. split; [now apply matches_at_cons in H|].
           intros j d' Hj. rewrite <- (matches_at_cons tok c). apply Hmin. lia.
Qed.

Theorem match_digits_none (tok s : string) :
  truthy tok = true -> starts_with_digit tok = false ->
  match_digits tok s = None <-> forall i d, ~ matches_at tok s i d.
Proof.
  intros Htok Htok'. induction s as [|c s IH].
  - cbn. split; [intros _ i d; apply matches_at_empty | reflexivity].
  - cbn [match_digits]. destruct (match_here tok (String c s)) as [ds|] eqn:Hhere.
    + apply match_here_spec in Hhere; [|assumption..]. split; [discriminate|].
      intros H. now apply H in Hhere.
    + rewrite IH. split.
      * intros H [|i] d.
        -- intros H0. apply match_here_spec in H0; try assumption. congruence.
        -- rewrite matches_at_cons. apply H.
      * intros H i d. rewrite <- (matches_at_cons tok c). apply H.
Qed.
End MatcherSpec.

(* ===================================================================== *)
(** * Durations and colours *)
(* ===================================================================== *)

Section DurationFacts.

Import Js JsFacts AccountListView Shapes.

Lemma number_text_inv d :
  number_text d = true -> all_digits d = true /\ truthy d = true.
Proof. apply andb_true_iff. Qed.

Lemma duration_text_has_digit p0 d p1 h p2 m p3 :
  number_text d = true -> no_digit (duration_text p0 d p1 h p2 m p3) = false.
Proof.
  intros [Hd Hne]%number_text_inv. unfold duration_text.
  rewrite !no_digit_append, (all_digits_not_no_digit d Hd Hne).
  now rewrite andb_false_r.
Qed.

Lemma eqb_false_of_no_digit (s lit : string) :
  no_digit s = false -> no_digit lit = true -> String.eqb s lit = false.
Proof.
  intros Hs Hlit. destruct (String.eqb_spec s lit) as [->|]; congruence.
Qed.

Lemma days_of_duration_text p0 d p1 h p2 m p3 :
  no_digit p0 = true -> number_text d = true ->
  match_digits "天" (duration_text p0 d p1 h p2 m p3) = Some d.
Proof.
  intros Hp0 [Hd Hne]%number_text_inv. unfold duration_text.
  rewrite match_digits_skip by assumption.
  now apply match_digits_found.
Qed.

Lemma hours_of_duration_text p0 d p1 h p2 m p3 :
  no_digit p0 = true -> number_text d = true ->
  no_digit p1 = true -> number_text h = true ->
  match_digits "小时" (duration_text p0 d p1 h p2 m p3) = Some h.
Proof.
  intros Hp0 [Hd _]%number_text_inv Hp1 [Hh Hne]%number_text_inv.
  unfold duration_text.
  rewrite match_digits_skip by assumption.
  rewrite match_digits_skip_run by (assumption || reflexivity).
  rewrite (match_digits_skip "小时" "天") by reflexivity.
  rewrite match_digits_skip by assumption.
  now apply match_digits_found.
Qed.

Lemma mins_of_duration_text p0 d p1 h p2 m p3 :
  no_digit p0 = true -> number_text d = true ->
  no_digit p1 = true -> number_text h = true ->
  no_digit p2 = true -> number_text m = true ->
  match_digits "分钟" (duration_text p0 d p1 h p2 m p3) = Some m.
Proof.
  intros Hp0 [Hd _]%number_text_inv Hp1 [Hh _]%number_text_inv
         Hp2 [Hm Hne]%number_text_inv.
  unfold duration_text.
  rewrite match_digits_skip by assumption.
  rewrite match_digits_skip_run by (assumption || reflexivity).
  rewrite (match_digits_skip "分钟" "天") by reflexivity.
  rewrite match_digits_skip by assumption.
  rewrite match_digits_skip_run by (assumption || reflexivity).
  rewrite (match_digits_skip "分钟" "小时") by reflexivity.
  rewrite match_digits_skip by assumption.
  now apply match_digits_found.
Qed.

Lemma Qlt_bool_iff (a b : Q) : Qlt_bool a b = true <-> (a < b)%Q.
Proof.
  unfold Qlt_bool. rewrite negb_true_iff. split.
  - intros H. apply Qnot_le_lt. intros Hle.
    apply Qle_bool_iff in Hle. congruence.
  - intros H. destruct (Qle_bool b a) eqn:E; [|reflexivity].
    apply Qle_bool_iff in E. exfalso. exact (Qlt_not_le _ _ H E).
Qed.

Lemma Qlt_bool_false_iff (a b : Q) : Qlt_bool a b = false <-> (b <= a)%Q.
Proof.
  unfold Qlt_bool. rewrite negb_false_iff. apply Qle_bool_iff.
Qed.

Lemma time_color_cases (str : option string) :
  let h := hours (parseChineseDuration str) in
  (getTimeColorClass str = "success" /\ (h < 1)%Q) \/
  (getTimeColorClass str = "warning" /\ (1 <= h)%Q /\ (h < 6)%Q) \/
  (getTimeColorClass str = "neutral" /\ (6 <= h)%Q).
Proof.
  intros h. unfold getTimeColorClass. fold h.
  destruct (Qeq_bool h 999) eqn:E999.
  { apply Qeq_bool_iff in E999. right; right. split; [reflexivity|].
    rewrite E999. discriminate. }
  destruct (Qlt_bool h 1) eqn:E1.
  { apply Qlt_bool_iff in E1. now left. }
  apply Qlt_bool_false_iff in E1.
  destruct (Qlt_bool h 6) eqn:E6.
  { apply Qlt_bool_iff in E6. right; left. auto. }
  apply Qlt_bool_false_iff in E6. right; right. auto.
Qed.

End DurationFacts.

Lemma matches_at_has_digit (tok s : string) (i : nat) (d : string) :
  Shapes.matches_at tok s i d -> Js.no_digit s = false.
Proof.
  intros (pre & post & -> & _ & [Hd Hne]%number_text_inv).
  rewrite !JsFacts.no_digit_append, (JsFacts.all_digits_not_no_digit d Hd Hne).
  now rewrite andb_false_r.
Qed.

(* ===================================================================== *)
(** * Binary64 arithmetic *)
(* ===================================================================== *)

Section PowerFacts.
Import Float64.
Local Open Scope Q_scope.

Lemma pow2_pos (e : Z) : 0 < pow2 e.
Proof. apply Qpower_0_lt. reflexivity. Qed.

Lemma pow2_add (a b : Z) : pow2 (a + b) == pow2 a * pow2 b.
Proof. apply Qpower_plus. discriminate. Qed.

Lemma pow2_le (a b : Z) : (a <= b)%Z -> pow2 a <= pow2 b.
Proof. intros H. apply Qpower_le_compat_l; [exact H|discriminate]. Qed.

Lemma pow2_lt (a b : Z) : (a < b)%Z -> pow2 a < pow2 b.
Proof. intros H. apply Qpower_lt_compat_l; [exact H|reflexivity]. Qed.

Lemma pow2_lt_inv (a b : Z) : pow2 a < pow2 b -> (a < b)%Z.
Proof. intros H. apply (Qpower_lt_compat_l_inv 2); [exact H|reflexivity]. Qed.

Lemma pow2_Z (e : Z) : (0 <= e)%Z -> pow2 e == inject_Z (2 ^ e).
Proof.
  intros H. unfold pow2. change 2 with (inject_Z 2).
  symmetry. now apply Zpower_Qpower.
Qed.

Lemma pow2_succ (e : Z) : pow2 (e + 1) == 2 * pow2 e.
Proof. rewrite pow2_add. change (pow2 1) with 2. ring. Qed.

Lemma pow2_sub (a b : Z) : pow2 (a - b) == pow2 a / pow2 b.
Proof.
  pose proof (pow2_pos b) as Hb.
  assert (pow2 a == pow2 (a - b) * pow2 b) as ->.
  { rewrite <- pow2_add. now replace (a - b + b)%Z with a by lia. }
  field. intros H. rewrite H in Hb. discriminate.
Qed.
End PowerFacts.

Section BinadeFacts.
Import Float64.
Local Open Scope Q_scope.

Lemma log2_bounds (p : positive) :
  pow2 (Z.log2 (Zpos p)) <= inject_Z (Zpos p)
  /\ inject_Z (Zpos p) < pow2 (Z.log2 (Zpos p) + 1).
Proof.
  pose proof (Z.log2_spec (Zpos p) eq_refl) as [Hlo Hhi].
  pose proof (Z.log2_nonneg (Zpos p)) as Hnn.
  rewrite !pow2_Z by lia. rewrite <- Zle_Qle, <- Zlt_Qlt.
  split; [exact Hlo|]. now rewrite Z.add_1_r.
Qed.

Lemma Qmake_as_div (n : Z) (d : positive) :
  n # d == inject_Z n / inject_Z (Zpos d).
Proof. apply Qmake_Qdiv. Qed.

Lemma binade_spec (q : Q) :
  0 < q -> pow2 (binade q) <= q /\ q < pow2 (binade q + 1).
Proof.
  destruct q as [n d]. intros Hq.
  destruct n as [|p|p]; try discriminate Hq.
  unfold binade. cbn [Qnum Qden].
  set (e0 := (Z.log2 (Z.pos p) - Z.log2 (Z.pos d))%Z).
  pose proof (log2_bounds p) as [Hn1 Hn2].
  pose proof (log2_bounds d) as [Hd1 Hd2].
  pose proof (pow2_pos (Z.log2 (Z.pos d))) as Hpd.
  pose proof (pow2_pos e0) as Hpe.
  assert (HD : 0 < inject_Z (Z.pos d)) by (rewrite <- (Zlt_Qlt 0); lia).
  assert (Hq' : Z.pos p # d == inject_Z (Z.pos p) / inject_Z (Z.pos d))
    by apply Qmake_as_div.
  assert (Hn : pow2 (Z.log2 (Z.pos p)) == pow2 e0 * pow2 (Z.log2 (Z.pos d))).
  { rewrite <- pow2_add. unfold e0.
    now replace (Z.log2 (Z.pos p) - Z.log2 (Z.pos d) + Z.log2 (Z.pos d))%Z
      with (Z.log2 (Z.pos p)) by lia. }
  assert (Hupper : Z.pos p # d < pow2 (e0 + 1)).
  { rewrite Hq'. apply Qlt_shift_div_r; [exact HD|].
    eapply Qlt_le_trans; [exact Hn2|].
    rewrite pow2_succ, Hn, pow2_succ.
    setoid_replace (2 * (pow2 e0 * pow2 (Z.log2 (Z.pos d))))
      with (2 * pow2 e0 * pow2 (Z.log2 (Z.pos d))) using relation Qeq by ring.
    apply Qmult_le_l; [|exact Hd1].
    apply Qmult_lt_0_compat; [reflexivity|exact Hpe]. }
  assert (Hlower : pow2 (e0 - 1) < Z.pos p # d).
  { rewrite Hq'. apply Qlt_shift_div_l; [exact HD|].
    eapply Qlt_le_trans; [|exact Hn1].
    rewrite Hn.
    assert (pow2 e0 == 2 * pow2 (e0 - 1)) as ->.
    { rewrite <- pow2_succ. now replace (e0 - 1 + 1)%Z with e0 by lia. }
    setoid_replace (2 * pow2 (e0 - 1) * pow2 (Z.log2 (Z.pos d)))
      with (pow2 (e0 - 1) * (2 * pow2 (Z.log2 (Z.pos d)))) using relation Qeq by ring.
    apply Qmult_lt_l; [apply pow2_pos|].
    now rewrite <- pow2_succ. }
  destruct (Qle_bool (pow2 e0) (Z.pos p # d)) eqn:E.
  - apply Qle_bool_iff in E. split; assumption.
  - split; [apply Qlt_le_weak, Hlower|].
    replace (e0 - 1 + 1)%Z with e0 by lia.
    apply Qnot_le_lt. intros H. apply Qle_bool_iff in H. congruence.
Qed.

Lemma binade_unique (q : Q) (E : Z) :
  pow2 E <= q -> q < pow2 (E + 1) -> binade q = E.
Proof.
  intros Hlo Hhi.
  assert (Hq : 0 < q) by (eapply Qlt_le_trans; [apply (pow2_pos E)|exact Hlo]).
  destruct (binade_spec q Hq) as [Blo Bhi].
  assert (E < binade q + 1)%Z
    by (apply pow2_lt_inv; eapply Qle_lt_trans; eassumption).
  assert (binade q < E + 1)%Z
    by (apply pow2_lt_inv; eapply Qle_lt_trans; eassumption).
  lia.
Qed.
End BinadeFacts.

Section NearestFacts.
Import Float64.
Local Open Scope Q_scope.

Lemma nearest_even_comp (m m' : Q) : m == m' -> nearest_even m = nearest_even m'.
Proof.
  intros H. unfold nearest_even.
  rewrite (Qfloor_comp _ _ H).
  assert (Qcompare (m - inject_Z (Qfloor m')) (1 # 2)
          = Qcompare (m' - inject_Z (Qfloor m')) (1 # 2)) as ->
    by now rewrite H.
  reflexivity.
Qed.

Lemma nearest_even_Z (z : Z) : nearest_even (inject_Z z) = z.
Proof.
  unfold nearest_even. rewrite Qfloor_Z.
  assert (Qcompare (inject_Z z - inject_Z z) (1 # 2) = Lt) as ->; [|reflexivity].
  apply Qlt_alt. setoid_replace (inject_Z z - inject_Z z) with 0 using relation Qeq by ring.
  reflexivity.
Qed.

Lemma nearest_even_bounds (m : Q) :
  inject_Z (Qfloor m) <= inject_Z (nearest_even m)
  /\ m - (1 # 2) <= inject_Z (nearest_even m)
  /\ inject_Z (nearest_even m) <= m + (1 # 2).
Proof.
  pose proof (Qfloor_le m) as Hlo. pose proof (Qlt_floor m) as Hhi.
  rewrite inject_Z_plus in Hhi. change (inject_Z 1) with 1 in Hhi.
  unfold nearest_even.
  destruct (Qcompare (m - inject_Z (Qfloor m)) (1 # 2)) eqn:E.
  - apply Qeq_alt in E.
    destruct (Z.even (Qfloor m)); rewrite ?inject_Z_plus;
      change (inject_Z 1) with 1; repeat split; lra.
  - apply Qlt_alt in E. repeat split; lra.
  - apply Qgt_alt in E. rewrite inject_Z_plus. change (inject_Z 1) with 1.
    repeat split; lra.
Qed.
End NearestFacts.

Section RoundFacts.
Import Js Float64.
Local Open Scope Q_scope.

Lemma ulp_exponent_comp (q q' : Q) :
  0 < q -> q == q' -> ulp_exponent q = ulp_exponent q'.
Proof.
  intros Hq H. unfold ulp_exponent. f_equal. f_equal.
  destruct (binade_spec q Hq) as [Hlo Hhi].
  symmetry. apply binade_unique; rewrite <- H; assumption.
Qed.

Lemma round_pos_comp (q q' : Q) :
  0 < q -> q == q' -> round_pos q = round_pos q'.
Proof.
  intros Hq H. unfold round_pos.
  rewrite <- (ulp_exponent_comp q q' Hq H).
  set (e := ulp_exponent q).
  rewrite <- (nearest_even_comp (q / pow2 e) (q' / pow2 e)) by now rewrite H.
  reflexivity.
Qed.

Lemma round_comp (q q' : Q) : q == q' -> round q = round q'.
Proof.
  intros H. unfold round.
  assert (Qcompare q 0 = Qcompare q' 0) as <- by now rewrite H.
  destruct (Qcompare q 0) eqn:E; [reflexivity| |].
  - apply Qlt_alt in E.
    rewrite <- (round_pos_comp (- q) (- q')); [reflexivity|lra|now rewrite H].
  - apply Qgt_alt in E.
    now rewrite <- (round_pos_comp q q').
Qed.

(** A positive rational [k * 2^j] with [k] below [2^53] and [j] in range is
    a binary64 number: rounding leaves it as it is. *)
Lemma round_pos_exact (q : Q) (k j : Z) :
  q == inject_Z k * pow2 j ->
  (0 < k < 2 ^ 53)%Z -> (-1074 <= j)%Z -> q < pow2 1024 ->
  round_pos q = Some (Qred q).
Proof.
  intros Hq [Hk0 Hk] Hj Hmax.
  assert (Hpos : 0 < q).
  { rewrite Hq. apply Qmult_lt_0_compat; [|apply pow2_pos].
    rewrite <- (Zlt_Qlt 0). exact Hk0. }
  destruct (binade_spec q Hpos) as [Blo Bhi].
  assert (Hlt : q < pow2 (53 + j)).
  { rewrite Hq, pow2_add. apply Qmult_lt_r; [apply pow2_pos|].
    rewrite pow2_Z by lia. now rewrite <- Zlt_Qlt. }
  assert (HE : (binade q < 53 + j)%Z)
    by (apply pow2_lt_inv; eapply Qle_lt_trans; eassumption).
  unfold round_pos. set (e := ulp_exponent q).
  assert (He : (e <= j)%Z) by (unfold e, ulp_exponent; lia).
  assert (Hm : q / pow2 e == inject_Z (k * 2 ^ (j - e))).
  { rewrite inject_Z_mult, <- pow2_Z by lia. rewrite pow2_sub, Hq.
    pose proof (pow2_pos e). field. lra. }
  rewrite (nearest_even_comp _ _ Hm), nearest_even_Z.
  assert (Hw : inject_Z (k * 2 ^ (j - e)) * pow2 e == q).
  { rewrite <- Hm. pose proof (pow2_pos e). field. lra. }
  destruct (Qle_bool (pow2 1024) (inject_Z (k * 2 ^ (j - e)) * pow2 e)) eqn:Hov.
  - apply Qle_bool_iff in Hov. rewrite Hw in Hov. lra.
  - f_equal. now apply Qred_complete.
Qed.

Lemma Qred_inject_Z (z : Z) : Qred (inject_Z z) = inject_Z z.
Proof.
  unfold Qred, inject_Z.
  pose proof (Z.ggcd_gcd z 1) as Hg.
  pose proof (Z.ggcd_correct_divisors z 1) as Hd.
  destruct (Z.ggcd z 1) as [g [a b]]. cbn [fst snd] in *.
  rewrite Z.gcd_1_r in Hg. subst g. destruct Hd as [Ha Hb].
  replace a with z by lia. replace b with 1%Z by lia. reflexivity.
Qed.

(** The integers up to [2^53] are binary64 numbers. *)
Lemma round_safe_integer (z : Z) :
  (0 <= z <= 2 ^ 53)%Z -> round (inject_Z z) = Num (inject_Z z).
Proof.
  intros [H0 H53]. unfold round.
  destruct (Qcompare (inject_Z z) 0) eqn:E.
  - apply Qeq_alt in E.
    change 0 with (inject_Z 0) in E. rewrite inject_Z_injective in E.
    subst z. reflexivity.
  - apply Qlt_alt in E. change 0 with (inject_Z 0) in E.
    rewrite <- Zlt_Qlt in E. lia.
  - apply Qgt_alt in E. change 0 with (inject_Z 0) in E. rewrite <- Zlt_Qlt in E.
    assert (Hmax : inject_Z z < pow2 1024).
    { rewrite pow2_Z by lia. rewrite <- Zlt_Qlt.
      eapply Z.le_lt_trans; [exact H53|]. now apply Z.pow_lt_mono_r. }
    destruct (Z.eq_dec z (2 ^ 53)%Z) as [->|Hne].
    + rewrite (round_pos_exact _ (2 ^ 52)%Z 1); [now rewrite Qred_inject_Z|..];
        try lia; try exact Hmax.
      reflexivity.
    + rewrite (round_pos_exact _ z 0); [now rewrite Qred_inject_Z|..];
        try lia; try exact Hmax.
      change (pow2 0) with 1. ring.
Qed.

(** Away from the subnormal numbers and from the overflow threshold,
    rounding moves a positive rational by at most [2^-53] of itself, and
    not below the power of two under it. *)
Lemma round_pos_error (q : Q) :
  pow2 (-1022) <= q -> q < pow2 1023 ->
  exists w : Q,
    round_pos q = Some w
    /\ - (q * pow2 (-53)) <= w - q /\ w - q <= q * pow2 (-53)
    /\ pow2 (binade q) <= w.
Proof.
  intros Hmin Hmax.
  assert (Hpos : 0 < q)
    by (eapply Qlt_le_trans; [apply (pow2_pos (-1022))|exact Hmin]).
  destruct (binade_spec q Hpos) as [Blo Bhi].
  assert (HE1 : (-1022 < binade q + 1)%Z)
    by (apply pow2_lt_inv; eapply Qle_lt_trans; eassumption).
  assert (HE2 : (binade q < 1023)%Z)
    by (apply pow2_lt_inv; eapply Qle_lt_trans; eassumption).
  unfold round_pos.
  assert (He : ulp_exponent q = (binade q - 52)%Z)
    by (unfold ulp_exponent; lia).
  rewrite He. set (E := binade q) in *. set (e := (E - 52)%Z).
  pose proof (pow2_pos e) as Hpe.
  set (m := q / pow2 e).
  assert (Hq : q == m * pow2 e) by (unfold m; field; lra).
  assert (HEe : pow2 E == pow2 52 * pow2 e).
  { rewrite <- pow2_add. unfold e. now replace (52 + (E - 52))%Z with E by lia. }
  assert (Hm52 : pow2 52 <= m).
  { unfold m. apply Qle_shift_div_l; [exact Hpe|]. now rewrite <- HEe. }
  destruct (nearest_even_bounds m) as (Hfl & Hn1 & Hn2).
  set (r := inject_Z (nearest_even m)) in *.
  assert (Hr52 : pow2 52 <= r).
  { eapply Qle_trans; [|exact Hfl].
    rewrite pow2_Z by lia. rewrite <- Zle_Qle.
    rewrite <- (Qfloor_Z (2 ^ 52)). apply Qfloor_resp_le.
    now rewrite <- pow2_Z by lia. }
  assert (Hhalf : pow2 e * (1 # 2) <= q * pow2 (-53)).
  { assert (pow2 e * (1 # 2) == pow2 E * pow2 (-53)) as ->.
    { rewrite HEe. change (pow2 (-53)) with (/ pow2 53).
      change (pow2 53) with (inject_Z (2 ^ 53)).
      change (pow2 52) with (inject_Z (2 ^ 52)).
      change (inject_Z (2 ^ 53)) with (2 * inject_Z (2 ^ 52)).
      field. discriminate. }
    apply Qmult_le_r; [reflexivity|exact Blo]. }
  assert (Hw1 : r * pow2 e - q <= pow2 e * (1 # 2)).
  { rewrite Hq. nra. }
  assert (Hw2 : - (pow2 e * (1 # 2)) <= r * pow2 e - q).
  { rewrite Hq. nra. }
  assert (Hno : r * pow2 e < pow2 1024).
  { assert (q * pow2 (-53) <= q).
    { change (pow2 (-53)) with (1 # 9007199254740992). lra. }
    assert (pow2 1023 + pow2 1023 == pow2 1024) by reflexivity.
    lra. }
  exists (Qred (r * pow2 e)).
  destruct (Qle_bool (pow2 1024) (r * pow2 e)) eqn:Hov.
  { apply Qle_bool_iff in Hov. lra. }
  pose proof (Qred_correct (r * pow2 e)) as Hred.
  assert (pow2 E <= r * pow2 e) by (rewrite HEe; nra).
  repeat split; lra.
Qed.
End RoundFacts.

Section HoursFacts.
Import Js Float64.
Local Open Scope Q_scope.

Lemma of_N_nonneg (n : N) : 0 <= of_N n.
Proof. unfold of_N. change 0 with (inject_Z 0). rewrite <- Zle_Qle. lia. Qed.

Lemma round_of_N (n : N) : (n <= 2 ^ 53)%N -> round (of_N n) = Num (of_N n).
Proof.
  intros H. apply round_safe_integer. split; [lia|].
  change (2 ^ 53)%Z with (Z.of_N (2 ^ 53)). lia.
Qed.

Lemma round_pos_gt (q : Q) :
  0 < q -> round q = match round_pos q with Some w => Num w | None => Infinity end.
Proof.
  intros H. unfold round. apply Qgt_alt in H. now rewrite H.
Qed.

(** [s + m / 60] for safe integers [s] and [m]: two roundings, and a result
    within [2^-51] of the exact value. *)
Lemma hours_of_safe_integers (s m : N) :
  (s <= 2 ^ 53)%N -> (m <= 2 ^ 53)%N ->
  exists q : Q,
    add (Num (of_N s)) (div (Num (of_N m)) (Num 60)) = Num q
    /\ Qabs (q - (of_N s + of_N m / 60)) <= (of_N s + of_N m / 60) * pow2 (-51).
Proof.
  intros Hs Hm.
  assert (Hs53 : of_N s <= 9007199254740992).
  { unfold of_N. change 9007199254740992 with (inject_Z (Z.of_N (2 ^ 53))).
    rewrite <- Zle_Qle. lia. }
  assert (Hm53 : of_N m <= 9007199254740992).
  { unfold of_N. change 9007199254740992 with (inject_Z (Z.of_N (2 ^ 53))).
    rewrite <- Zle_Qle. lia. }
  pose proof (of_N_nonneg s) as Hs0.
  assert (Hmin : pow2 (-1022) <= 1 # 128)
    by (change (1 # 128) with (pow2 (-7)); apply pow2_le; lia).
  assert (Hmax : 18014398509481984 <= pow2 1023)
    by (change 18014398509481984 with (pow2 54); apply pow2_le; lia).
  change (pow2 (-51)) with (1 # 2251799813685248).
  unfold div. change (is_zero 60) with false. cbn [add].
  destruct (N.eq_dec m 0%N) as [->|Hm0].
  - (* no minutes: the sum is the integer *)
    change (of_N 0 / 60) with (0 # 60).
    assert (round (0 # 60) = Num 0) as -> by reflexivity.
    cbn [add]. rewrite (round_comp (of_N s + 0) (of_N s)) by ring.
    rewrite round_of_N by exact Hs. exists (of_N s). split; [reflexivity|].
    apply Qabs_Qle_condition. split; lra.
  - assert (Hm1 : 1 <= of_N m).
    { unfold of_N. change 1 with (inject_Z 1). rewrite <- Zle_Qle. lia. }
    set (a := of_N m / 60) in *.
    assert (Ha : a == of_N m * (1 # 60)) by (unfold a; field).
    assert (Ha1 : 1 # 60 <= a) by lra.
    destruct (round_pos_error a) as (w1 & Hr1 & Hlo1 & Hhi1 & _); [lra|lra|].
    change (pow2 (-53)) with (1 # 9007199254740992) in Hlo1, Hhi1.
    rewrite round_pos_gt, Hr1 by lra. cbn [add].
    set (t := of_N s + w1).
    destruct (round_pos_error t) as (w2 & Hr2 & Hlo2 & Hhi2 & _);
      [unfold t; lra|unfold t; lra|].
    change (pow2 (-53)) with (1 # 9007199254740992) in Hlo2, Hhi2.
    rewrite round_pos_gt, Hr2 by (unfold t; lra).
    exists w2. split; [reflexivity|].
    apply Qabs_Qle_condition. unfold t in *. split; lra.
Qed.

(** When the minutes are a multiple of a quarter of an hour nothing is
    rounded. *)
Lemma hours_of_quarters (s m : N) :
  (s <= 2 ^ 50)%N -> (m <= 2 ^ 53)%N -> (m mod 15 = 0)%N ->
  add (Num (of_N s)) (div (Num (of_N m)) (Num 60))
  = Num (Qred (of_N s + of_N m / 60)).
Proof.
  intros Hs Hm Hdiv.
  apply N.Div0.mod_divides in Hdiv as [t ->].
  unfold div. change (is_zero 60) with false. cbn [add].
  assert (Hq : of_N (15 * t) / 60 == inject_Z (Z.of_N t) * pow2 (-2)).
  { unfold of_N. rewrite N2Z.inj_mul, inject_Z_mult.
    change (pow2 (-2)) with (1 # 4). change (inject_Z (Z.of_N 15)) with 15.
    field. }
  assert (Hsum : of_N s + of_N (15 * t) / 60
                 == inject_Z (4 * Z.of_N s + Z.of_N t) * pow2 (-2)).
  { rewrite Hq. unfold of_N. rewrite inject_Z_plus, inject_Z_mult.
    change (pow2 (-2)) with (1 # 4). change (inject_Z 4) with 4. field. }
  assert (H50 : (Z.of_N s <= 2 ^ 50)%Z)
    by (change (2 ^ 50)%Z with (Z.of_N (2 ^ 50)); lia).
  assert (Ht : (Z.of_N t < 2 ^ 50)%Z).
  { change (2 ^ 50)%Z with (Z.of_N (2 ^ 50)).
    assert (15 * t <= 2 ^ 53)%N by exact Hm.
    change (2 ^ 53)%N with 9007199254740992%N in *.
    change (2 ^ 50)%N with 1125899906842624%N. lia. }
  assert (Hbig : forall z : Z, (0 < z < 2 ^ 53)%Z ->
                   inject_Z z * pow2 (-2) < pow2 1024).
  { intros z [Hz0 Hz]. change (pow2 (-2)) with (1 # 4).
    assert (inject_Z z < pow2 53)
      by (rewrite pow2_Z by lia; now rewrite <- Zlt_Qlt).
    assert (0 < inject_Z z) by (rewrite <- (Zlt_Qlt 0); exact Hz0).
    assert (pow2 53 <= pow2 1024) by (apply pow2_le; lia).
    lra. }
  destruct (N.eq_dec t 0%N) as [->|Ht0].
  - change (of_N (15 * 0) / 60) with (0 # 60).
    assert (round (0 # 60) = Num 0) as -> by reflexivity.
    cbn [add]. rewrite (round_comp (of_N s + 0) (of_N s)) by ring.
    rewrite round_of_N.
    + f_equal. unfold of_N at 1.
      rewrite <- (Qred_inject_Z (Z.of_N s)). apply Qred_complete.
      unfold of_N. ring.
    + change (2 ^ 53)%N with 9007199254740992%N.
      change (2 ^ 50)%N with 1125899906842624%N in Hs. lia.
  - assert (Hpos : 0 < of_N (15 * t) / 60).
    { rewrite Hq. apply Qmult_lt_0_compat; [|reflexivity].
      rewrite <- (Zlt_Qlt 0). lia. }
    rewrite round_pos_gt by exact Hpos.
    rewrite (round_pos_exact _ (Z.of_N t) (-2) Hq);
      [|lia|lia|rewrite Hq; apply Hbig; lia].
    cbn [add].
    pose proof (Qred_correct (of_N (15 * t) / 60)) as Hred.
    pose proof (of_N_nonneg s) as Hs0.
    assert (Hsum' : of_N s + Qred (of_N (15 * t) / 60)
                    == inject_Z (4 * Z.of_N s + Z.of_N t) * pow2 (-2))
      by (rewrite Hred; exact Hsum).
    rewrite round_pos_gt by lra.
    rewrite (round_pos_exact _ (4 * Z.of_N s + Z.of_N t) (-2) Hsum');
      [|lia|lia|rewrite Hsum'; apply Hbig; lia].
    f_equal. apply Qred_complete. now rewrite Hred.
Qed.
End HoursFacts.

(** The rounding, the three operations and [parseInt] against [SpecFloat]
    on some operands: exact and inexact quotients, ties, an integer above
    [2^53], an overflow. *)
Example round_as_SpecFloat :
  let zs := [0; 1; 60; 999; 2 ^ 53; 2 ^ 53 + 1; 2 ^ 53 + 3; 10 ^ 21; 10 ^ 23;
             2 ^ 1024 - 2 ^ 970 - 1; 2 ^ 1024 - 2 ^ 970; 10 ^ 400; -7]%Z in
  map (fun z => Float64.round (inject_Z z)) zs
  = map (fun z => Float64.of_spec_float (Float64.spec_of_Z z)) zs.
Proof. vm_compute. reflexivity. Qed.

Example div_as_SpecFloat :
  let ps := [(1, 60); (59, 60); (30, 60); (7, 3); (2 ^ 53 + 1, 60);
             (10 ^ 30, 60); (1, 10 ^ 400); (10 ^ 300, 1); (0, 60)]%Z in
  map (fun '(a, b) =>
         Float64.div (Float64.round (inject_Z a)) (Float64.round (inject_Z b))) ps
  = map (fun '(a, b) =>
           Float64.of_spec_float
             (SFdiv 53 1024 (Float64.spec_of_Z a) (Float64.spec_of_Z b))) ps.
Proof. vm_compute. reflexivity. Qed.

Example mul_add_as_SpecFloat :
  let ts := [(1, 2, 30); (0, 0, 1); (41, 15, 0); (3, 4, 59);
             (2 ^ 53, 1, 1); (10 ^ 20, 10 ^ 19, 7); (10 ^ 308, 0, 0)]%Z in
  map (fun '(d, h, m) =>
         Float64.add
           (Float64.add (Float64.mul (Float64.round (inject_Z d)) (Js.Num 24))
                        (Float64.round (inject_Z h)))
           (Float64.div (Float64.round (inject_Z m)) (Js.Num 60))) ts
  = map (fun '(d, h, m) =>
           Float64.of_spec_float
             (SFadd 53 1024
                (SFadd 53 1024
                   (SFmul 53 1024 (Float64.spec_of_Z d) (Float64.spec_of_Z 24))
                   (Float64.spec_of_Z h))
                (SFdiv 53 1024 (Float64.spec_of_Z m) (Float64.spec_of_Z 60)))) ts.
Proof. vm_compute. reflexivity. Qed.

(** [Number::toString] on numbers whose text is known. *)
Example toString_examples :
  map Float64.toString
    [Float64.round (1 # 10); Float64.round (1 # 3); Float64.round (1 / 60);
     Float64.add (Float64.round (1 # 10)) (Float64.round (2 # 10));
     Float64.round (inject_Z (2 ^ 53)); Float64.round (inject_Z (2 ^ 60));
     Float64.round (inject_Z (10 ^ 20)); Float64.round (inject_Z (10 ^ 21));
     Float64.round (inject_Z (10 ^ 23)); Float64.round (1 # 1000000);
     Float64.round (1 # 10000000); Float64.round (Float64.pow2 (-1074));
     Float64.round (Float64.pow2 1024 - Float64.pow2 971);
     Float64.round (inject_Z (10 ^ 400)); Js.NaN; Js.Num 0]
  = ["0.1"; "0.3333333333333333"; "0.016666666666666666";
     "0.30000000000000004"; "9007199254740992"; "1152921504606847000";
     "100000000000000000000"; "1e+21"; "1e+23"; "0.000001"; "1e-7";
     "5e-324"; "1.7976931348623157e+308"; "Infinity"; "NaN"; "0"].
Proof. vm_compute. reflexivity. Qed.

(* ===================================================================== *)
(** * The duration parser *)
(* ===================================================================== *)

Section ParserFacts.
Import Js Float64.
Local Open Scope Q_scope.

(** [d * 24 + h] is computed without rounding as long as it is a safe
    integer. *)
Lemma days_and_hours_safe (d h : N) :
  (d * 24 + h <= 2 ^ 53)%N ->
  add (mul (round (of_N d)) (Num 24)) (round (of_N h))
  = Num (of_N (d * 24 + h)).
Proof.
  intros H.
  rewrite !round_of_N by lia. cbn [mul add].
  rewrite (round_comp (of_N d * 24) (of_N (d * 24))).
  2:{ unfold of_N. rewrite N2Z.inj_mul, inject_Z_mult. reflexivity. }
  rewrite round_of_N by lia. cbn [add].
  rewrite (round_comp (of_N (d * 24) + of_N h) (of_N (d * 24 + h))).
  2:{ unfold of_N. rewrite N2Z.inj_add, inject_Z_plus. reflexivity. }
  now rewrite round_of_N.
Qed.

Lemma exact_hours_eq (d h m : N) :
  DurationParser.exact_hours d h m == of_N (d * 24 + h) + of_N m / 60.
Proof.
  unfold DurationParser.exact_hours, of_N.
  rewrite N2Z.inj_add, N2Z.inj_mul, inject_Z_plus, inject_Z_mult. reflexivity.
Qed.

(** The hours of a text in which the three patterns match. *)
Lemma parsed_hours (str d h m : string) :
  no_digit str = false ->
  match_digits "天" str = Some d ->
  match_digits "小时" str = Some h ->
  match_digits "分钟" str = Some m ->
  DurationParser.hours (DurationParser.parseChineseDuration (Some str))
  = add (add (mul (parseInt d) (Num 24)) (parseInt h)) (div (parseInt m) (Num 60)).
Proof.
  intros Hdigit Hd Hh Hm. unfold DurationParser.parseChineseDuration.
  assert (truthy str = true) as -> by (destruct str; [discriminate|reflexivity]).
  rewrite !(eqb_false_of_no_digit _ _ Hdigit) by reflexivity.
  cbn [negb orb]. now rewrite Hd, Hh, Hm.
Qed.

(** The computed hours for safe integers: within [2^-51] of the exact
    value, and equal to it when the minutes are whole quarters. *)
Lemma computed_hours (d h m : N) :
  (d * 24 + h <= 2 ^ 53)%N -> (m <= 2 ^ 53)%N ->
  exists q : Q,
    add (add (mul (round (of_N d)) (Num 24)) (round (of_N h)))
        (div (round (of_N m)) (Num 60)) = Num q
    /\ Qabs (q - DurationParser.exact_hours d h m)
       <= DurationParser.exact_hours d h m * pow2 (-51)
    /\ ((d * 24 + h <= 2 ^ 50)%N -> (m mod 15 = 0)%N ->
        q == DurationParser.exact_hours d h m).
Proof.
  intros Hs Hm.
  rewrite days_and_hours_safe by exact Hs.
  rewrite (round_of_N m) by exact Hm.
  destruct (hours_of_safe_integers (d * 24 + h) m Hs Hm) as (q & Hq & Hbound).
  exists q. split; [exact Hq|]. split.
  - now rewrite exact_hours_eq.
  - intros Hs' Hdiv.
    rewrite (hours_of_quarters _ _ Hs' Hm Hdiv) in Hq. injection Hq as <-.
    now rewrite Qred_correct, exact_hours_eq.
Qed.
End ParserFacts.

(** C2. [parseChineseDuration] is a function of its argument alone.  On a
    text in which the patterns "<d>天", "<h>小时" and "<m>分钟" occur (d, h and
    m being the numbers of their leftmost occurrences, as the regular
    expressions find them) the hours are d*24 + h + m/60, computed by the
    engine: each number read by [parseInt] and each of the three operations
    rounds to binary64.  As long as d*24 + h and m are safe integers the
    result is within 2^-51 of the exact sum, and it is the exact sum when
    in addition m is a multiple of 15 and d*24 + h is at most 2^50.
    [undefined], "未知" and "N/A" give 999 hours and the text "N/A"; "即将重置"
    gives 0 hours and the text "Soon". *)
Theorem C2_parseChineseDuration :
  forall str d h m : string,
    Shapes.first_match "天" str d ->
    Shapes.first_match "小时" str h ->
    Shapes.first_match "分钟" str m ->
    let days := Float64.mathematical_value d in
    let hrs := Float64.mathematical_value h in
    let mins := Float64.mathematical_value m in
    let exact := DurationParser.exact_hours days hrs mins in
    let computed :=
      DurationParser.hours (DurationParser.parseChineseDuration (Some str)) in
    computed
    = Float64.add (Float64.add (Float64.mul (Float64.parseInt d) (Js.Num 24)) (Float64.parseInt h))
               (Float64.div (Float64.parseInt m) (Js.Num 60))
    /\ ((days * 24 + hrs <= 2 ^ 53)%N -> (mins <= 2 ^ 53)%N ->
        exists q : Q,
          computed = Js.Num q
          /\ (Qabs (q - exact) <= exact * Float64.pow2 (-51))%Q
          /\ ((days * 24 + hrs <= 2 ^ 50)%N -> (mins mod 15 = 0)%N ->
              (q == exact)%Q))
    /\ DurationParser.parseChineseDuration None
       = {| DurationParser.text := "N/A"; DurationParser.hours := Js.Num 999 |}
    /\ DurationParser.parseChineseDuration (Some "未知")
       = {| DurationParser.text := "N/A"; DurationParser.hours := Js.Num 999 |}
    /\ DurationParser.parseChineseDuration (Some "N/A")
       = {| DurationParser.text := "N/A"; DurationParser.hours := Js.Num 999 |}
    /\ DurationParser.parseChineseDuration (Some "即将重置")
       = {| DurationParser.text := "Soon"; DurationParser.hours := Js.Num 0 |}.
Proof.
  intros str d h m Hd Hh Hm. cbv zeta.
  assert (Js.no_digit str = false) as Hdigit.
  { destruct Hd as (i & Hi & _). exact (matches_at_has_digit _ _ _ _ Hi). }
  apply match_digits_leftmost in Hd, Hh, Hm; try reflexivity.
  rewrite (parsed_hours str d h m Hdigit Hd Hh Hm).
  split; [reflexivity|]. split; [|repeat split; reflexivity].
  intros Hs Hmins. unfold Float64.parseInt.
  exact (computed_hours _ _ _ Hs Hmins).
Qed.

Lemma C2_parseChineseDuration_witness :
  exists q : Q,
    DurationParser.hours
      (DurationParser.parseChineseDuration (Some "0天0小时1分钟")) = Js.Num q
    /\ (Qabs (q - DurationParser.exact_hours 0 0 1)
        <= DurationParser.exact_hours 0 0 1 * Float64.pow2 (-51))%Q.
Proof.
  destruct (proj1 (proj2 (C2_parseChineseDuration "0天0小时1分钟" "0" "0" "1"
                     ltac:(apply match_digits_leftmost; reflexivity)
                     ltac:(apply match_digits_leftmost; reflexivity)
                     ltac:(apply match_digits_leftmost; reflexivity)))
              ltac:(vm_compute; discriminate) ltac:(vm_compute; discriminate))
    as (q & Hq & Hbound & _).
  exists q. split; [exact Hq|exact Hbound].
Defined.

(** One minute is a sixtieth of an hour rounded to binary64, which prints as
    0.016666666666666666; very long runs of digits are read as the nearest
    binary64 number, or as Infinity. *)
Example parse_one_minute :
  DurationParser.parseChineseDuration (Some "1分钟")
  = {| DurationParser.text := "1m";
       DurationParser.hours := Js.Num (4803839602528529 # 288230376151711744) |}.
Proof. vm_compute. reflexivity. Qed.

Example parse_unsafe_integer :
  DurationParser.parseChineseDuration (Some "9007199254740993小时")
  = {| DurationParser.text := "9007199254740992h 0m";
       DurationParser.hours := Js.Num 9007199254740992 |}.
Proof. vm_compute. reflexivity. Qed.

Example parse_exponent_form :
  DurationParser.text
    (DurationParser.parseChineseDuration (Some "1000000000000000000000天"))
  = "1e+21d 0h".
Proof. vm_compute. reflexivity. Qed.

(** The parser and the colour on some reset descriptions.  A text without
    any token parses as 0 hours; 41 days and 15 hours are 999 hours, the
    value of the sentinel. *)
Example parse_days_hours :
  AccountListView.parseChineseDuration (Some "1天2小时3分钟")
  = {| AccountListView.text := "1d 2h"; AccountListView.hours := 1563 # 60 |}.
Proof. reflexivity. Qed.

Example parse_hours_minutes :
  AccountListView.parseChineseDuration (Some "2小时30分钟")
  = {| AccountListView.text := "2h 30m"; AccountListView.hours := 150 # 60 |}.
Proof. reflexivity. Qed.

Example parse_leftmost_token :
  AccountListView.parseChineseDuration (Some "约5分钟，最多90分钟")
  = {| AccountListView.text := "5m"; AccountListView.hours := 5 # 60 |}.
Proof. reflexivity. Qed.

Example parse_no_token :
  AccountListView.parseChineseDuration (Some "abc")
  = {| AccountListView.text := "0m"; AccountListView.hours := 0 # 60 |}.
Proof. reflexivity. Qed.

Example colours_of_reset_times :
  map AccountListView.getTimeColorClass
    [Some "59分钟"; Some "60分钟"; Some "5小时59分钟"; Some "6小时";
     Some "41天15小时"; Some "abc"; Some "即将重置"; None]
  = ["success"; "warning"; "warning"; "neutral";
     "neutral"; "success"; "success"; "neutral"].
Proof. reflexivity. Qed.

(** C5. The colour of a reset time: "success" exactly when the parsed hours
    are below 1, "warning" exactly when they are at least 1 and below 6,
    "neutral" exactly when they are 6 or more, which is the case of the
    unknown inputs [undefined], "", "未知" and "N/A". *)
Theorem C5_getTimeColorClass :
  forall str : option string,
    let h := AccountListView.hours (AccountListView.parseChineseDuration str) in
    (AccountListView.getTimeColorClass str = "success" <-> (h < 1)%Q)
    /\ (AccountListView.getTimeColorClass str = "warning"
        <-> (1 <= h)%Q /\ (h < 6)%Q)
    /\ (AccountListView.getTimeColorClass str = "neutral" <-> (6 <= h)%Q)
    /\ AccountListView.getTimeColorClass None = "neutral"
    /\ AccountListView.getTimeColorClass (Some "") = "neutral"
    /\ AccountListView.getTimeColorClass (Some "未知") = "neutral"
    /\ AccountListView.getTimeColorClass (Some "N/A") = "neutral".
Proof.
  intros str. cbv zeta.
  pose proof (time_color_cases str) as HC. cbv zeta in HC.
  split; [|split; [|split; [|repeat split; reflexivity]]].
  all: revert HC;
    generalize (AccountListView.hours (AccountListView.parseChineseDuration str));
    generalize (AccountListView.getTimeColorClass str);
    intros c h [[-> H]|[[-> [H1 H6]]|[-> H]]].
  all: split; intros; try reflexivity; try discriminate; try assumption;
    try (split; assumption); try lra.
  all: exfalso; lra.
Qed.


Lemma quota_color_cases (q : Q) :
  (AccountListView.getQuotaColor (Js.Num q) = "green" /\ (50 < q)%Q) \/
  (AccountListView.getQuotaColor (Js.Num q) = "orange" /\ (20 < q)%Q /\ (q <= 50)%Q) \/
  (AccountListView.getQuotaColor (Js.Num q) = "red" /\ (q <= 20)%Q).
Proof.
  unfold AccountListView.getQuotaColor, Js.gt.
  destruct (Qle_bool q 50) eqn:E50; cbn [negb].
  - apply Qle_bool_iff in E50.
    destruct (Qle_bool q 20) eqn:E20; cbn [negb].
    + apply Qle_bool_iff in E20. right; right. auto.
    + right; left. repeat split; [|assumption].
      apply Qnot_le_lt. intros H. apply Qle_bool_iff in H. congruence.
  - left. split; [reflexivity|].
    apply Qnot_le_lt. intros H. apply Qle_bool_iff in H. congruence.
Qed.

(** C4. The quota colour is "green" exactly above 50, "orange" exactly above
    20 and up to 50, "red" exactly up to 20 (and for NaN); [getQuotaColor]
    of the account list and [getColorClass] of the usage card are the same
    function. *)
Theorem C4_quota_color :
  forall percent : Js.number,
    UsageCard.getColorClass percent = AccountListView.getQuotaColor percent
    /\ match percent with
       | Js.Num q =>
           (AccountListView.getQuotaColor percent = "green" <-> (50 < q)%Q)
           /\ (AccountListView.getQuotaColor percent = "orange"
               <-> (20 < q)%Q /\ (q <= 50)%Q)
           /\ (AccountListView.getQuotaColor percent = "red" <-> (q <= 20)%Q)
       | Js.Infinity => AccountListView.getQuotaColor percent = "green"
       | Js.NaN | Js.NegInfinity => AccountListView.getQuotaColor percent = "red"
       end.
Proof.
  intros percent. split; [reflexivity|].
  destruct percent as [q| | |]; try reflexivity.
  destruct (quota_color_cases q) as [[-> H]|[[-> [H1 H2]]|[-> H]]].
  all: repeat split; intros; try reflexivity; try discriminate; try assumption;
    try lra.
  all: exfalso; lra.
Qed.

(* ===================================================================== *)
(** * Plan filters *)
(* ===================================================================== *)

Section FilterFacts.

Import Js JsFacts AccountListView Shapes.

Lemma is_upper_spec c :
  is_upper c = true <-> 65 <= nat_of_ascii c <= 90.
Proof.
  unfold is_upper. rewrite andb_true_iff, !Nat.leb_le. reflexivity.
Qed.

Lemma is_lower_spec c :
  is_lower c = true <-> 97 <= nat_of_ascii c <= 122.
Proof.
  unfold is_lower. rewrite andb_true_iff, !Nat.leb_le. reflexivity.
Qed.

Lemma lower_char_of_upper c c' :
  is_upper c = true -> nat_of_ascii c + 32 = nat_of_ascii c' ->
  lower_char c = lower_char c'.
Proof.
  intros Hu Heq. unfold lower_char. rewrite Hu, Heq, ascii_nat_embedding.
  destruct (is_upper c') eqn:Hu'; [|reflexivity].
  apply is_upper_spec in Hu, Hu'. lia.
Qed.

Lemma same_letter_lower c c' :
  same_letter c c' = true -> lower_char c = lower_char c'.
Proof.
  unfold same_letter. intros [Heq|H]%orb_true_iff.
  { apply Ascii.eqb_eq in Heq. now subst. }
  apply andb_true_iff in H as [[Hl Hl']%andb_true_iff Hd].
  unfold is_letter in Hl, Hl'.
  apply orb_true_iff in Hl, Hl', Hd.
  rewrite !Nat.eqb_eq in Hd.
  rewrite !is_upper_spec, !is_lower_spec in Hl, Hl'.
  destruct Hd as [Hd|Hd].
  - apply lower_char_of_upper; [apply is_upper_spec; lia | exact Hd].
  - symmetry. apply lower_char_of_upper; [apply is_upper_spec; lia | exact Hd].
Qed.

(** Lowercasing forgets the case of the letters. *)
Lemma recased_toLowerCase s s' :
  recased s s' = true -> toLowerCase s = toLowerCase s'.
Proof.
  revert s'. induction s as [|c s IH]; intros [|c' s'] H; try discriminate.
  - reflexivity.
  - simpl in H. apply andb_true_iff in H as [Hc Hs].
    simpl. now rewrite (same_letter_lower _ _ Hc), (IH _ Hs).
Qed.

Lemma same_letter_upper c : same_letter c (upper_char c) = true.
Proof. destruct c as [[] [] [] [] [] [] [] []]; reflexivity. Qed.

(** Uppercasing, as the plan badge does, changes the case only. *)
Lemma recased_toUpperCase s : recased s (toUpperCase s) = true.
Proof.
  induction s as [|c s IH]; [reflexivity|].
  simpl. now rewrite same_letter_upper, IH.
Qed.

Lemma plan_includes_spec um word a :
  plan_includes um word a = true <->
  exists p, plan_of um a = Some p /\ includes word (toLowerCase p) = true.
Proof.
  unfold plan_includes, plan_of.
  destruct (um !! Account.id a) as [u|]; [destruct (UsageData.plan_type u)|].
  - split; [eauto | now intros [p [[= ->] H]]].
  - split; [discriminate | now intros [p [[=] _]]].
  - split; [discriminate | now intros [p [[=] _]]].
Qed.

Lemma truthy_spec s : truthy s = true <-> s <> "".
Proof. destruct s; simpl; split; congruence. Qed.

Lemma plan_is_free_spec um a :
  plan_is_free um a = true <->
  exists p, plan_of um a = Some p /\ toLowerCase p <> ""
            /\ includes "plus" (toLowerCase p) = false
            /\ includes "team" (toLowerCase p) = false.
Proof.
  unfold plan_is_free, tier_of, plan_of.
  destruct (um !! Account.id a) as [u|]; [destruct (UsageData.plan_type u) as [p|]|].
  - rewrite !andb_true_iff, !negb_true_iff, truthy_spec. split.
    + intros [[H1 H2] H3]. eauto.
    + intros [p' [[= <-] [H1 [H2 H3]]]]. auto.
  - split; [discriminate | now intros [p [[=] _]]].
  - split; [discriminate | now intros [p [[=] _]]].
Qed.

Lemma plan_includes_recased um um' word a :
  same_plan_up_to_case um um' a = true ->
  plan_includes um word a = plan_includes um' word a.
Proof.
  unfold same_plan_up_to_case, plan_includes, plan_of.
  destruct (um !! Account.id a) as [u|], (um' !! Account.id a) as [u'|];
    try destruct (UsageData.plan_type u); try destruct (UsageData.plan_type u');
    try discriminate; try reflexivity.
  intros H. now rewrite (recased_toLowerCase _ _ H).
Qed.

Lemma plan_is_free_recased um um' a :
  same_plan_up_to_case um um' a = true ->
  plan_is_free um a = plan_is_free um' a.
Proof.
  unfold same_plan_up_to_case, plan_is_free, tier_of, plan_of.
  destruct (um !! Account.id a) as [u|], (um' !! Account.id a) as [u'|];
    try destruct (UsageData.plan_type u); try destruct (UsageData.plan_type u');
    try discriminate; try reflexivity.
  intros H. now rewrite (recased_toLowerCase _ _ H).
Qed.

End FilterFacts.

(** C3. An account is kept by the 'plus' (the 'team') filter exactly when it
    is in the searched list and the lowercased plan type of its usage entry
    contains "plus" ("team"); by the 'free' filter exactly when that
    lowercased plan type is non-empty and contains neither word.  The counts
    shown on the buttons are the lengths of these lists, and nothing changes
    when the stored plan type is replaced by one that differs in letter case
    only. *)
Theorem C3_plan_filter_case_insensitive :
  forall (usageMap : gmap string UsageData.t)
         (searched : list Account.t) (a : Account.t),
    (In a (AccountListView.filteredAccounts usageMap searched AccountListView.plus)
     <-> In a searched
         /\ exists p, Shapes.plan_of usageMap a = Some p
                      /\ Js.includes "plus" (Js.toLowerCase p) = true)
    /\ (In a (AccountListView.filteredAccounts usageMap searched AccountListView.team)
        <-> In a searched
            /\ exists p, Shapes.plan_of usageMap a = Some p
                         /\ Js.includes "team" (Js.toLowerCase p) = true)
    /\ (In a (AccountListView.filteredAccounts usageMap searched AccountListView.free)
        <-> In a searched
            /\ exists p, Shapes.plan_of usageMap a = Some p
                         /\ Js.toLowerCase p <> ""
                         /\ Js.includes "plus" (Js.toLowerCase p) = false
                         /\ Js.includes "team" (Js.toLowerCase p) = false)
    /\ AccountListView.filteredAccounts usageMap searched AccountListView.all
       = searched
    /\ (let counts := AccountListView.filterCounts usageMap searched in
        AccountListView.count_all counts
        = List.length (AccountListView.filteredAccounts usageMap searched AccountListView.all)
        /\ AccountListView.count_plus counts
           = List.length (AccountListView.filteredAccounts usageMap searched AccountListView.plus)
        /\ AccountListView.count_team counts
           = List.length (AccountListView.filteredAccounts usageMap searched AccountListView.team)
        /\ AccountListView.count_free counts
           = List.length (AccountListView.filteredAccounts usageMap searched AccountListView.free))
    /\ (forall (usageMap' : gmap string UsageData.t) (f : AccountListView.FilterType),
          Shapes.same_plan_up_to_case usageMap usageMap' a = true ->
          In a (AccountListView.filteredAccounts usageMap searched f)
          <-> In a (AccountListView.filteredAccounts usageMap' searched f)).
Proof.
  intros um searched a.
  cbv zeta. repeat match goal with |- _ /\ _ => split end; try reflexivity.
  - cbn [AccountListView.filteredAccounts].
    now rewrite filter_In, plan_includes_spec.
  - cbn [AccountListView.filteredAccounts].
    now rewrite filter_In, plan_includes_spec.
  - cbn [AccountListView.filteredAccounts].
    now rewrite filter_In, plan_is_free_spec.
  - intros um' f Hcase.
    destruct f; cbn [AccountListView.filteredAccounts];
      rewrite ?filter_In, ?(plan_includes_recased um um' _ a Hcase),
        ?(plan_is_free_recased um um' a Hcase); reflexivity.
Qed.

Lemma C3_plan_filter_case_insensitive_witness :
  In Samples.alice
     (AccountListView.filteredAccounts Samples.usage_upper
        [Samples.alice; Samples.bob] AccountListView.plus)
  <-> In Samples.alice
        (AccountListView.filteredAccounts Samples.usage_lower
           [Samples.alice; Samples.bob] AccountListView.plus).
Proof.
  pose proof (C3_plan_filter_case_insensitive Samples.usage_upper
                [Samples.alice; Samples.bob] Samples.alice) as H.
  exact (proj2 (proj2 (proj2 (proj2 (proj2 H)))) Samples.usage_lower
           AccountListView.plus ltac:(vm_compute; reflexivity)).
Defined.

(* ===================================================================== *)
(** * The usage hook *)
(* ===================================================================== *)

Ltac run_monad :=
  cbv beta iota zeta delta
    [Eff.bind Eff.try_catch Eff.finally Eff.invoke Eff.invoke_start Eff.await
     Eff.modify Eff.ret Eff.throw Eff.emit Eff.zoom Eff.void Eff.setTimeout
     Eff.console_error] in *.

Section UsageFacts.
Import Remote Eff.

Lemma fetchUsage_run (be : Backend) (tr : list Effect) (s : useUsage.State) :
  let tr1 := (tr ++ [Invoked get_current_account_id])%list in
  useUsage.fetchUsage be tr s =
  match outcome (be tr get_current_account_id) with
  | inl e =>
      (Return tt, tr1,
       {| useUsage.usage := useUsage.usage s; useUsage.loading := false;
          useUsage.error := Some (String_ e) |})
  | inr (Some id) =>
      if truthy id then
        match outcome (be tr1 (get_quota_by_id id)) with
        | inl e =>
            (Return tt, (tr1 ++ [Invoked (get_quota_by_id id)])%list,
             {| useUsage.usage := useUsage.usage s; useUsage.loading := false;
                useUsage.error := Some (String_ e) |})
        | inr data =>
            (Return tt, (tr1 ++ [Invoked (get_quota_by_id id)])%list,
             {| useUsage.usage := Some (QuotaReply.as_UsageDisplay data);
                useUsage.loading := false; useUsage.error := None |})
        end
      else
        (Return tt, tr1,
         {| useUsage.usage := useUsage.usage s; useUsage.loading := false;
            useUsage.error := Some "未设置当前账号" |})
  | inr None =>
      (Return tt, tr1,
       {| useUsage.usage := useUsage.usage s; useUsage.loading := false;
          useUsage.error := Some "未设置当前账号" |})
  end.
Proof.
  intros tr1. unfold useUsage.fetchUsage, useUsage.setLoading,
    useUsage.setError, useUsage.setUsage.
  run_monad. subst tr1.
  generalize (be tr get_current_account_id). intros [[e|[id|]] l1];
    cbn; try reflexivity.
  destruct (truthy id); cbn; [|reflexivity].
  generalize (be (tr ++ [Invoked get_current_account_id])%list (get_quota_by_id id)).
  intros [[e|data] l2]; reflexivity.
Qed.
End UsageFacts.

(** C9. [fetchUsage] replaces the stored usage only when both remote calls
    succeed.  When [get_current_account_id] gives [null] (or an empty id) or
    one of the two calls rejects, the usage is the one before and [error] is
    a string; [loading] is false at the end in every case. *)
Theorem C9_fetchUsage_updates_only_on_success :
  forall (be : Eff.Backend) (tr : list Eff.Effect) (s : useUsage.State),
    let run := useUsage.fetchUsage be tr s in
    let first := Eff.outcome (be tr Remote.get_current_account_id) in
    let second := fun id =>
      Eff.outcome (be (tr ++ [Eff.Invoked Remote.get_current_account_id])%list
                      (Remote.get_quota_by_id id)) in
    let s' := Eff.state_of run in
    useUsage.loading s' = false
    /\ Eff.result_of run = Eff.Return tt
    /\ (first = inr None ->
        useUsage.usage s' = useUsage.usage s
        /\ useUsage.error s' = Some "未设置当前账号")
    /\ (forall id, first = inr (Some id) -> Js.truthy id = false ->
        useUsage.usage s' = useUsage.usage s
        /\ useUsage.error s' = Some "未设置当前账号")
    /\ (forall e, first = inl e ->
        useUsage.usage s' = useUsage.usage s
        /\ useUsage.error s' = Some (Js.String_ e))
    /\ (forall id e, first = inr (Some id) -> Js.truthy id = true ->
        second id = inl e ->
        useUsage.usage s' = useUsage.usage s
        /\ useUsage.error s' = Some (Js.String_ e))
    /\ (forall id data, first = inr (Some id) -> Js.truthy id = true ->
        second id = inr data ->
        useUsage.usage s' = Some (QuotaReply.as_UsageDisplay data)
        /\ useUsage.error s' = None).
Proof.
  intros be tr s. cbv zeta. rewrite fetchUsage_run. cbv zeta.
  split; [|split].
  3: { repeat split; intros;
       repeat match goal with H : _ = _ |- _ => rewrite H end; reflexivity. }
  all: generalize (be tr Remote.get_current_account_id);
    intros [[e|[id|]] l1]; cbn [Eff.outcome]; try reflexivity;
    destruct (Js.truthy id); try reflexivity;
    generalize (be (tr ++ [Eff.Invoked Remote.get_current_account_id])%list
                   (Remote.get_quota_by_id id));
    intros [[e|data] l2]; reflexivity.
Qed.

Lemma C9_fetchUsage_witness :
  let run :=
    useUsage.fetchUsage (Samples.backend_quota_rejecting (Js.ThrownString "offline"))
      [] useUsage.initial in
  useUsage.usage (Eff.state_of run) = None
  /\ useUsage.error (Eff.state_of run) = Some "offline".
Proof.
  exact (proj1 (proj2 (proj2 (proj2 (proj2 (proj2
    (C9_fetchUsage_updates_only_on_success
       (Samples.backend_quota_rejecting (Js.ThrownString "offline"))
       [] useUsage.initial))))))
    "a1" (Js.ThrownString "offline") eq_refl eq_refl eq_refl).
Defined.

(* ===================================================================== *)
(** * Refreshing one account *)
(* ===================================================================== *)

(** What the sets of one id look like after a refresh. *)
Lemma refreshed_sets (X : gset string) (id : string) :
  id ∈ (X ∖ {[id]}) ∪ {[id]}
  /\ (id ∉ X ∖ {[id]})
  /\ (id ∉ (X ∪ {[id]}) ∖ {[id]})
  /\ forall other, other <> id ->
       (other ∈ (X ∖ {[id]}) ∪ {[id]} <-> other ∈ X)
       /\ (other ∈ X ∖ {[id]} <-> other ∈ X)
       /\ (other ∈ (X ∪ {[id]}) ∖ {[id]} <-> other ∈ X).
Proof.
  split; [|split; [|split]].
  - rewrite elem_of_union, elem_of_singleton. now right.
  - rewrite elem_of_difference, elem_of_singleton. intros [_ H]. now apply H.
  - rewrite elem_of_difference, elem_of_singleton. intros [_ H]. now apply H.
  - intros other Hne.
    rewrite !elem_of_difference, !elem_of_union, elem_of_difference,
      !elem_of_singleton.
    tauto.
Qed.

Lemma handleRefreshOne_run (be : Eff.Backend) (tr : list Eff.Effect)
      (s : AccountList.State) (id : string) :
  let answer := Eff.outcome (be tr (Remote.get_quota_by_id id)) in
  let marked :=
    match answer with
    | inr reply => negb (QuotaReply.is_valid_for_cli reply)
    | inl e => Js.includes "TOKEN_INVALID" (Js.String_ e)
    end in
  let run := AccountList.handleRefreshOne id be tr s in
  Eff.result_of run = Eff.Return tt
  /\ AccountList.refreshingIds (Eff.state_of run)
     = (AccountList.refreshingIds s ∪ {[id]}) ∖ {[id]}
  /\ AccountList.invalidIds (Eff.state_of run)
     = (if marked then (AccountList.invalidIds s ∖ {[id]}) ∪ {[id]}
        else AccountList.invalidIds s ∖ {[id]}).
Proof.
  cbv zeta.
  unfold AccountList.handleRefreshOne, AccountList.setRefreshingIds,
    AccountList.setInvalidIds, AccountList.setUsageMap.
  run_monad.
  generalize (be tr (Remote.get_quota_by_id id)).
  intros [[e|reply] l]; cbn [Eff.outcome].
  - destruct (Js.includes "TOKEN_INVALID" (Js.String_ e)); cbn; auto.
  - unfold QuotaReply.as_UsageData; cbn [UsageData.is_valid_for_cli].
    destruct (QuotaReply.is_valid_for_cli reply); cbn; auto.
Qed.

(** C10. After [handleRefreshOne id], [id] is marked invalid exactly when the
    quota call gave a result whose [is_valid_for_cli] is false, or rejected
    with an error whose string contains "TOKEN_INVALID"; [id] is no longer
    marked as refreshing, and the marks of the other accounts are as
    before. *)
Theorem C10_handleRefreshOne_invalid_set :
  forall (be : Eff.Backend) (tr : list Eff.Effect) (s : AccountList.State)
         (id : string),
    let run := AccountList.handleRefreshOne id be tr s in
    let s' := Eff.state_of run in
    let answer := Eff.outcome (be tr (Remote.get_quota_by_id id)) in
    (id ∈ AccountList.invalidIds s'
     <-> (exists reply, answer = inr reply
                        /\ QuotaReply.is_valid_for_cli reply = false)
         \/ (exists e, answer = inl e
                       /\ Js.includes "TOKEN_INVALID" (Js.String_ e) = true))
    /\ (id ∉ AccountList.refreshingIds s')
    /\ Eff.result_of run = Eff.Return tt
    /\ (forall other, other <> id ->
          (other ∈ AccountList.invalidIds s' <-> other ∈ AccountList.invalidIds s)
          /\ (other ∈ AccountList.refreshingIds s'
              <-> other ∈ AccountList.refreshingIds s)).
Proof.
  intros be tr s id. cbv zeta.
  destruct (handleRefreshOne_run be tr s id) as (Hres & -> & ->).
  destruct (refreshed_sets (AccountList.invalidIds s) id)
    as (Hin & Hout & _ & Hinv).
  destruct (refreshed_sets (AccountList.refreshingIds s) id)
    as (_ & _ & Hdone & Hrefr).
  split; [|split; [exact Hdone|split; [exact Hres|]]].
  - destruct (Eff.outcome (be tr (Remote.get_quota_by_id id))) as [e|reply].
    + destruct (Js.includes "TOKEN_INVALID" (Js.String_ e)) eqn:Htok.
      * split; [intros _; right; eauto | intros _; exact Hin].
      * split; [intros H; now apply Hout in H|].
        intros [(r & [=] & _)|(e' & [= <-] & H)]. congruence.
    + destruct (QuotaReply.is_valid_for_cli reply) eqn:Hv; cbn [negb].
      * split; [intros H; now apply Hout in H|].
        intros [(r & [= <-] & H)|(e' & [=] & _)]. congruence.
      * split; [intros _; left; eauto | intros _; exact Hin].
  - intros other Hne. destruct (Hinv other Hne) as (H1 & H2 & _).
    destruct (Hrefr other Hne) as (_ & _ & H3).
    split; [|exact H3].
    destruct (match Eff.outcome (be tr (Remote.get_quota_by_id id)) with
              | inl e => Js.includes "TOKEN_INVALID" (Js.String_ e)
              | inr reply => negb (QuotaReply.is_valid_for_cli reply)
              end); assumption.
Qed.

(* ===================================================================== *)
(** * The account hook *)
(* ===================================================================== *)

Section AccountsFacts.
Import Remote Eff Shapes.

Lemma loadData_run (be : Backend) (tr : list Effect) (s : useAccounts.State) :
  useAccounts.loadData be tr s =
  (Return tt, (tr ++ loadData_calls)%list,
   match outcome (loaded be tr) with
   | inr (accountList, current, appSettings) =>
       {| useAccounts.accounts := accountList;
          useAccounts.currentId := current;
          useAccounts.settings := appSettings;
          useAccounts.loading := false;
          useAccounts.error := None |}
   | inl e =>
       {| useAccounts.accounts := useAccounts.accounts s;
          useAccounts.currentId := useAccounts.currentId s;
          useAccounts.settings := useAccounts.settings s;
          useAccounts.loading := false;
          useAccounts.error := Some (String_ e) |}
   end).
Proof.
  unfold useAccounts.loadData, useAccounts.setLoading, useAccounts.setError,
    useAccounts.setAccounts, useAccounts.setCurrentId, useAccounts.setSettings,
    loaded, loadData_calls.
  run_monad.
  replace (((tr ++ [Invoked get_accounts]) ++ [Invoked get_current_account_id]) ++
           [Invoked get_settings])%list
    with (tr ++ [Invoked get_accounts; Invoked get_current_account_id;
                 Invoked get_settings])%list
    by (now rewrite <- !app_assoc).
  generalize (Promise_all3 (be tr get_accounts)
        (be (tr ++ [Invoked get_accounts])%list get_current_account_id)
        (be ((tr ++ [Invoked get_accounts]) ++ [Invoked get_current_account_id])%list
           get_settings)).
  intros [[e|[[al cur] st]] l]; reflexivity.
Qed.

Lemma loadData_never_throws be tr s :
  result_of (useAccounts.loadData be tr s) = Return tt.
Proof. now rewrite loadData_run. Qed.

Ltac rejected_call H :=
  intros be tr s e H;
  cbv beta iota zeta delta
    [useAccounts.updateSettings useAccounts.importCurrent useAccounts.switchTo
     useAccounts.deleteAccount useAccounts.updateAccount
     useAccounts.exportAccounts useAccounts.importAccounts
     useAccounts.startOAuthLogin useAccounts.finalizeOAuthLogin
     useAccounts.reloadIdeWindows useAccounts.checkCodexLogin
     useAccounts.setError];
  run_monad; rewrite H; reflexivity.

Lemma updateSettings_rejected st :
  reports_and_rethrows (useAccounts.updateSettings st) (update_settings st).
Proof. rejected_call H. Qed.

Lemma importCurrent_rejected name notes :
  reports_and_rethrows (useAccounts.importCurrent name notes)
                       (import_current_account name notes).
Proof. rejected_call H. Qed.

Lemma switchTo_rejected id :
  reports_and_rethrows (useAccounts.switchTo id) (switch_account id).
Proof. rejected_call H. Qed.

Lemma deleteAccount_rejected id :
  reports_and_rethrows (useAccounts.deleteAccount id) (delete_account id).
Proof. rejected_call H. Qed.

Lemma updateAccount_rejected id name notes :
  reports_and_rethrows (useAccounts.updateAccount id name notes)
                       (update_account id name notes).
Proof. rejected_call H. Qed.

Lemma exportAccounts_rejected :
  reports_and_rethrows useAccounts.exportAccounts export_accounts.
Proof. rejected_call H. Qed.

Lemma importAccounts_rejected json :
  reports_and_rethrows (useAccounts.importAccounts json) (import_accounts json).
Proof. rejected_call H. Qed.

Lemma startOAuthLogin_rejected :
  reports_and_rethrows useAccounts.startOAuthLogin start_oauth_login.
Proof. rejected_call H. Qed.

Lemma finalizeOAuthLogin_rejected code :
  reports_and_rethrows (useAccounts.finalizeOAuthLogin code)
                       (finalize_oauth_login code).
Proof. rejected_call H. Qed.

Lemma reloadIdeWindows_rejected w :
  reports_and_rethrows (useAccounts.reloadIdeWindows w) (reload_ide_windows w).
Proof. rejected_call H. Qed.

(** [checkCodexLogin] swallows the rejection. *)
Lemma checkCodexLogin_rejected be tr s e :
  outcome (be tr check_codex_login) = inl e ->
  useAccounts.checkCodexLogin be tr s
  = (Return false, (tr ++ [Invoked check_codex_login])%list, s).
Proof. revert be tr s e. rejected_call H. Qed.

Ltac fulfilled_call H :=
  intros be tr s v H;
  cbv beta iota zeta delta
    [useAccounts.importCurrent useAccounts.switchTo
     useAccounts.deleteAccount useAccounts.updateAccount
     useAccounts.importAccounts useAccounts.finalizeOAuthLogin
     useAccounts.setError useAccounts.setCurrentId];
  run_monad; rewrite H; cbv beta iota; rewrite !loadData_run; reflexivity.

Lemma importCurrent_fulfilled name notes :
  then_reloads (useAccounts.importCurrent name notes)
               (import_current_account name notes) (fun s => s).
Proof. fulfilled_call H. Qed.

Lemma switchTo_fulfilled id :
  then_reloads (useAccounts.switchTo id) (switch_account id)
               (with_currentId (Some id)).
Proof. fulfilled_call H. Qed.

Lemma deleteAccount_fulfilled id :
  then_reloads (useAccounts.deleteAccount id) (delete_account id) (fun s => s).
Proof. fulfilled_call H. Qed.

Lemma updateAccount_fulfilled id name notes :
  then_reloads (useAccounts.updateAccount id name notes)
               (update_account id name notes) (fun s => s).
Proof. fulfilled_call H. Qed.

Lemma importAccounts_fulfilled json :
  then_reloads (useAccounts.importAccounts json) (import_accounts json)
               (fun s => s).
Proof. fulfilled_call H. Qed.

(** [finalizeOAuthLogin] reloads too, and returns the account. *)
Lemma finalizeOAuthLogin_fulfilled code be tr s account :
  outcome (be tr (finalize_oauth_login code)) = inr account ->
  let reload :=
    useAccounts.loadData be (tr ++ [Invoked (finalize_oauth_login code)])%list
      (with_error None s) in
  useAccounts.finalizeOAuthLogin code be tr s
  = (Return account, trace_of reload, state_of reload).
Proof. revert be tr s account. fulfilled_call H. Qed.

(** [Promise.all] rejects with the reason of one of the three calls. *)
Lemma Promise_all3_rejected {A B C} (p1 : Settled A) (p2 : Settled B)
      (p3 : Settled C) e :
  outcome (Promise_all3 p1 p2 p3) = inl e ->
  outcome p1 = inl e \/ outcome p2 = inl e \/ outcome p3 = inl e.
Proof.
  unfold Promise_all3, rejection.
  destruct (outcome p1) as [e1|a], (outcome p2) as [e2|b],
           (outcome p3) as [e3|c]; cbn; try discriminate; intros [= <-];
    repeat match goal with
           | |- context [if ?b then _ else _] => destruct b
           end; cbn; auto.
Qed.

Lemma Promise_all3_fulfilled {A B C} (p1 : Settled A) (p2 : Settled B)
      (p3 : Settled C) a b c :
  outcome (Promise_all3 p1 p2 p3) = inr (a, b, c) <->
  outcome p1 = inr a /\ outcome p2 = inr b /\ outcome p3 = inr c.
Proof.
  unfold Promise_all3.
  destruct (outcome p1), (outcome p2), (outcome p3); cbn [outcome rejected];
    split; try discriminate; try (intros (? & ? & ?); discriminate).
  - intros [= -> -> ->]. auto.
  - intros ([= ->] & [= ->] & [= ->]). reflexivity.
Qed.
End AccountsFacts.



(* ===================================================================== *)
(** * Switching accounts and the timers *)
(* ===================================================================== *)

Ltac run_modal :=
  cbv beta iota zeta delta
    [App.modal_on_oauth_callback_received App.modal_handleOpenAILogin
     App.modal_handleSubmitOfficial App.modal_handleClose
     App.importCurrent App.refresh App.setShowAddModal App.fire
     App.reloadIdeWindows App.refreshUsage
     AddAccountModal.on_oauth_callback_received
     AddAccountModal.handleOpenAILogin AddAccountModal.handleSubmitOfficial
     AddAccountModal.handleClose AddAccountModal.oauth_done
     AddAccountModal.finalizeOAuthLogin AddAccountModal.startOAuthLogin
     AddAccountModal.here AddAccountModal.setOauthStatus
     AddAccountModal.setError AddAccountModal.setLoading
     AddAccountModal.setName AddAccountModal.setNotes
     useAccounts.finalizeOAuthLogin useAccounts.startOAuthLogin
     useAccounts.importCurrent useAccounts.reloadIdeWindows
     useAccounts.setError];
  run_monad.

Section AppFacts.
Import Remote Eff Shapes.

Lemma zoom_run {S T A} (view : S -> T) (update : T -> S -> S) (m : M T A)
      be tr s :
  zoom view update m be tr s
  = (result_of (m be tr (view s)), trace_of (m be tr (view s)),
     update (state_of (m be tr (view s))) s).
Proof.
  unfold zoom, result_of, trace_of, state_of.
  now destruct (m be tr (view s)) as [[r tr'] t'].
Qed.

Lemma handleSwitch_fulfilled be tr render s id v :
  outcome (be tr (switch_account id)) = inr v ->
  App.handleSwitch render id be tr s
  = (Return tt,
     (tr ++ [Invoked (switch_account id)] ++ loadData_calls
         ++ (if AppSettings.auto_reload_ide
                  (useAccounts.settings (App.hook render))
             then [SetTimeout timer_reload_ide 300] else [])
         ++ [SetTimeout timer_refresh_usage 500])%list,
     App.withHook
       (state_of
          (useAccounts.loadData be (tr ++ [Invoked (switch_account id)])%list
             (with_currentId (Some id) (with_error None (App.hook s)))))
       s).
Proof.
  intros H. unfold App.handleSwitch, App.switchTo.
  unfold bind at 1. rewrite zoom_run, (switchTo_fulfilled id be tr _ v H).
  rewrite loadData_run. cbn [result_of trace_of state_of fst snd].
  destruct (AppSettings.auto_reload_ide _); run_monad;
    rewrite <- ?app_assoc; reflexivity.
Qed.

Lemma handleSwitch_rejected be tr render s id e :
  outcome (be tr (switch_account id)) = inl e ->
  App.handleSwitch render id be tr s
  = (Throw e, (tr ++ [Invoked (switch_account id)])%list,
     App.withHook (with_error (Some (String_ e)) (App.hook s)) s).
Proof.
  intros H. unfold App.handleSwitch, App.switchTo.
  unfold bind at 1. now rewrite zoom_run, (switchTo_rejected id be tr _ e H).
Qed.

Lemma oauth_callback_rejected be tr s code e :
  outcome (be tr (finalize_oauth_login code)) = inl e ->
  let run := App.modal_on_oauth_callback_received code be tr s in
  let modal := App.addAccountModal (state_of run) in
  result_of run = Return tt
  /\ trace_of run = (tr ++ [Invoked (finalize_oauth_login code)])%list
  /\ AddAccountModal.error modal = Some (String_ e)
  /\ AddAccountModal.oauthStatus modal = ""
  /\ AddAccountModal.loading modal = false.
Proof.
  intros H. cbv zeta. run_modal. cbn in *. rewrite H. cbn. auto.
Qed.

Lemma oauth_callback_fulfilled be tr s code account :
  outcome (be tr (finalize_oauth_login code)) = inr account ->
  let run := App.modal_on_oauth_callback_received code be tr s in
  let modal := App.addAccountModal (state_of run) in
  result_of run = Return tt
  /\ trace_of run
     = (tr ++ [Invoked (finalize_oauth_login code)] ++ loadData_calls
           ++ [SetTimeout timer_oauth_done 1000])%list
  /\ AddAccountModal.oauthStatus modal = "授权成功！账号已添加。"
  /\ AddAccountModal.loading modal = false
  /\ AddAccountModal.error modal
     = AddAccountModal.error (App.addAccountModal s).
Proof.
  intros H. cbv zeta. run_modal. cbn in *. rewrite H. cbn.
  rewrite !loadData_run. cbn. rewrite <- !app_assoc. auto.
Qed.

Lemma openai_login_rejected be tr s e :
  outcome (be tr start_oauth_login) = inl e ->
  let run := App.modal_handleOpenAILogin be tr s in
  let modal := App.addAccountModal (state_of run) in
  result_of run = Return tt
  /\ trace_of run = (tr ++ [Invoked start_oauth_login])%list
  /\ AddAccountModal.error modal = Some (String_ e)
  /\ AddAccountModal.oauthStatus modal = ""
  /\ AddAccountModal.loading modal = false.
Proof.
  intros H. cbv zeta. run_modal. cbn in *. rewrite H. cbn. auto.
Qed.

Lemma fire_reload_ide_trace be tr s :
  trace_of (App.fire timer_reload_ide be tr s)
  = (tr ++ [Invoked (reload_ide_windows false)])%list.
Proof.
  run_modal. cbn.
  generalize (be tr (reload_ide_windows false)). intros [[e|v] l]; reflexivity.
Qed.

Lemma fire_oauth_done be tr s :
  let run := App.fire timer_oauth_done be tr s in
  result_of run = Return tt
  /\ trace_of run = (tr ++ loadData_calls)%list
  /\ App.showAddModal (state_of run) = false.
Proof.
  cbv zeta. run_modal. cbn. rewrite !loadData_run. cbn. auto.
Qed.
End AppFacts.


(* ===================================================================== *)
(** * The manual import *)
(* ===================================================================== *)

Section ImportFacts.
Import Remote Eff Shapes.

Lemma notes_argument_spec notes :
  AddAccountModal.notes_argument notes
  = if decide (trim notes = "") then None else Some (trim notes).
Proof.
  unfold AddAccountModal.notes_argument.
  destruct (trim notes); reflexivity.
Qed.

Lemma submit_without_name be tr render s :
  trim (AddAccountModal.name (App.addAccountModal render)) = "" ->
  let run := App.modal_handleSubmitOfficial render be tr s in
  result_of run = Return tt
  /\ trace_of run = tr
  /\ AddAccountModal.error (App.addAccountModal (state_of run))
     = Some "请输入账号名称".
Proof.
  intros H. cbv zeta. run_modal. rewrite H. cbn. auto.
Qed.

Lemma submit_rejected be tr render s e :
  let modal := App.addAccountModal render in
  let call :=
    import_current_account
      (trim (AddAccountModal.name modal))
      (AddAccountModal.notes_argument (AddAccountModal.notes modal)) in
  trim (AddAccountModal.name modal) <> "" ->
  outcome (be tr call) = inl e ->
  let run := App.modal_handleSubmitOfficial render be tr s in
  result_of run = Return tt
  /\ trace_of run = (tr ++ [Invoked call])%list
  /\ AddAccountModal.error (App.addAccountModal (state_of run))
     = Some (String_ e)
  /\ AddAccountModal.loading (App.addAccountModal (state_of run)) = false
  /\ useAccounts.error (App.hook (state_of run)) = Some (String_ e).
Proof.
  cbv zeta. intros Hname H. run_modal.
  destruct (trim (AddAccountModal.name (App.addAccountModal render)));
    [congruence|].
  cbn in *. rewrite H. cbn. auto.
Qed.

Lemma submit_fulfilled (be : Backend) tr render s (v : unit) :
  let modal := App.addAccountModal render in
  let call :=
    import_current_account
      (trim (AddAccountModal.name modal))
      (AddAccountModal.notes_argument (AddAccountModal.notes modal)) in
  trim (AddAccountModal.name modal) <> "" ->
  outcome (be tr call) = inr v ->
  let run := App.modal_handleSubmitOfficial render be tr s in
  result_of run = Return tt
  /\ trace_of run = (tr ++ [Invoked call] ++ loadData_calls)%list
  /\ AddAccountModal.loading (App.addAccountModal (state_of run)) = false.
Proof.
  cbv zeta. intros Hname H. run_modal.
  destruct (trim (AddAccountModal.name (App.addAccountModal render)));
    [congruence|].
  cbn in *. rewrite H. cbn. rewrite !loadData_run. cbn.
  destruct (AddAccountModal.loading (App.addAccountModal render)
            && negb (includes "成功"
                       (AddAccountModal.oauthStatus (App.addAccountModal render))));
    cbn; rewrite <- !app_assoc; auto.
Qed.
End ImportFacts.

(** C6. Submitting the official-import form checks the name first: with an
    empty trimmed name nothing is called and the inline error asks for a
    name; otherwise the first call is [import_current_account] with the
    trimmed name, and with the trimmed notes, left out when they are empty.
    A rejection is shown inline; after a success only the reload follows. *)
Theorem C6_import_checks_name_first :
  forall (be : Eff.Backend) (tr : list Eff.Effect) (render s : App.State),
    let modal := App.addAccountModal render in
    let name := Js.trim (AddAccountModal.name modal) in
    let notes := Js.trim (AddAccountModal.notes modal) in
    let call :=
      Remote.import_current_account name
        (if decide (notes = "") then None else Some notes) in
    let run := App.modal_handleSubmitOfficial render be tr s in
    (name = "" ->
       Eff.trace_of run = tr
       /\ AddAccountModal.error (App.addAccountModal (Eff.state_of run))
          = Some "请输入账号名称")
    /\ (name <> "" ->
        (forall e, Eff.outcome (be tr call) = inl e ->
           Eff.trace_of run = (tr ++ [Eff.Invoked call])%list
           /\ AddAccountModal.error (App.addAccountModal (Eff.state_of run))
              = Some (Js.String_ e))
        /\ (forall v, Eff.outcome (be tr call) = inr v ->
           Eff.trace_of run
           = (tr ++ [Eff.Invoked call] ++ Shapes.loadData_calls)%list))
    /\ Eff.result_of run = Eff.Return tt.
Proof.
  intros be tr render s. cbv zeta.
  rewrite <- notes_argument_spec.
  destruct (decide (Js.trim (AddAccountModal.name (App.addAccountModal render)) = ""))
    as [Hname|Hname].
  - destruct (submit_without_name be tr render s Hname) as (Hr & Ht & He).
    split; [auto|]. split; [congruence|exact Hr].
  - split; [congruence|]. split.
    + intros _. split.
      * intros e H.
        destruct (submit_rejected be tr render s e Hname H) as (_ & Ht & He & _).
        auto.
      * intros v H.
        destruct (submit_fulfilled be tr render s v Hname H) as (_ & Ht & _).
        exact Ht.
    + generalize (submit_rejected be tr render s).
      generalize (submit_fulfilled be tr render s). cbv zeta.
      destruct (Eff.outcome (be tr (Remote.import_current_account _ _))) as [e|v].
      * intros _ H. now destruct (H e Hname eq_refl).
      * intros H _. now destruct (H v Hname eq_refl).
Qed.

Lemma C6_import_checks_name_first_witness :
  let run :=
    App.modal_handleSubmitOfficial (Samples.typed "  work  " "   ")
      (Samples.backend_ok None true) [] App.initial in
  Eff.trace_of run
  = ([] ++ [Eff.Invoked (Remote.import_current_account "work" None)]
        ++ Shapes.loadData_calls)%list.
Proof.
  exact (proj2 (proj1 (proj2 (C6_import_checks_name_first
           (Samples.backend_ok None true) [] (Samples.typed "  work  " "   ")
           App.initial)) ltac:(discriminate)) tt eq_refl).
Defined.

(** C7. After [switch_account] succeeded for [handleSwitch], the reload of
    the IDE windows is scheduled at 300 ms exactly when [auto_reload_ide] was
    set in the settings the handler was rendered with, and the usage refresh
    at 500 ms in every case; after a rejection nothing is scheduled.  The
    300 ms callback calls [reload_ide_windows] with [false], the 500 ms one is
    [refreshUsage].  When [finalize_oauth_login] succeeded for the modal, the
    callback that runs [onSuccess] and [onClose] is scheduled at 1000 ms,
    after the reload of the accounts; after a rejection it is not. *)
Theorem C7_fixed_delay_timers :
  forall (be : Eff.Backend) (tr : list Eff.Effect) (render s : App.State)
         (id code : string),
    let switch := App.handleSwitch render id be tr s in
    let callback := App.modal_on_oauth_callback_received code be tr s in
    (forall v, Eff.outcome (be tr (Remote.switch_account id)) = inr v ->
       Eff.result_of switch = Eff.Return tt
       /\ Eff.trace_of switch
          = (tr ++ [Eff.Invoked (Remote.switch_account id)]
                ++ Shapes.loadData_calls
                ++ (if AppSettings.auto_reload_ide
                         (useAccounts.settings (App.hook render))
                    then [Eff.SetTimeout Eff.timer_reload_ide 300] else [])
                ++ [Eff.SetTimeout Eff.timer_refresh_usage 500])%list)
    /\ (forall e, Eff.outcome (be tr (Remote.switch_account id)) = inl e ->
        Eff.result_of switch = Eff.Throw e
        /\ Eff.trace_of switch
           = (tr ++ [Eff.Invoked (Remote.switch_account id)])%list)
    /\ Eff.trace_of (App.fire Eff.timer_reload_ide be tr s)
       = (tr ++ [Eff.Invoked (Remote.reload_ide_windows false)])%list
    /\ App.fire Eff.timer_refresh_usage = App.refreshUsage
    /\ (forall account,
          Eff.outcome (be tr (Remote.finalize_oauth_login code)) = inr account ->
          Eff.result_of callback = Eff.Return tt
          /\ Eff.trace_of callback
             = (tr ++ [Eff.Invoked (Remote.finalize_oauth_login code)]
                   ++ Shapes.loadData_calls
                   ++ [Eff.SetTimeout Eff.timer_oauth_done 1000])%list)
    /\ (forall e,
          Eff.outcome (be tr (Remote.finalize_oauth_login code)) = inl e ->
          Eff.trace_of callback
          = (tr ++ [Eff.Invoked (Remote.finalize_oauth_login code)])%list)
    /\ (let done := App.fire Eff.timer_oauth_done be tr s in
        Eff.trace_of done = (tr ++ Shapes.loadData_calls)%list
        /\ App.showAddModal (Eff.state_of done) = false).
Proof.
  intros be tr render s id code. cbv zeta.
  repeat match goal with |- _ /\ _ => split end.
  - intros v H. now rewrite (handleSwitch_fulfilled be tr render s id v H).
  - intros e H. now rewrite (handleSwitch_rejected be tr render s id e H).
  - apply fire_reload_ide_trace.
  - reflexivity.
  - intros account H.
    destruct (oauth_callback_fulfilled be tr s code account H) as (? & ? & _).
    now split.
  - intros e H. apply (oauth_callback_rejected be tr s code e H).
  - apply fire_oauth_done.
  - apply fire_oauth_done.
Qed.

Lemma C7_fixed_delay_timers_witness :
  Eff.trace_of
    (App.handleSwitch (Samples.with_auto_reload true) "b2"
       (Samples.backend_ok (Some "b2") true) [] App.initial)
  = [Eff.Invoked (Remote.switch_account "b2");
     Eff.Invoked Remote.get_accounts;
     Eff.Invoked Remote.get_current_account_id;
     Eff.Invoked Remote.get_settings;
     Eff.SetTimeout Eff.timer_reload_ide 300;
     Eff.SetTimeout Eff.timer_refresh_usage 500].
Proof.
  exact (proj2 (proj1 (C7_fixed_delay_timers
           (Samples.backend_ok (Some "b2") true) []
           (Samples.with_auto_reload true) App.initial "b2" "code")
         tt eq_refl)).
Defined.

(* ===================================================================== *)
(** * The current account *)
(* ===================================================================== *)

Lemma isCurrent_spec (currentId : option string) (a : Account.t) :
  AccountList.isCurrent currentId a = true <-> currentId = Some (Account.id a).
Proof.
  unfold AccountList.isCurrent. destruct currentId as [cur|].
  - rewrite String.eqb_eq. split; [now intros -> | now intros [= ->]].
  - split; discriminate.
Qed.

(** C8. In every reachable state the current id is one nullable value: an
    account is rendered as current exactly when its id is that value, so two
    accounts rendered as current have the same id, none is when the value is
    [null], and the current account of [App] is one of them. *)
Theorem C8_at_most_one_current :
  forall s : App.State,
    App.reachable s ->
    let currentId := useAccounts.currentId (App.hook s) in
    (forall a : Account.t,
       AccountList.isCurrent currentId a = true
       <-> currentId = Some (Account.id a))
    /\ (forall a b : Account.t,
          AccountList.isCurrent currentId a = true ->
          AccountList.isCurrent currentId b = true ->
          Account.id a = Account.id b)
    /\ (currentId = None ->
        forall a : Account.t, AccountList.isCurrent currentId a = false)
    /\ (forall a : Account.t,
          App.currentAccount s = Some a ->
          In a (useAccounts.accounts (App.hook s))
          /\ currentId = Some (Account.id a)).
Proof.
  intros s _. cbv zeta. split; [|split; [|split]].
  - intros a. apply isCurrent_spec.
  - intros a b Ha Hb. apply isCurrent_spec in Ha, Hb. congruence.
  - intros -> a. reflexivity.
  - intros a H. apply find_some in H as [Hin Hcur].
    split; [exact Hin | now apply isCurrent_spec].
Qed.

Lemma C8_at_most_one_current_witness :
  Account.id Samples.bob = Account.id (Samples.account "b2" "bob@work.example").
Proof.
  refine (proj1 (proj2 (C8_at_most_one_current
            (Eff.state_of
               (App.run (App.ClickSwitch "b2") App.initial
                  (Samples.backend_ok (Some "b2") true) [] App.initial))
            _)) Samples.bob (Samples.account "b2" "bob@work.example")
            eq_refl eq_refl).
  apply (App.reachable_step App.initial _ App.reachable_initial).
  exists (App.ClickSwitch "b2"), (Samples.backend_ok (Some "b2") true), [].
  reflexivity.
Defined.

(* ===================================================================== *)
(** * Failures of remote calls *)
(* ===================================================================== *)

Section FailureFacts.
Import Remote Eff Shapes.

Lemma loadData_rejected be tr s e :
  outcome (loaded be tr) = inl e ->
  useAccounts.loadData be tr s
  = (Return tt, (tr ++ loadData_calls)%list,
     {| useAccounts.accounts := useAccounts.accounts s;
        useAccounts.currentId := useAccounts.currentId s;
        useAccounts.settings := useAccounts.settings s;
        useAccounts.loading := false;
        useAccounts.error := Some (String_ e) |}).
Proof. intros H. now rewrite loadData_run, H. Qed.

Lemma loaded_rejection_reason be tr e :
  outcome (loaded be tr) = inl e ->
  outcome (be tr get_accounts) = inl e
  \/ outcome (be (tr ++ [Invoked get_accounts])%list get_current_account_id)
     = inl e
  \/ outcome (be ((tr ++ [Invoked get_accounts])
                    ++ [Invoked get_current_account_id])%list get_settings)
     = inl e.
Proof. apply Promise_all3_rejected. Qed.

Lemma handleRefreshOne_rejected be tr s id e :
  outcome (be tr (get_quota_by_id id)) = inl e ->
  let run := AccountList.handleRefreshOne id be tr s in
  result_of run = Return tt
  /\ trace_of run
     = (tr ++ [Invoked (get_quota_by_id id);
               ConsoleError ("刷新配额失败: " +:+ String_ e)])%list
  /\ AccountList.usageMap (state_of run) = AccountList.usageMap s.
Proof.
  intros H. cbv zeta.
  unfold AccountList.handleRefreshOne, AccountList.setRefreshingIds,
    AccountList.setInvalidIds, AccountList.setUsageMap.
  run_monad. rewrite H.
  destruct (includes "TOKEN_INVALID" (String_ e)); cbn;
    rewrite <- !app_assoc; auto.
Qed.
End FailureFacts.

(** C1, as the code has it.  A rejected remote call is caught where it is
    made and turned into a string by [String(err)].  Ten operations of
    [useAccounts] put that string in the banner [error] and rethrow;
    [loadData], which the reloading operations run after their own call
    succeeded, and [fetchUsage] put it in their [error] and do not rethrow;
    [checkCodexLogin] stores nothing and answers [false]; [handleRefreshOne]
    stores nothing and writes the string to [console.error].  In the modal a
    failure of [startOAuthLogin] or [finalizeOAuthLogin] sets the inline
    error to the string and [oauthStatus] to the empty string. *)
Theorem C1_rejections_are_reported :
  (* the operations that store and rethrow *)
  (forall st, Shapes.reports_and_rethrows
                (useAccounts.updateSettings st) (Remote.update_settings st))
  /\ (forall name notes,
        Shapes.reports_and_rethrows (useAccounts.importCurrent name notes)
          (Remote.import_current_account name notes))
  /\ (forall id, Shapes.reports_and_rethrows
                   (useAccounts.switchTo id) (Remote.switch_account id))
  /\ (forall id, Shapes.reports_and_rethrows
                   (useAccounts.deleteAccount id) (Remote.delete_account id))
  /\ (forall id name notes,
        Shapes.reports_and_rethrows (useAccounts.updateAccount id name notes)
          (Remote.update_account id name notes))
  /\ Shapes.reports_and_rethrows useAccounts.exportAccounts Remote.export_accounts
  /\ (forall json, Shapes.reports_and_rethrows
                     (useAccounts.importAccounts json) (Remote.import_accounts json))
  /\ Shapes.reports_and_rethrows useAccounts.startOAuthLogin Remote.start_oauth_login
  /\ (forall code, Shapes.reports_and_rethrows
                     (useAccounts.finalizeOAuthLogin code)
                     (Remote.finalize_oauth_login code))
  /\ (forall w, Shapes.reports_and_rethrows
                  (useAccounts.reloadIdeWindows w) (Remote.reload_ide_windows w))
  (* the reload that follows a successful call *)
  /\ (forall name notes,
        Shapes.then_reloads (useAccounts.importCurrent name notes)
          (Remote.import_current_account name notes) (fun s => s))
  /\ (forall id, Shapes.then_reloads (useAccounts.switchTo id)
                   (Remote.switch_account id) (Shapes.with_currentId (Some id)))
  /\ (forall id, Shapes.then_reloads (useAccounts.deleteAccount id)
                   (Remote.delete_account id) (fun s => s))
  /\ (forall id name notes,
        Shapes.then_reloads (useAccounts.updateAccount id name notes)
          (Remote.update_account id name notes) (fun s => s))
  /\ (forall json, Shapes.then_reloads (useAccounts.importAccounts json)
                     (Remote.import_accounts json) (fun s => s))
  /\ (forall (be : Eff.Backend) tr s code account,
        Eff.outcome (be tr (Remote.finalize_oauth_login code)) = inr account ->
        let reload :=
          useAccounts.loadData be
            (tr ++ [Eff.Invoked (Remote.finalize_oauth_login code)])%list
            (Shapes.with_error None s) in
        useAccounts.finalizeOAuthLogin code be tr s
        = (Eff.Return account, Eff.trace_of reload, Eff.state_of reload))
  /\ (forall (be : Eff.Backend) tr s e,
        Eff.outcome (Shapes.loaded be tr) = inl e ->
        Eff.result_of (useAccounts.loadData be tr s) = Eff.Return tt
        /\ useAccounts.error (Eff.state_of (useAccounts.loadData be tr s))
           = Some (Js.String_ e)
        /\ (Eff.outcome (be tr Remote.get_accounts) = inl e
            \/ Eff.outcome (be (tr ++ [Eff.Invoked Remote.get_accounts])%list
                              Remote.get_current_account_id) = inl e
            \/ Eff.outcome (be ((tr ++ [Eff.Invoked Remote.get_accounts])
                                  ++ [Eff.Invoked Remote.get_current_account_id])%list
                              Remote.get_settings) = inl e))
  (* the usage hook *)
  /\ (forall (be : Eff.Backend) tr s e,
        Eff.outcome (be tr Remote.get_current_account_id) = inl e ->
        Eff.result_of (useUsage.fetchUsage be tr s) = Eff.Return tt
        /\ useUsage.error (Eff.state_of (useUsage.fetchUsage be tr s))
           = Some (Js.String_ e))
  /\ (forall (be : Eff.Backend) tr s id e,
        Eff.outcome (be tr Remote.get_current_account_id) = inr (Some id) ->
        Js.truthy id = true ->
        Eff.outcome (be (tr ++ [Eff.Invoked Remote.get_current_account_id])%list
                        (Remote.get_quota_by_id id)) = inl e ->
        Eff.result_of (useUsage.fetchUsage be tr s) = Eff.Return tt
        /\ useUsage.error (Eff.state_of (useUsage.fetchUsage be tr s))
           = Some (Js.String_ e))
  (* the two call sites that store nothing *)
  /\ (forall (be : Eff.Backend) tr s e,
        Eff.outcome (be tr Remote.check_codex_login) = inl e ->
        useAccounts.checkCodexLogin be tr s
        = (Eff.Return false, (tr ++ [Eff.Invoked Remote.check_codex_login])%list, s))
  /\ (forall (be : Eff.Backend) tr s id e,
        Eff.outcome (be tr (Remote.get_quota_by_id id)) = inl e ->
        Eff.result_of (AccountList.handleRefreshOne id be tr s) = Eff.Return tt
        /\ Eff.trace_of (AccountList.handleRefreshOne id be tr s)
           = (tr ++ [Eff.Invoked (Remote.get_quota_by_id id);
                     Eff.ConsoleError ("刷新配额失败: " +:+ Js.String_ e)])%list)
  (* the OAuth flows of the modal *)
  /\ (forall (be : Eff.Backend) tr s e,
        Eff.outcome (be tr Remote.start_oauth_login) = inl e ->
        let modal :=
          App.addAccountModal (Eff.state_of (App.modal_handleOpenAILogin be tr s)) in
        AddAccountModal.error modal = Some (Js.String_ e)
        /\ AddAccountModal.oauthStatus modal = "")
  /\ (forall (be : Eff.Backend) tr s code e,
        Eff.outcome (be tr (Remote.finalize_oauth_login code)) = inl e ->
        let modal :=
          App.addAccountModal
            (Eff.state_of (App.modal_on_oauth_callback_received code be tr s)) in
        AddAccountModal.error modal = Some (Js.String_ e)
        /\ AddAccountModal.oauthStatus modal = "").
Proof.
  repeat match goal with |- _ /\ _ => split end.
  - apply updateSettings_rejected.
  - apply importCurrent_rejected.
  - apply switchTo_rejected.
  - apply deleteAccount_rejected.
  - apply updateAccount_rejected.
  - apply exportAccounts_rejected.
  - apply importAccounts_rejected.
  - apply startOAuthLogin_rejected.
  - apply finalizeOAuthLogin_rejected.
  - apply reloadIdeWindows_rejected.
  - apply importCurrent_fulfilled.
  - apply switchTo_fulfilled.
  - apply deleteAccount_fulfilled.
  - apply updateAccount_fulfilled.
  - apply importAccounts_fulfilled.
  - intros be tr s code account H.
    apply (finalizeOAuthLogin_fulfilled code be tr s account H).
  - intros be tr s e H. rewrite (loadData_rejected be tr s e H).
    repeat split. now apply loaded_rejection_reason.
  - intros be tr s e H. rewrite fetchUsage_run. cbv zeta. now rewrite H.
  - intros be tr s id e H1 Hid H2. rewrite fetchUsage_run. cbv zeta.
    now rewrite H1, Hid, H2.
  - apply checkCodexLogin_rejected.
  - intros be tr s id e H.
    destruct (handleRefreshOne_rejected be tr s id e H) as (? & ? & _).
    now split.
  - intros be tr s e H.
    destruct (openai_login_rejected be tr s e H) as (_ & _ & ? & ? & _).
    now split.
  - intros be tr s code e H.
    destruct (oauth_callback_rejected be tr s code e H) as (_ & _ & ? & ? & _).
    now split.
Qed.

Lemma C1_rejections_are_reported_witness :
  useAccounts.switchTo "b2" (Samples.backend_rejecting (Js.ThrownString "offline"))
    [] useAccounts.initial
  = (Eff.Throw (Js.ThrownString "offline"),
     [Eff.Invoked (Remote.switch_account "b2")],
     Shapes.with_error (Some "offline") useAccounts.initial).
Proof.
  exact (proj1 (proj2 (proj2 C1_rejections_are_reported)) "b2"
           (Samples.backend_rejecting (Js.ThrownString "offline")) []
           useAccounts.initial (Js.ThrownString "offline") eq_refl).
Defined.

(** C1, as the specification words it, fails at [checkCodexLogin]: the
    rejection of [check_codex_login] is caught, and no error is stored. *)
Lemma C1_counterexample_checkCodexLogin :
  ~ Shapes.stores_rejection useAccounts.checkCodexLogin Remote.check_codex_login.
Proof.
  intros H.
  specialize (H (Samples.backend_rejecting (Js.ThrownString "offline")) []
                useAccounts.initial (Js.ThrownString "offline") eq_refl).
  discriminate H.
Qed.

(* ===================================================================== *)
(** * Further properties of the hooks *)
(* ===================================================================== *)

Section HookProperties.
Import Remote Eff Shapes.

Lemma loaded_rejects_when_one_does (be : Backend) (tr : list Effect) :
  (exists e, outcome (be tr get_accounts) = inl e)
  \/ (exists e, outcome (be (tr ++ [Invoked get_accounts])%list
                           get_current_account_id) = inl e)
  \/ (exists e, outcome (be ((tr ++ [Invoked get_accounts])
                               ++ [Invoked get_current_account_id])%list
                           get_settings) = inl e) ->
  exists e, outcome (loaded be tr) = inl e.
Proof.
  intros H. destruct (outcome (loaded be tr)) as [e|[[al cur] st]] eqn:Hl.
  - eauto.
  - apply Promise_all3_fulfilled in Hl as (H1 & H2 & H3).
    destruct H as [[e H]|[[e H]|[e H]]]; cbn in *; congruence.
Qed.

Lemma updateSettings_fulfilled (be : Backend) tr s newSettings (v : unit) :
  outcome (be tr (update_settings newSettings)) = inr v ->
  useAccounts.updateSettings newSettings be tr s
  = (Return tt, (tr ++ [Invoked (update_settings newSettings)])%list,
     {| useAccounts.accounts := useAccounts.accounts s;
        useAccounts.currentId := useAccounts.currentId s;
        useAccounts.settings := newSettings;
        useAccounts.loading := useAccounts.loading s;
        useAccounts.error := None |}).
Proof.
  intros H.
  cbv beta iota zeta delta
    [useAccounts.updateSettings useAccounts.setError useAccounts.setSettings].
  run_monad. rewrite H. reflexivity.
Qed.
End HookProperties.

(** X1. [loadData] never throws, makes its three calls whatever they answer
    and ends with [loading] false.  When all three succeed the accounts, the
    current id and the settings are the answers and [error] is cleared; when
    one of them rejects, all three values stay as they were, the answers of
    the calls that succeeded are dropped, and [error] is set. *)
Theorem loadData_all_or_nothing :
  forall (be : Eff.Backend) (tr : list Eff.Effect) (s : useAccounts.State),
    let run := useAccounts.loadData be tr s in
    let s' := Eff.state_of run in
    let p1 := Eff.outcome (be tr Remote.get_accounts) in
    let p2 := Eff.outcome (be (tr ++ [Eff.Invoked Remote.get_accounts])%list
                              Remote.get_current_account_id) in
    let p3 := Eff.outcome (be ((tr ++ [Eff.Invoked Remote.get_accounts])
                                 ++ [Eff.Invoked Remote.get_current_account_id])%list
                              Remote.get_settings) in
    Eff.result_of run = Eff.Return tt
    /\ Eff.trace_of run = (tr ++ Shapes.loadData_calls)%list
    /\ useAccounts.loading s' = false
    /\ (forall accountList current appSettings,
          p1 = inr accountList -> p2 = inr current -> p3 = inr appSettings ->
          useAccounts.accounts s' = accountList
          /\ useAccounts.currentId s' = current
          /\ useAccounts.settings s' = appSettings
          /\ useAccounts.error s' = None)
    /\ ((exists e, p1 = inl e) \/ (exists e, p2 = inl e) \/ (exists e, p3 = inl e) ->
        useAccounts.accounts s' = useAccounts.accounts s
        /\ useAccounts.currentId s' = useAccounts.currentId s
        /\ useAccounts.settings s' = useAccounts.settings s
        /\ exists message, useAccounts.error s' = Some message).
Proof.
  intros be tr s. cbv zeta. rewrite loadData_run.
  unfold Eff.result_of, Eff.trace_of, Eff.state_of. cbn [fst snd].
  split; [reflexivity|]. split; [reflexivity|]. split.
  { now destruct (Eff.outcome (Shapes.loaded be tr)) as [e|[[al cur] st]]. }
  split.
  - intros al cur st H1 H2 H3.
    assert (Eff.outcome (Shapes.loaded be tr) = inr (al, cur, st)) as ->.
    { apply Promise_all3_fulfilled. auto. }
    auto.
  - intros H. destruct (loaded_rejects_when_one_does be tr H) as [e ->].
    cbn. eauto.
Qed.

Lemma loadData_all_or_nothing_witness :
  let run :=
    useAccounts.loadData (Samples.backend_ok (Some "b2") true) []
      useAccounts.initial in
  useAccounts.accounts (Eff.state_of run) = [Samples.alice; Samples.bob]
  /\ useAccounts.currentId (Eff.state_of run) = Some "b2"
  /\ useAccounts.settings (Eff.state_of run)
     = useAccounts.settings useAccounts.initial
  /\ useAccounts.error (Eff.state_of run) = None.
Proof.
  exact (proj1 (proj2 (proj2 (proj2 (loadData_all_or_nothing
           (Samples.backend_ok (Some "b2") true) [] useAccounts.initial))))
         [Samples.alice; Samples.bob] (Some "b2")
         (useAccounts.settings useAccounts.initial) eq_refl eq_refl eq_refl).
Defined.

(** X2. [switchTo] sets the current id before the reload and the reload has
    the last word: when the reload succeeds the current id is the one the
    backend reports, also when it is not the id switched to; when the reload
    fails the id switched to stays, [error] holds the failure of the reload
    and nothing is thrown; when [switch_account] itself rejects, the current
    id is untouched. *)
Theorem switchTo_current_id :
  forall (be : Eff.Backend) (tr : list Eff.Effect) (s : useAccounts.State)
         (id : string),
    let run := useAccounts.switchTo id be tr s in
    let s' := Eff.state_of run in
    let tr1 := (tr ++ [Eff.Invoked (Remote.switch_account id)])%list in
    (forall e, Eff.outcome (be tr (Remote.switch_account id)) = inl e ->
       useAccounts.currentId s' = useAccounts.currentId s
       /\ useAccounts.accounts s' = useAccounts.accounts s)
    /\ (forall v accountList current appSettings,
          Eff.outcome (be tr (Remote.switch_account id)) = inr v ->
          Eff.outcome (Shapes.loaded be tr1) = inr (accountList, current, appSettings) ->
          Eff.result_of run = Eff.Return tt
          /\ useAccounts.currentId s' = current
          /\ useAccounts.accounts s' = accountList
          /\ useAccounts.error s' = None)
    /\ (forall v e,
          Eff.outcome (be tr (Remote.switch_account id)) = inr v ->
          Eff.outcome (Shapes.loaded be tr1) = inl e ->
          Eff.result_of run = Eff.Return tt
          /\ useAccounts.currentId s' = Some id
          /\ useAccounts.accounts s' = useAccounts.accounts s
          /\ useAccounts.error s' = Some (Js.String_ e)).
Proof.
  intros be tr s id. cbv zeta. split; [|split].
  - intros e H. now rewrite (switchTo_rejected id be tr s e H).
  - intros v al cur st H Hl.
    rewrite (switchTo_fulfilled id be tr s v H), loadData_run.
    unfold Eff.result_of, Eff.state_of. cbn [fst snd]. now rewrite Hl.
  - intros v e H Hl.
    rewrite (switchTo_fulfilled id be tr s v H), loadData_run.
    unfold Eff.result_of, Eff.state_of. cbn [fst snd]. now rewrite Hl.
Qed.

Lemma switchTo_current_id_witness :
  useAccounts.currentId
    (Eff.state_of
       (useAccounts.switchTo "b2" (Samples.backend_ok (Some "a1") true) []
          useAccounts.initial))
  = Some "a1".
Proof.
  exact (proj1 (proj2 (proj1 (proj2 (switchTo_current_id
           (Samples.backend_ok (Some "a1") true) [] useAccounts.initial "b2"))
         tt [Samples.alice; Samples.bob] (Some "a1")
         (useAccounts.settings useAccounts.initial) eq_refl eq_refl))).
Defined.

(** X3. [updateSettings] makes one call and does not reload: after a success
    the settings of the hook are the ones passed in, [error] is cleared and
    the rest is untouched; after a rejection the settings are the old ones
    and the rejection is thrown on. *)
Theorem updateSettings_applies_locally :
  forall (be : Eff.Backend) (tr : list Eff.Effect) (s : useAccounts.State)
         (newSettings : AppSettings.t),
    let run := useAccounts.updateSettings newSettings be tr s in
    let s' := Eff.state_of run in
    Eff.trace_of run = (tr ++ [Eff.Invoked (Remote.update_settings newSettings)])%list
    /\ useAccounts.accounts s' = useAccounts.accounts s
    /\ useAccounts.currentId s' = useAccounts.currentId s
    /\ (forall v, Eff.outcome (be tr (Remote.update_settings newSettings)) = inr v ->
          Eff.result_of run = Eff.Return tt
          /\ useAccounts.settings s' = newSettings
          /\ useAccounts.error s' = None)
    /\ (forall e, Eff.outcome (be tr (Remote.update_settings newSettings)) = inl e ->
          Eff.result_of run = Eff.Throw e
          /\ useAccounts.settings s' = useAccounts.settings s).
Proof.
  intros be tr s st. cbv zeta.
  destruct (Eff.outcome (be tr (Remote.update_settings st))) as [e|v] eqn:H.
  - rewrite (updateSettings_rejected st be tr s e H).
    repeat split; intros; simplify_eq; reflexivity.
  - rewrite (updateSettings_fulfilled be tr s st v H).
    repeat split; intros; simplify_eq; reflexivity.
Qed.

Lemma updateSettings_applies_locally_witness :
  useAccounts.settings
    (Eff.state_of
       (useAccounts.updateSettings
          (useAccounts.settings (App.hook (Samples.with_auto_reload true)))
          (Samples.backend_rejecting (Js.ThrownString "offline")) []
          useAccounts.initial))
  = useAccounts.settings useAccounts.initial.
Proof.
  exact (proj2 (proj2 (proj2 (proj2 (proj2 (updateSettings_applies_locally
           (Samples.backend_rejecting (Js.ThrownString "offline")) []
           useAccounts.initial
           (useAccounts.settings (App.hook (Samples.with_auto_reload true)))))))
         (Js.ThrownString "offline") eq_refl)).
Defined.

(** X4. [fetchUsage] asks for the current id first and asks for a quota at
    most once, only for the non-empty id it was just given: without a
    current id, or after a rejection of the first call, [get_quota_by_id] is
    not called. *)
Theorem fetchUsage_calls :
  forall (be : Eff.Backend) (tr : list Eff.Effect) (s : useUsage.State),
    let run := useUsage.fetchUsage be tr s in
    let first := Eff.outcome (be tr Remote.get_current_account_id) in
    Eff.trace_of run
    = (tr ++ Eff.Invoked Remote.get_current_account_id
          :: match first with
             | inr (Some id) =>
                 if Js.truthy id then [Eff.Invoked (Remote.get_quota_by_id id)]
                 else []
             | _ => []
             end)%list.
Proof.
  intros be tr s. cbv zeta. rewrite fetchUsage_run. cbv zeta.
  generalize (be tr Remote.get_current_account_id).
  intros [[e|[id|]] l]; cbn [Eff.outcome Eff.trace_of fst snd]; try reflexivity.
  destruct (Js.truthy id); [|reflexivity].
  generalize (be (tr ++ [Eff.Invoked Remote.get_current_account_id])%list
                 (Remote.get_quota_by_id id)).
  intros [[e|data] l2]; cbn; now rewrite <- app_assoc.
Qed.

(* ===================================================================== *)
(** * The usage card after a refresh *)
(* ===================================================================== *)

(** X5. What the usage card shows once [fetchUsage] has finished: never the
    spinner; the error text as soon as its string is not empty, also when a
    usage from an earlier refresh is still stored; the meters of the new
    usage after a success.  A rejection whose string is empty is not shown:
    the card renders the stored usage as if nothing had failed. *)
Theorem usage_card_after_fetch :
  forall (be : Eff.Backend) (tr : list Eff.Effect) (s : useUsage.State),
    let s' := Eff.state_of (useUsage.fetchUsage be tr s) in
    let card := UsageCardView.of_hook s' in
    let first := Eff.outcome (be tr Remote.get_current_account_id) in
    let second := fun id =>
      Eff.outcome (be (tr ++ [Eff.Invoked Remote.get_current_account_id])%list
                      (Remote.get_quota_by_id id)) in
    card <> UsageCardView.Loading
    /\ (first = inr None -> card = UsageCardView.Failed "未设置当前账号")
    /\ (forall e, first = inl e -> Js.String_ e <> "" ->
          card = UsageCardView.Failed (Js.String_ e))
    /\ (forall e, first = inl e -> Js.String_ e = "" ->
          card = match useUsage.usage s with
                 | Some u => UsageCardView.Meters (UsageCardView.meters u)
                               (UsageCardView.credits_shown u)
                 | None => UsageCardView.Nothing
                 end)
    /\ (forall id e, first = inr (Some id) -> Js.truthy id = true ->
          second id = inl e -> Js.String_ e <> "" ->
          card = UsageCardView.Failed (Js.String_ e))
    /\ (forall id data, first = inr (Some id) -> Js.truthy id = true ->
          second id = inr data ->
          card = UsageCardView.Meters
                   (UsageCardView.meters (QuotaReply.as_UsageDisplay data))
                   (UsageCardView.credits_shown (QuotaReply.as_UsageDisplay data))).
Proof.
  intros be tr s. cbv zeta. split.
  { assert (useUsage.loading (Eff.state_of (useUsage.fetchUsage be tr s)) = false)
      as Hload.
    { rewrite fetchUsage_run. cbv zeta.
      generalize (be tr Remote.get_current_account_id).
      intros [[e|[id|]] l]; cbn; try reflexivity.
      destruct (Js.truthy id); [|reflexivity].
      generalize (be (tr ++ [Eff.Invoked Remote.get_current_account_id])%list
                     (Remote.get_quota_by_id id)).
      intros [[e|data] l2]; reflexivity. }
    unfold UsageCardView.of_hook, UsageCardView.render. rewrite Hload. cbn.
    destruct (useUsage.error _) as [m|]; [destruct (Js.truthy m)|];
      try destruct (useUsage.usage _); discriminate. }
  rewrite fetchUsage_run. cbv zeta.
  unfold UsageCardView.of_hook, UsageCardView.render.
  repeat split; intros;
    repeat match goal with
           | H : Eff.outcome _ = _ |- _ => rewrite H
           | H : Js.truthy _ = _ |- _ => rewrite H
           end; cbn;
    try match goal with
        | H : Js.String_ ?e <> "" |- _ =>
            destruct (Js.String_ e) eqn:?; [congruence|reflexivity]
        | H : Js.String_ ?e = "" |- _ => rewrite H
        end; try reflexivity.
Qed.

Lemma usage_card_after_fetch_witness :
  UsageCardView.of_hook
    (Eff.state_of
       (useUsage.fetchUsage
          (Samples.backend_quota_rejecting (Js.ThrownString "offline")) []
          {| useUsage.usage := Some Samples.display; useUsage.loading := false;
             useUsage.error := None |}))
  = UsageCardView.Failed "offline".
Proof.
  exact (proj1 (proj2 (proj2 (proj2 (proj2 (usage_card_after_fetch
           (Samples.backend_quota_rejecting (Js.ThrownString "offline")) []
           {| useUsage.usage := Some Samples.display; useUsage.loading := false;
              useUsage.error := None |})))))
         "a1" (Js.ThrownString "offline") eq_refl eq_refl eq_refl
         ltac:(discriminate)).
Defined.

(* ===================================================================== *)
(** * Selecting rows *)
(* ===================================================================== *)

Section SelectionFacts.
Import Eff AccountListActions.




Lemma handleToggleSelect_selected (be : Backend) tr render s id :
  AccountList.selectedIds (state_of (handleToggleSelect render id be tr s))
  = (if bool_decide (id ∈ AccountList.selectedIds render)
     then AccountList.selectedIds render ∖ {[id]}
     else AccountList.selectedIds render ∪ {[id]})
  /\ trace_of (handleToggleSelect render id be tr s) = tr.
Proof.
  unfold handleToggleSelect.
  now destruct (bool_decide (id ∈ AccountList.selectedIds render)).
Qed.
End SelectionFacts.

(** X6. [handleToggleSelect] flips the selection of one row and of no other;
    toggling the same row again, from the next render, gives the selection
    back as it was. *)
Theorem handleToggleSelect_flips_one :
  forall (be be' : Eff.Backend) (tr tr' : list Eff.Effect)
         (s : AccountList.State) (id : string),
    let s1 := Eff.state_of (AccountListActions.handleToggleSelect s id be tr s) in
    let s2 := Eff.state_of (AccountListActions.handleToggleSelect s1 id be' tr' s1) in
    (id ∈ AccountList.selectedIds s1 <-> id ∉ AccountList.selectedIds s)
    /\ (forall other, other <> id ->
          (other ∈ AccountList.selectedIds s1 <-> other ∈ AccountList.selectedIds s))
    /\ AccountList.selectedIds s2 = AccountList.selectedIds s
    /\ Eff.trace_of (AccountListActions.handleToggleSelect s id be tr s) = tr.
Proof.
  intros be be' tr tr' s id. cbv zeta.
  destruct (handleToggleSelect_selected be tr s s id) as [H1 Htr].
  destruct (handleToggleSelect_selected be' tr'
              (Eff.state_of (AccountListActions.handleToggleSelect s id be tr s))
              (Eff.state_of (AccountListActions.handleToggleSelect s id be tr s)) id)
    as [H2 _].
  rewrite H2, H1. clear H1 H2.
  destruct (bool_decide (id ∈ AccountList.selectedIds s)) eqn:Hin.
  - apply bool_decide_eq_true in Hin.
    rewrite bool_decide_eq_false_2
      by (rewrite elem_of_difference, elem_of_singleton; tauto).
    split; [|split; [|split]].
    + rewrite elem_of_difference, elem_of_singleton. tauto.
    + intros other Hne. rewrite elem_of_difference, elem_of_singleton. tauto.
    + apply set_eq. intros x.
      rewrite elem_of_union, elem_of_difference, !elem_of_singleton.
      destruct (decide (x = id)) as [->|]; tauto.
    + exact Htr.
  - apply bool_decide_eq_false in Hin.
    rewrite bool_decide_eq_true_2
      by (rewrite elem_of_union, elem_of_singleton; tauto).
    split; [|split; [|split]].
    + rewrite elem_of_union, elem_of_singleton. tauto.
    + intros other Hne. rewrite elem_of_union, elem_of_singleton. tauto.
    + apply set_eq. intros x.
      rewrite elem_of_difference, elem_of_union, !elem_of_singleton.
      destruct (decide (x = id)) as [->|]; tauto.
    + exact Htr.
Qed.



(* ===================================================================== *)
(** * The account list and the cached quotas *)
(* ===================================================================== *)

Section CacheFacts.
Import Eff.

Lemma cache_invalid_spec (l : list Account.t) (X : gset string) (x : string) :
  x ∈ fold_left
        (fun st acc =>
           match Account.cached_quota acc with
           | Some q =>
               if UsageData.is_valid_for_cli (AccountList.usage_of_cache q) then st
               else st ∪ {[Account.id acc]}
           | None => st
           end) l X
  <-> x ∈ X
      \/ exists acc q, In acc l /\ Account.id acc = x
                       /\ Account.cached_quota acc = Some q
                       /\ CachedQuota.is_valid_for_cli q = Some false.
Proof.
  revert X. induction l as [|a l IH]; intros X; cbn [fold_left].
  - split; [tauto|]. intros [H|(acc & q & [] & _)]. exact H.
  - rewrite IH. clear IH. split.
    + intros [H|(acc & q & Hin & H)].
      * destruct (Account.cached_quota a) as [q|] eqn:Hq; [|tauto].
        unfold AccountList.usage_of_cache in H at 1.
        cbn [UsageData.is_valid_for_cli] in H.
        destruct (CachedQuota.is_valid_for_cli q) as [[]|] eqn:Hv; try tauto.
        apply elem_of_union in H as [H|H]; [tauto|].
        apply elem_of_singleton in H. right. exists a, q. cbn. auto.
      * right. exists acc, q. cbn. tauto.
    + intros [H|(acc & q & [->|Hin] & Hid & Hq & Hv)].
      * left. destruct (Account.cached_quota a) as [q|]; [|exact H].
        destruct (UsageData.is_valid_for_cli _); [exact H|].
        apply elem_of_union. now left.
      * left. rewrite Hq. unfold AccountList.usage_of_cache at 1.
        cbn [UsageData.is_valid_for_cli]. rewrite Hv.
        apply elem_of_union. right. now apply elem_of_singleton.
      * right. eauto 10.
Qed.

Lemma cache_usage_untouched (l : list Account.t) (m : gmap string UsageData.t)
      (x : string) :
  (forall acc, In acc l -> Account.id acc = x -> Account.cached_quota acc = None) ->
  fold_left
    (fun m acc =>
       match Account.cached_quota acc with
       | Some q => <[Account.id acc := AccountList.usage_of_cache q]> m
       | None => m
       end) l m !! x
  = m !! x.
Proof.
  revert m. induction l as [|a l IH]; intros m H; cbn [fold_left]; [reflexivity|].
  rewrite IH by (intros acc Hin; apply H; now right).
  destruct (Account.cached_quota a) as [q|] eqn:Hq; [|reflexivity].
  apply lookup_insert_ne. intros Hid.
  specialize (H a (or_introl eq_refl) Hid). congruence.
Qed.

Lemma cache_usage_entry (l : list Account.t) (m : gmap string UsageData.t)
      (acc : Account.t) (q : CachedQuota.t) :
  NoDup (map Account.id l) -> In acc l -> Account.cached_quota acc = Some q ->
  fold_left
    (fun m acc =>
       match Account.cached_quota acc with
       | Some q => <[Account.id acc := AccountList.usage_of_cache q]> m
       | None => m
       end) l m !! Account.id acc
  = Some (AccountList.usage_of_cache q).
Proof.
  revert m. induction l as [|a l IH]; intros m Hnd Hin Hq; [destruct Hin|].
  cbn [map] in Hnd. apply NoDup_cons in Hnd as [Hfresh Hnd].
  cbn [fold_left]. destruct Hin as [->|Hin].
  - rewrite Hq, cache_usage_untouched.
    + apply lookup_insert_eq.
    + intros acc' Hin' Hid. exfalso. apply Hfresh.
      rewrite <- Hid. apply list_elem_of_In, in_map, Hin'.
  - now apply IH.
Qed.
End CacheFacts.

(** X8. The effect that runs when the accounts change calls nothing.  It
    replaces the invalid marks: afterwards an id is marked exactly when one
    of the accounts with that id has a cached quota whose
    [is_valid_for_cli] is [false] (a missing flag counts as valid), whatever
    was marked before.  It merges the usage map: the entry of an id without
    cached quota, also of an account that is gone, is kept; with distinct
    ids, the entry of an account with a cached quota is that quota. *)
Theorem loadFromCache_marks_and_merges :
  forall (be : Eff.Backend) (tr : list Eff.Effect) (accounts : list Account.t)
         (s : AccountList.State),
    let run := AccountList.loadFromCache accounts be tr s in
    let s' := Eff.state_of run in
    Eff.result_of run = Eff.Return tt
    /\ Eff.trace_of run = tr
    /\ (forall x,
          x ∈ AccountList.invalidIds s'
          <-> exists acc q, In acc accounts /\ Account.id acc = x
                            /\ Account.cached_quota acc = Some q
                            /\ CachedQuota.is_valid_for_cli q = Some false)
    /\ (forall x,
          (forall acc, In acc accounts -> Account.id acc = x ->
                       Account.cached_quota acc = None) ->
          AccountList.usageMap s' !! x = AccountList.usageMap s !! x)
    /\ (NoDup (map Account.id accounts) ->
        forall acc q, In acc accounts -> Account.cached_quota acc = Some q ->
          AccountList.usageMap s' !! Account.id acc
          = Some (AccountList.usage_of_cache q)).
Proof.
  intros be tr accounts s. cbv zeta.
  unfold AccountList.loadFromCache, AccountList.setUsageMap,
    AccountList.setInvalidIds.
  run_monad. unfold Eff.result_of, Eff.trace_of, Eff.state_of.
  cbn [fst snd AccountList.invalidIds AccountList.usageMap].
  split; [reflexivity|]. split; [reflexivity|]. split; [|split].
  - intros x. rewrite cache_invalid_spec. split; [|tauto].
    intros [H|H]; [|exact H]. now apply not_elem_of_empty in H.
  - intros x H. rewrite lookup_union_r; [reflexivity|].
    now rewrite (cache_usage_untouched accounts ∅ x H).
  - intros Hnd acc q Hin Hq.
    apply lookup_union_Some_l. now apply cache_usage_entry.
Qed.

Lemma loadFromCache_marks_and_merges_witness :
  AccountList.usageMap
    (Eff.state_of
       (AccountList.loadFromCache [Samples.alice; Samples.bob]
          (Samples.backend_ok None true) []
          (Eff.state_of
             (AccountList.setUsageMap (fun _ => Samples.usage_upper)
                (Samples.backend_ok None true) [] AccountList.initial))))
    !! "a1"
  = Some (Samples.usage_with_plan "ChatGPT PLUS").
Proof.
  refine (eq_trans
    (proj1 (proj2 (proj2 (proj2 (loadFromCache_marks_and_merges
       (Samples.backend_ok None true) [] [Samples.alice; Samples.bob]
       (Eff.state_of
          (AccountList.setUsageMap (fun _ => Samples.usage_upper)
             (Samples.backend_ok None true) [] AccountList.initial))))))
     "a1" _) _).
  - intros acc [<-|[<-|[]]] _; reflexivity.
  - vm_compute. reflexivity.
Defined.

(* ===================================================================== *)
(** * Refreshing several accounts *)
(* ===================================================================== *)

Section RefreshManyFacts.
Import Remote Eff EffLoop AccountListActions.

Lemma handleRefreshOne_frame (be : Backend) tr s id :
  let run := AccountList.handleRefreshOne id be tr s in
  result_of run = Return tt
  /\ calls (trace_of run) = (calls tr ++ [get_quota_by_id id])%list
  /\ AccountList.isRefreshingAll (state_of run) = AccountList.isRefreshingAll s
  /\ AccountList.selectedIds (state_of run) = AccountList.selectedIds s
  /\ AccountList.refreshingIds (state_of run)
     = (AccountList.refreshingIds s ∪ {[id]}) ∖ {[id]}.
Proof.
  cbv zeta.
  unfold AccountList.handleRefreshOne, AccountList.setRefreshingIds,
    AccountList.setInvalidIds, AccountList.setUsageMap.
  run_monad.
  generalize (be tr (get_quota_by_id id)).
  intros [[e|reply] l]; cbn [outcome].
  - destruct (includes "TOKEN_INVALID" (String_ e)); cbn;
      unfold calls; rewrite !omap_app; cbn; rewrite <- ?app_assoc; auto.
  - unfold QuotaReply.as_UsageData; cbn [UsageData.is_valid_for_cli].
    destruct (QuotaReply.is_valid_for_cli reply); cbn;
      unfold calls; rewrite !omap_app; cbn; auto.
Qed.



End RefreshManyFacts.


(* ===================================================================== *)
(** * Searching and the plan tabs *)
(* ===================================================================== *)

Section SearchFacts.
Import Js AccountListView Shapes.

Lemma filter_sublist {A} (f : A -> bool) (l : list A) :
  sublist (List.filter f l) l.
Proof.
  induction l as [|a l IH]; cbn; [constructor|].
  destruct (f a); now constructor.
Qed.

Lemma recased_truthy s s' : recased s s' = true -> truthy s = truthy s'.
Proof. destruct s, s'; cbn; congruence. Qed.

Lemma filter_disjoint_length {A} (f g : A -> bool) (l : list A) :
  (forall a, f a = true -> g a = false) ->
  List.length (List.filter f l) + List.length (List.filter g l) <= List.length l.
Proof.
  intros H. induction l as [|a l IH]; cbn; [lia|].
  destruct (f a) eqn:Hf; [rewrite (H a Hf)|destruct (g a)]; cbn; lia.
Qed.

Lemma plan_is_free_excludes um a :
  plan_is_free um a = true ->
  plan_includes um "plus" a = false /\ plan_includes um "team" a = false.
Proof.
  unfold plan_is_free, plan_includes, tier_of.
  destruct (um !! Account.id a) as [u|]; [|discriminate].
  destruct (UsageData.plan_type u) as [p|]; [|discriminate].
  intros [[_ H1]%andb_true_iff H2]%andb_true_iff.
  now apply negb_true_iff in H1, H2.
Qed.
End SearchFacts.

(** X10. The rows shown are accounts of the [accounts] prop in the order of
    the prop, each at most as often as it is there.  For a query and a name
    within ASCII, the account passes the search exactly when the query is
    empty or its lowercased name contains the lowercased query; the case of
    the ASCII letters typed does not matter; with an empty query and the
    'all' tab every account is shown. *)
Theorem visible_rows_are_a_sublist :
  forall (accounts : list Account.t) (s : AccountList.State),
    sublist (AccountListActions.visible accounts s) accounts
    /\ (forall a query,
          AsciiText.ascii_only query = true ->
          AsciiText.ascii_only (Account.name a) = true ->
          In a (AccountListView.searchedAccounts accounts query)
          <-> In a accounts
              /\ (query = ""
                  \/ Js.includes (Js.toLowerCase query)
                       (Js.toLowerCase (Account.name a)) = true))
    /\ (forall query query',
          Shapes.recased query query' = true ->
          AccountListView.searchedAccounts accounts query
          = AccountListView.searchedAccounts accounts query')
    /\ (AccountList.searchQuery s = "" ->
        AccountList.filter s = AccountListView.all ->
        AccountListActions.visible accounts s = accounts).
Proof.
  intros accounts s. split; [|split; [|split]].
  - unfold AccountListActions.visible.
    transitivity (AccountListView.searchedAccounts accounts
                    (AccountList.searchQuery s)).
    + destruct (AccountList.filter s); cbn; try apply filter_sublist.
      reflexivity.
    + unfold AccountListView.searchedAccounts.
      destruct (negb _); [reflexivity | apply filter_sublist].
  - intros a query _ _. unfold AccountListView.searchedAccounts.
    destruct query as [|c q]; cbn [Js.truthy negb].
    + intuition.
    + rewrite filter_In. intuition discriminate.
  - intros q q' H. unfold AccountListView.searchedAccounts.
    now rewrite (recased_truthy _ _ H), (recased_toLowerCase _ _ H).
  - intros Hq Hf. unfold AccountListActions.visible.
    now rewrite Hq, Hf.
Qed.

Lemma visible_rows_are_a_sublist_witness :
  In Samples.alice
    (AccountListView.searchedAccounts [Samples.alice; Samples.bob] "ALICE").
Proof.
  apply (proj1 (proj2 (visible_rows_are_a_sublist
           [Samples.alice; Samples.bob] AccountList.initial))
         Samples.alice "ALICE" eq_refl eq_refl).
  split; [now left|right; reflexivity].
Defined.

(** X11. The plan tabs do not partition the accounts.  An account counted as
    'free' is counted neither as 'plus' nor as 'team', so each of these two
    counts plus the 'free' count stays within the 'all' count; an account
    whose plan type is present and not empty is counted in at least one of
    the three; an account without usage entry or plan type is counted in
    none of them, only in 'all'. *)
Theorem plan_tabs_overlap_and_gaps :
  forall (usageMap : gmap string UsageData.t) (searched : list Account.t)
         (a : Account.t),
    let counts := AccountListView.filterCounts usageMap searched in
    (AccountListView.plan_is_free usageMap a = true ->
       AccountListView.plan_includes usageMap "plus" a = false
       /\ AccountListView.plan_includes usageMap "team" a = false)
    /\ (forall p, Shapes.plan_of usageMap a = Some p -> Js.toLowerCase p <> "" ->
          AccountListView.plan_includes usageMap "plus" a = true
          \/ AccountListView.plan_includes usageMap "team" a = true
          \/ AccountListView.plan_is_free usageMap a = true)
    /\ (Shapes.plan_of usageMap a = None ->
        AccountListView.plan_includes usageMap "plus" a = false
        /\ AccountListView.plan_includes usageMap "team" a = false
        /\ AccountListView.plan_is_free usageMap a = false)
    /\ AccountListView.count_plus counts + AccountListView.count_free counts
       <= AccountListView.count_all counts
    /\ AccountListView.count_team counts + AccountListView.count_free counts
       <= AccountListView.count_all counts.
Proof.
  intros um searched a. cbv zeta. split; [|split; [|split; [|split]]].
  - apply plan_is_free_excludes.
  - intros p Hp Hne.
    unfold AccountListView.plan_includes, AccountListView.plan_is_free,
      AccountListView.tier_of, Shapes.plan_of in *.
    destruct (um !! Account.id a) as [u|]; [|discriminate].
    rewrite Hp.
    destruct (Js.includes "plus" (Js.toLowerCase p)); [now left|].
    destruct (Js.includes "team" (Js.toLowerCase p)); [now right; left|].
    right; right. destruct (Js.toLowerCase p); [congruence|reflexivity].
  - intros Hp.
    unfold AccountListView.plan_includes, AccountListView.plan_is_free,
      AccountListView.tier_of, Shapes.plan_of in *.
    destruct (um !! Account.id a) as [u|]; [rewrite Hp|]; auto.
  - cbn. rewrite Nat.add_comm. apply filter_disjoint_length.
    intros x H. now apply plan_is_free_excludes in H.
  - cbn. rewrite Nat.add_comm. apply filter_disjoint_length.
    intros x H. now apply plan_is_free_excludes in H.
Qed.

Lemma plan_tabs_overlap_and_gaps_witness :
  AccountListView.plan_includes Samples.usage_upper "plus" Samples.bob = false
  /\ AccountListView.plan_includes Samples.usage_upper "team" Samples.bob = false
  /\ AccountListView.plan_is_free Samples.usage_upper Samples.bob = false.
Proof.
  exact (proj1 (proj2 (proj2 (plan_tabs_overlap_and_gaps Samples.usage_upper
           [Samples.alice; Samples.bob] Samples.bob)))
         ltac:(vm_compute; reflexivity)).
Defined.

(** X12. A refresh of one account that succeeds stores the reply under its
    id and touches no other entry of the usage map: the row moves between
    the plan tabs as the plan type of the reply says, and no other row
    moves.  A refresh that fails leaves the usage map as it was, so the row
    keeps showing the quota it had. *)
Theorem handleRefreshOne_usage_entry :
  forall (be : Eff.Backend) (tr : list Eff.Effect) (s : AccountList.State)
         (id : string),
    let s' := Eff.state_of (AccountList.handleRefreshOne id be tr s) in
    let answer := Eff.outcome (be tr (Remote.get_quota_by_id id)) in
    (forall e, answer = inl e ->
       AccountList.usageMap s' = AccountList.usageMap s)
    /\ (forall reply, answer = inr reply ->
          AccountList.usageMap s'
          = <[id := QuotaReply.as_UsageData reply]> (AccountList.usageMap s))
    /\ (forall reply a word, answer = inr reply -> Account.id a = id ->
          AccountListView.plan_includes (AccountList.usageMap s') word a
          = match UsageDisplay.plan_type (QuotaReply.display reply) with
            | Some p => Js.includes word (Js.toLowerCase p)
            | None => false
            end)
    /\ (forall a word, Account.id a <> id ->
          AccountListView.plan_includes (AccountList.usageMap s') word a
          = AccountListView.plan_includes (AccountList.usageMap s) word a).
Proof.
  intros be tr s id. cbv zeta.
  assert (AccountList.usageMap
            (Eff.state_of (AccountList.handleRefreshOne id be tr s))
          = match Eff.outcome (be tr (Remote.get_quota_by_id id)) with
            | inl _ => AccountList.usageMap s
            | inr reply =>
                <[id := QuotaReply.as_UsageData reply]> (AccountList.usageMap s)
            end) as ->.
  { unfold AccountList.handleRefreshOne, AccountList.setRefreshingIds,
      AccountList.setInvalidIds, AccountList.setUsageMap.
    run_monad.
    generalize (be tr (Remote.get_quota_by_id id)).
    intros [[e|reply] l]; cbn [Eff.outcome].
    - now destruct (Js.includes "TOKEN_INVALID" (Js.String_ e)).
    - unfold QuotaReply.as_UsageData; cbn [UsageData.is_valid_for_cli].
      now destruct (QuotaReply.is_valid_for_cli reply). }
  split; [|split; [|split]].
  - now intros e ->.
  - now intros reply ->.
  - intros reply a word -> <-. unfold AccountListView.plan_includes.
    now rewrite lookup_insert_eq.
  - intros a word Hne. unfold AccountListView.plan_includes.
    destruct (Eff.outcome (be tr (Remote.get_quota_by_id id))); [reflexivity|].
    rewrite lookup_insert_ne by congruence. reflexivity.
Qed.

Lemma handleRefreshOne_usage_entry_witness :
  AccountListView.plan_includes
    (AccountList.usageMap
       (Eff.state_of
          (AccountList.handleRefreshOne "a1" (Samples.backend_ok None true) []
             AccountList.initial)))
    "plus" Samples.alice
  = true.
Proof.
  exact (proj1 (proj2 (proj2 (handleRefreshOne_usage_entry
           (Samples.backend_ok None true) [] AccountList.initial "a1")))
         (Samples.reply true) Samples.alice "plus" eq_refl eq_refl).
Defined.

(** X13. More quota left never gives a more alarming colour: between two
    finite percentages, the larger one is green when the smaller is, and the
    smaller one is red when the larger is. *)
Theorem quota_color_monotone :
  forall p q : Q,
    (p <= q)%Q ->
    (AccountListView.getQuotaColor (Js.Num p) = "green" ->
     AccountListView.getQuotaColor (Js.Num q) = "green")
    /\ (AccountListView.getQuotaColor (Js.Num q) = "red" ->
        AccountListView.getQuotaColor (Js.Num p) = "red")
    /\ (AccountListView.getQuotaColor (Js.Num p) = "orange" ->
        AccountListView.getQuotaColor (Js.Num q) <> "red").
Proof.
  intros p q Hle.
  destruct (quota_color_cases p) as [[Hp H]|[[Hp [H1 H2]]|[Hp H]]];
    destruct (quota_color_cases q) as [[Hq H']|[[Hq [H1' H2']]|[Hq H']]];
    rewrite Hp, Hq; repeat split; intros; try discriminate; try reflexivity;
    exfalso; lra.
Qed.

Lemma quota_color_monotone_witness :
  (60 <= 75)%Q /\ AccountListView.getQuotaColor (Js.Num 75) = "green".
Proof.
  split; [discriminate|].
  exact (proj1 (quota_color_monotone 60 75 ltac:(discriminate)) eq_refl).
Defined.

(* ===================================================================== *)
(** * Durations as they are printed *)
(* ===================================================================== *)

Section PrintingFacts.
Import Js JsFacts AccountListView Shapes.

Ltac digit_arith :=
  match goal with
  | |- context [digit_value ?c] =>
      let v := eval vm_compute in (digit_value c) in
      change (digit_value c) with v
  end; lia.

Lemma string_of_uint_digits (d : Decimal.uint) :
  all_digits (NilEmpty.string_of_uint d) = true.
Proof. induction d; cbn; auto. Qed.

Lemma parseInt_from_uint_acc (d : Decimal.uint) (acc : positive) :
  parseInt_from (N.pos acc) (NilEmpty.string_of_uint d)
  = N.pos (Pos.of_uint_acc d acc).
Proof.
  revert acc. induction d; intros acc; cbn [NilEmpty.string_of_uint parseInt_from
    Pos.of_uint_acc]; [reflexivity|..];
    match goal with
    | |- parseInt_from ?a _ = N.pos (Pos.of_uint_acc _ ?b) =>
        replace a with (N.pos b) by digit_arith; apply IHd
    end.
Qed.

Lemma parseInt_from_uint (d : Decimal.uint) :
  parseInt_from 0 (NilEmpty.string_of_uint d) = Pos.of_uint d.
Proof.
  induction d; cbn [NilEmpty.string_of_uint parseInt_from Pos.of_uint];
    [reflexivity | exact IHd | ..];
    match goal with
    | |- parseInt_from ?a _ = N.pos (Pos.of_uint_acc _ ?b) =>
        replace a with (N.pos b) by digit_arith; apply parseInt_from_uint_acc
    end.
Qed.

(** Printing a number and reading it back. *)
Lemma parseInt_show (n : N) : parseInt (show n) = n.
Proof.
  unfold parseInt, show. rewrite parseInt_from_uint.
  apply DecimalN.Unsigned.of_to.
Qed.

Lemma show_number_text (n : N) : number_text (show n) = true.
Proof.
  unfold number_text, show. rewrite string_of_uint_digits. cbn [andb].
  destruct (N.to_uint n) eqn:Hn; try reflexivity.
  pose proof (DecimalN.Unsigned.of_to n) as H. rewrite Hn in H. cbn in H.
  subst n. discriminate Hn.
Qed.

Lemma show_starts_with_digit (n : N) :
  exists c rest, show n = String c rest /\ is_digit c = true.
Proof.
  pose proof (show_number_text n) as [Hd Hne]%number_text_inv.
  destruct (show n) as [|c rest]; [discriminate|].
  cbn in Hd. apply andb_true_iff in Hd as [Hc _]. eauto.
Qed.

Lemma compact_text_shape (days hrs mins : N) :
  let compactText :=
    if (0 <? days)%N then show days +:+ "d " +:+ show hrs +:+ "h"
    else if (0 <? hrs)%N then show hrs +:+ "h " +:+ show mins +:+ "m"
    else show mins +:+ "m" in
  exists c rest, compactText = String c rest /\ is_digit c = true.
Proof.
  cbv zeta.
  destruct (0 <? days)%N; [|destruct (0 <? hrs)%N];
    match goal with
    | |- context [show ?n +:+ _] =>
        destruct (show_starts_with_digit n) as (c & rest & -> & Hc)
    end; rewrite append_cons; eauto.
Qed.
End PrintingFacts.

Section NumeralFacts.
Import Js JsFacts Shapes Float64.

Lemma parseInt_from_zeros (acc : N) (j : nat) :
  parseInt_from acc (zeros j) = (acc * 10 ^ N.of_nat j)%N.
Proof.
  revert acc. induction j as [|j IH]; intros acc.
  - cbn. lia.
  - cbn [zeros parseInt_from]. rewrite IH.
    change (digit_value "0") with 0%N.
    rewrite Nat2N.inj_succ, N.pow_succ_r'. lia.
Qed.

Lemma parseInt_from_append (acc : N) (x y : string) :
  parseInt_from acc (x +:+ y) = parseInt_from (parseInt_from acc x) y.
Proof.
  revert acc. induction x as [|c x IH]; intros acc; [reflexivity|].
  rewrite append_cons. cbn [parseInt_from]. apply IH.
Qed.

Lemma digit_value_le (c : ascii) : is_digit c = true -> (digit_value c <= 9)%N.
Proof.
  unfold is_digit, digit_value. intros [H1 H2]%andb_true_iff.
  apply Nat.leb_le in H1, H2. lia.
Qed.

Lemma parseInt_from_bounds (acc : N) (x : string) :
  all_digits x = true ->
  (acc * 10 ^ N.of_nat (String.length x) <= parseInt_from acc x
   /\ parseInt_from acc x < (acc + 1) * 10 ^ N.of_nat (String.length x))%N.
Proof.
  revert acc. induction x as [|c x IH]; intros acc Hx.
  - cbn. lia.
  - cbn [all_digits] in Hx. apply andb_true_iff in Hx as [Hc Hx].
    cbn [parseInt_from String.length]. rewrite Nat2N.inj_succ, N.pow_succ_r'.
    pose proof (digit_value_le c Hc).
    destruct (IH (10 * acc + digit_value c)%N Hx) as [Hlo Hhi].
    split; nia.
Qed.

Lemma all_digits_app (x y : string) :
  all_digits (x +:+ y) = all_digits x && all_digits y.
Proof.
  induction x as [|c x IH]; [reflexivity|].
  rewrite append_cons. cbn [all_digits]. now rewrite IH, andb_assoc.
Qed.

Lemma all_digits_zeros (j : nat) : all_digits (zeros j) = true.
Proof. induction j; [reflexivity|exact IHj]. Qed.

Lemma length_append (x y : string) :
  String.length (x +:+ y) = String.length x + String.length y.
Proof. induction x as [|c x IH]; [reflexivity|]. rewrite append_cons. cbn. now rewrite IH. Qed.

Lemma length_zeros (j : nat) : String.length (zeros j) = j.
Proof. induction j; cbn; congruence. Qed.

(** A string of digits is the text of a decimal numeral. *)
Lemma all_digits_numeral (x : string) :
  all_digits x = true ->
  exists d : Decimal.uint, NilEmpty.string_of_uint d = x.
Proof.
  induction x as [|c x IH]; intros Hx.
  - now exists Decimal.Nil.
  - cbn [all_digits] in Hx. apply andb_true_iff in Hx as [Hc Hx].
    destruct (IH Hx) as [d <-].
    destruct c as [[] [] [] [] [] [] [] []]; try discriminate Hc;
      [exists (Decimal.D7 d)|exists (Decimal.D3 d)|exists (Decimal.D5 d)
      |exists (Decimal.D9 d)|exists (Decimal.D1 d)|exists (Decimal.D6 d)
      |exists (Decimal.D2 d)|exists (Decimal.D4 d)|exists (Decimal.D8 d)
      |exists (Decimal.D0 d)]; reflexivity.
Qed.

(** A numeral that does not begin with 0 is printed as it was written. *)
Lemma show_parseInt (x : string) (c : ascii) (x' : string) :
  all_digits x = true -> x = String c x' -> c <> "0"%char ->
  show (Js.parseInt x) = x.
Proof.
  intros Hx Hc Hnz. destruct (all_digits_numeral x Hx) as [d Hd].
  unfold Js.parseInt, show. rewrite <- Hd, parseInt_from_uint.
  rewrite DecimalPos.Unsigned.to_of. f_equal.
  destruct d; try reflexivity.
  - subst x. discriminate Hd.
  - subst x. cbn in Hd. congruence.
Qed.

(** The text of a positive number begins with a digit other than 0. *)
Lemma show_leading_digit (n : N) :
  (0 < n)%N -> exists c x', show n = String c x' /\ c <> "0"%char.
Proof.
  intros Hn. unfold show.
  pose proof (DecimalN.Unsigned.of_to n) as Hof.
  pose proof (DecimalN.Unsigned.to_of (N.to_uint n)) as Hto.
  rewrite Hof in Hto.
  destruct (N.to_uint n) as [|u|u|u|u|u|u|u|u|u|u] eqn:E;
    try (cbn; eexists _, _; split; [reflexivity|discriminate]).
  - cbn in Hof. lia.
  - exfalso. unfold Decimal.unorm in Hto. rewrite DecimalFacts.nzhead_D0 in Hto.
    destruct (Decimal.nzhead u) eqn:Eu; try discriminate Hto.
    + injection Hto as ->. cbn in Hof. lia.
    + exact (DecimalFacts.nzhead_nonzero u _ Eu).
Qed.

(** A positive number times a power of ten is printed as the number
    followed by zeros. *)
Lemma show_times_pow10 (s : N) (j : nat) :
  (0 < s)%N -> show (s * 10 ^ N.of_nat j) = show s +:+ zeros j.
Proof.
  intros Hs. destruct (show_leading_digit s Hs) as (c & x' & Hc & Hnz).
  pose proof (show_number_text s) as [Hd _]%andb_true_iff.
  rewrite <- (show_parseInt (show s +:+ zeros j) c (x' +:+ zeros j)).
  - f_equal. unfold Js.parseInt. rewrite parseInt_from_append, parseInt_from_zeros.
    fold (Js.parseInt (show s)). now rewrite parseInt_show.
  - now rewrite all_digits_app, Hd, all_digits_zeros.
  - now rewrite Hc.
  - exact Hnz.
Qed.

(** The number of digits of a positive number. *)
Lemma show_length_bounds (n : N) :
  (0 < n)%N ->
  (10 ^ N.of_nat (String.length (show n) - 1) <= n
   /\ n < 10 ^ N.of_nat (String.length (show n)))%N.
Proof.
  intros Hn. destruct (show_leading_digit n Hn) as (c & x' & Hc & Hnz).
  pose proof (show_number_text n) as [Hd _]%andb_true_iff.
  pose proof (parseInt_show n) as Hp. rewrite Hc in *.
  cbn [all_digits] in Hd. apply andb_true_iff in Hd as [Hcd Hd].
  unfold Js.parseInt in Hp. cbn [parseInt_from] in Hp.
  destruct (parseInt_from_bounds (10 * 0 + digit_value c) x' Hd) as [Hlo Hhi].
  rewrite Hp in Hlo, Hhi. pose proof (digit_value_le c Hcd) as H9.
  assert (1 <= digit_value c)%N.
  { unfold is_digit, digit_value in *. apply andb_true_iff in Hcd as [H1 H2].
    apply Nat.leb_le in H1, H2.
    assert (nat_of_ascii c <> 48).
    { intros H. apply Hnz. rewrite <- (ascii_nat_embedding c), H. reflexivity. }
    lia. }
  cbn [String.length]. rewrite Nat.sub_succ, Nat.sub_0_r, Nat2N.inj_succ, N.pow_succ_r'.
  split; nia.
Qed.
End NumeralFacts.

Section ToStringFacts.
Import Js JsFacts Shapes Float64.
Local Open Scope Q_scope.

Lemma pow10_Z (e : Z) : (0 <= e)%Z -> pow10 e == inject_Z (10 ^ e).
Proof.
  intros H. unfold pow10. change 10 with (inject_Z 10).
  symmetry. now apply Zpower_Qpower.
Qed.

Lemma Qfloor_unique (q : Q) (f : Z) :
  inject_Z f <= q -> q < inject_Z (f + 1) -> Qfloor q = f.
Proof.
  intros Hlo Hhi.
  pose proof (Qfloor_le q) as H1. pose proof (Qlt_floor q) as H2.
  assert (inject_Z f < inject_Z (Qfloor q + 1)) as H3 by lra.
  assert (inject_Z (Qfloor q) < inject_Z (f + 1)) as H4 by lra.
  rewrite <- Zlt_Qlt in H3, H4. lia.
Qed.

Lemma Qfloor_div (a p : Z) :
  (0 < p)%Z -> Qfloor (inject_Z a / inject_Z p) = (a / p)%Z.
Proof.
  intros Hp.
  assert (HP : 0 < inject_Z p) by (rewrite <- (Zlt_Qlt 0); exact Hp).
  pose proof (Z.mul_div_le a p Hp) as Hlo.
  pose proof (Z.mul_succ_div_gt a p Hp) as Hhi.
  apply Qfloor_unique.
  - apply Qle_shift_div_l; [exact HP|].
    rewrite <- inject_Z_mult, <- Zle_Qle. lia.
  - apply Qlt_shift_div_r; [exact HP|].
    rewrite <- inject_Z_mult, <- Zlt_Qlt. lia.
Qed.

Lemma Qeq_bool_inject_Z (a b : Z) :
  Qeq_bool (inject_Z a) (inject_Z b) = (a =? b)%Z.
Proof.
  destruct (Z.eqb_spec a b) as [->|Hne].
  - apply Qeq_bool_iff. reflexivity.
  - destruct (Qeq_bool (inject_Z a) (inject_Z b)) eqn:E; [|reflexivity].
    apply Qeq_bool_iff in E. rewrite inject_Z_injective in E. contradiction.
Qed.

(** An integer above [2^53] is not read as a number below [2^53]. *)
Lemma round_above_safe (y z : Z) :
  (2 ^ 53 < y < 2 ^ 54)%Z -> (z < 2 ^ 53)%Z ->
  match round (inject_Z y) with
  | Num w => Qeq_bool w (inject_Z z)
  | _ => false
  end = false.
Proof.
  intros [Hy1 Hy2] Hz.
  assert (Hlo : pow2 53 < inject_Z y)
    by (rewrite pow2_Z by lia; now rewrite <- Zlt_Qlt).
  assert (Hhi : inject_Z y < pow2 54)
    by (rewrite pow2_Z by lia; now rewrite <- Zlt_Qlt).
  pose proof (pow2_pos 53) as H53.
  assert (pow2 (-1022) <= pow2 53) by (apply pow2_le; lia).
  assert (pow2 54 <= pow2 1023) by (apply pow2_le; lia).
  destruct (round_pos_error (inject_Z y)) as (w & Hr & _ & _ & Hw); [lra|lra|].
  rewrite round_pos_gt, Hr by lra.
  destruct (Qeq_bool w (inject_Z z)) eqn:E; [|reflexivity].
  apply Qeq_bool_iff in E.
  destruct (binade_spec (inject_Z y)) as [_ Hb]; [lra|].
  assert (53 < binade (inject_Z y) + 1)%Z
    by (apply pow2_lt_inv; eapply Qlt_trans; eassumption).
  assert (pow2 53 <= pow2 (binade (inject_Z y))) by (apply pow2_le; lia).
  assert (inject_Z z < pow2 53)
    by (rewrite pow2_Z by lia; now rewrite <- Zlt_Qlt).
  lra.
Qed.

Lemma reads_back_integer (z n k s : Z) :
  (0 < z < 2 ^ 53)%Z -> (k <= n)%Z -> (0 <= s)%Z ->
  (s * 10 ^ (n - k) <= 2 * z)%Z ->
  reads_back (inject_Z z) n k s = (s * 10 ^ (n - k) =? z)%Z.
Proof.
  intros Hz Hk Hs Hy. unfold reads_back.
  assert (Hq : inject_Z s * pow10 (n - k) == inject_Z (s * 10 ^ (n - k)))
    by (rewrite pow10_Z by lia; now rewrite inject_Z_mult).
  rewrite (round_comp _ _ Hq).
  set (y := (s * 10 ^ (n - k))%Z) in *.
  assert (0 <= y)%Z by (unfold y; apply Z.mul_nonneg_nonneg; lia).
  destruct (Z_le_gt_dec y (2 ^ 53)) as [Hsafe|Hbig].
  - rewrite round_safe_integer by lia. apply Qeq_bool_inject_Z.
  - rewrite round_above_safe by lia. symmetry. apply Z.eqb_neq. lia.
Qed.

(** For a number of digits [k] the candidates of a safe integer [z] are
    integers, and only [z] itself is read back as [z]. *)
Lemma digits_of_length_integer (z n k : Z) :
  (0 < z < 2 ^ 53)%Z -> (k <= n)%Z -> (10 ^ (n - k) <= z)%Z ->
  digits_of_length (inject_Z z) n k
  = if (z / 10 ^ (n - k) * 10 ^ (n - k) =? z)%Z
    then Some (z / 10 ^ (n - k))%Z else None.
Proof.
  intros Hz Hk Hj. unfold digits_of_length.
  set (p := (10 ^ (n - k))%Z) in *.
  assert (Hp : (0 < p)%Z) by (unfold p; apply Z.pow_pos_nonneg; lia).
  assert (Hfloor : Qfloor (inject_Z z / pow10 (n - k)) = (z / p)%Z).
  { rewrite <- (Qfloor_div z p Hp). apply Qfloor_comp.
    now rewrite pow10_Z by lia. }
  rewrite Hfloor.
  pose proof (Z.mul_div_le z p Hp) as Hlo.
  pose proof (Z.mul_succ_div_gt z p Hp) as Hhi.
  assert (1 <= z / p)%Z by (apply Z.div_le_lower_bound; lia).
  rewrite !reads_back_integer by (lia || nia). fold p.
  assert (((z / p + 1) * p =? z)%Z = false) as -> by (apply Z.eqb_neq; lia).
  now destruct (z / p * p =? z)%Z.
Qed.

Lemma shortest_digits_integer (z n : Z) (fuel : nat) (k : Z) :
  (0 < z < 2 ^ 53)%Z -> (10 ^ (n - 1) <= z)%Z ->
  (1 <= k <= n)%Z -> (n - k < Z.of_nat fuel)%Z ->
  exists s k' : Z,
    shortest_digits fuel (inject_Z z) n k = (s, k')
    /\ (k <= k' <= n)%Z /\ (s * 10 ^ (n - k') = z)%Z.
Proof.
  intros Hz Hn. revert k. induction fuel as [|fuel IH]; intros k Hk Hfuel; [lia|].
  cbn [shortest_digits].
  assert (10 ^ (n - k) <= z)%Z.
  { etransitivity; [|exact Hn]. apply Z.pow_le_mono_r; lia. }
  rewrite digits_of_length_integer by lia.
  destruct (Z.eqb_spec (z / 10 ^ (n - k) * 10 ^ (n - k)) z) as [Heq|Hne].
  - exists (z / 10 ^ (n - k))%Z, k. repeat split; lia.
  - assert (k <> n).
    { intros ->. apply Hne. rewrite Z.sub_diag. change (10 ^ 0)%Z with 1%Z.
      rewrite Z.div_1_r. lia. }
    destruct (IH (k + 1)%Z) as (s & k' & Hrun & Hk' & Hs); [lia|lia|].
    exists s, k'. repeat split; (exact Hrun || lia).
Qed.

(** A safe integer is printed with all its digits. *)
Lemma toString_safe_integer (n : N) :
  (n < 2 ^ 53)%N -> toString (Num (of_N n)) = show n.
Proof.
  intros Hn. unfold toString.
  destruct (N.eq_dec n 0%N) as [->|Hn0]; [reflexivity|].
  assert (Hz : (0 < Z.of_N n < 2 ^ 53)%Z).
  { split; [lia|]. change (2 ^ 53)%Z with (Z.of_N (2 ^ 53)). lia. }
  assert (Hpos : 0 < of_N n) by (unfold of_N; rewrite <- (Zlt_Qlt 0); lia).
  apply Qgt_alt in Hpos as Hcmp. rewrite Hcmp.
  destruct (show_length_bounds n) as [Hlen1 Hlen2]; [lia|].
  set (L := String.length (show n)) in *.
  assert (HL : (1 <= L)%nat).
  { destruct (show_leading_digit n) as (c & x' & Hc & _); [lia|].
    unfold L. rewrite Hc. cbn. lia. }
  assert (Hexp : decimal_exponent (of_N n) = Z.of_nat L).
  { unfold decimal_exponent.
    assert (Qle_bool 1 (of_N n) = true) as ->.
    { apply Qle_bool_iff. unfold of_N. change 1 with (inject_Z 1).
      rewrite <- Zle_Qle. lia. }
    unfold of_N. now rewrite Qfloor_Z, N2Z.id. }
  assert (Hlo : (10 ^ (Z.of_nat L - 1) <= Z.of_N n)%Z).
  { replace (Z.of_nat L - 1)%Z with (Z.of_N (N.of_nat (L - 1))) by lia.
    change 10%Z with (Z.of_N 10). rewrite <- N2Z.inj_pow. lia. }
  assert (Hhi : (Z.of_N n < 10 ^ Z.of_nat L)%Z).
  { replace (Z.of_nat L) with (Z.of_N (N.of_nat L)) by lia.
    change 10%Z with (Z.of_N 10). rewrite <- N2Z.inj_pow. lia. }
  assert (HL16 : (Z.of_nat L <= 16)%Z).
  { destruct (Z_le_gt_dec (Z.of_nat L) 16) as [|Hgt]; [assumption|].
    assert (10 ^ 16 <= 10 ^ (Z.of_nat L - 1))%Z by (apply Z.pow_le_mono_r; lia).
    change (10 ^ 16)%Z with 10000000000000000%Z in *.
    change (2 ^ 53)%Z with 9007199254740992%Z in *. lia. }
  destruct (shortest_digits_integer (Z.of_N n) (Z.of_nat L) 17 1 Hz Hlo)
    as (s & k & Hrun & Hk & Hs); [lia|cbn; lia|].
  unfold toString_pos, decimal_of. rewrite Hexp.
  unfold of_N at 1. rewrite Hrun.
  assert (Hs0 : (0 < s)%Z) by nia.
  assert (Hsk : (s < 10 ^ k)%Z).
  { assert (10 ^ Z.of_nat L = 10 ^ k * 10 ^ (Z.of_nat L - k))%Z.
    { rewrite <- Z.pow_add_r by lia. f_equal. lia. }
    assert (0 < 10 ^ (Z.of_nat L - k))%Z by (apply Z.pow_pos_nonneg; lia).
    nia. }
  assert (Qeq_bool (inject_Z s) (pow10 k) = false) as ->.
  { destruct (Qeq_bool (inject_Z s) (pow10 k)) eqn:E; [|reflexivity].
    apply Qeq_bool_iff in E. rewrite pow10_Z in E by lia.
    rewrite inject_Z_injective in E. lia. }
  assert (((k <=? Z.of_nat L)%Z && (Z.of_nat L <=? 21)%Z) = true) as ->.
  { apply andb_true_iff. split; apply Z.leb_le; lia. }
  unfold show_Z.
  rewrite <- (show_times_pow10 (Z.to_N s) (Z.to_nat (Z.of_nat L - k))) by lia.
  f_equal. apply N2Z.inj. rewrite N2Z.inj_mul, N2Z.inj_pow, Z2N.id by lia.
  rewrite <- Hs. f_equal. f_equal. lia.
Qed.
End ToStringFacts.

Section ReadBackFacts.
Import Js JsFacts Shapes Float64.

Lemma mathematical_value_show (n : N) : mathematical_value (show n) = n.
Proof. exact (parseInt_show n). Qed.

Lemma parseInt_show_safe (n : N) :
  (n <= 2 ^ 53)%N -> Float64.parseInt (show n) = Num (of_N n).
Proof.
  intros H. unfold Float64.parseInt. rewrite mathematical_value_show.
  now apply round_of_N.
Qed.

Lemma gt_zero_of_N (n : N) : gt (Num (of_N n)) (Num 0) = (0 <? n)%N.
Proof.
  unfold gt, of_N. change 0%Q with (inject_Z 0).
  destruct (N.ltb_spec 0 n) as [H|H].
  - apply negb_true_iff.
    destruct (Qle_bool (inject_Z (Z.of_N n)) (inject_Z 0)) eqn:E; [|reflexivity].
    apply Qle_bool_iff in E. rewrite <- Zle_Qle in E. lia.
  - apply negb_false_iff, Qle_bool_iff. rewrite <- Zle_Qle. lia.
Qed.
End ReadBackFacts.

(** X14. A reset description printed from three numbers, "<d>天<h>小时<m>分钟",
    is read back as those numbers as long as d*24 + h and m are below
    2^53: the hours are within 2^-51 of d*24 + h + m/60, and they are this
    sum when m is a multiple of 15 and d*24 + h is at most 2^50.  The
    compact text keeps two units at most: days and hours when there is a
    day (the minutes are dropped), hours and minutes when there is none,
    minutes alone below one hour; each number is shown with the digits it
    was printed with. *)
Theorem printed_duration_is_read_back :
  forall d h m : N,
    (d * 24 + h < 2 ^ 53)%N -> (m < 2 ^ 53)%N ->
    let str := Js.show d +:+ "天" +:+ Js.show h +:+ "小时" +:+ Js.show m +:+ "分钟" in
    let parsed := DurationParser.parseChineseDuration (Some str) in
    let exact := DurationParser.exact_hours d h m in
    (exists q : Q,
       DurationParser.hours parsed = Js.Num q
       /\ (Qabs (q - exact) <= exact * Float64.pow2 (-51))%Q
       /\ ((d * 24 + h <= 2 ^ 50)%N -> (m mod 15 = 0)%N -> (q == exact)%Q))
    /\ DurationParser.text parsed
       = (if (0 <? d)%N then Js.show d +:+ "d " +:+ Js.show h +:+ "h"
          else if (0 <? h)%N then Js.show h +:+ "h " +:+ Js.show m +:+ "m"
          else Js.show m +:+ "m").
Proof.
  intros d h m Hs Hm. cbv zeta.
  change (Js.show d +:+ "天" +:+ Js.show h +:+ "小时" +:+ Js.show m +:+ "分钟")
    with (Shapes.duration_text "" (Js.show d) "" (Js.show h) "" (Js.show m) "").
  pose proof (duration_text_has_digit "" (Js.show d) "" (Js.show h) ""
                (Js.show m) "" (show_number_text d)) as Hdigit.
  pose proof (days_of_duration_text "" (Js.show d) "" (Js.show h) ""
                (Js.show m) "" eq_refl (show_number_text d)) as Hd.
  pose proof (hours_of_duration_text "" (Js.show d) "" (Js.show h) ""
                (Js.show m) "" eq_refl (show_number_text d) eq_refl
                (show_number_text h)) as Hh.
  pose proof (mins_of_duration_text "" (Js.show d) "" (Js.show h) ""
                (Js.show m) "" eq_refl (show_number_text d) eq_refl
                (show_number_text h) eq_refl (show_number_text m)) as Hmin.
  split.
  - rewrite (parsed_hours _ _ _ _ Hdigit Hd Hh Hmin). unfold Float64.parseInt.
    rewrite !mathematical_value_show.
    apply computed_hours; lia.
  - unfold DurationParser.parseChineseDuration.
    assert (Js.truthy (Shapes.duration_text "" (Js.show d) "" (Js.show h) ""
                         (Js.show m) "") = true) as ->.
    { destruct (Shapes.duration_text _ _ _ _ _ _ _); [discriminate|reflexivity]. }
    rewrite !(eqb_false_of_no_digit _ _ Hdigit) by reflexivity.
    cbn [negb orb]. rewrite Hd, Hh, Hmin.
    rewrite !parseInt_show_safe by lia. cbn [DurationParser.text].
    rewrite !gt_zero_of_N, !toString_safe_integer by lia.
    destruct (compact_text_shape d h m) as (c & rest & -> & _). reflexivity.
Qed.

Lemma printed_duration_is_read_back_witness :
  DurationParser.text
    (DurationParser.parseChineseDuration
       (Some (Js.show 3 +:+ "天" +:+ Js.show 4 +:+ "小时" +:+ Js.show 59 +:+ "分钟")))
  = "3d 4h".
Proof.
  exact (proj2 (printed_duration_is_read_back 3 4 59
                  ltac:(vm_compute; reflexivity) ltac:(vm_compute; reflexivity))).
Defined.

(** X15. The text of a reset time is never empty, so the fallback to "N/A"
    after the compact text is built is never taken: "N/A" is shown exactly
    for the inputs [undefined], "", "未知" and "N/A". *)
Theorem reset_text_never_empty :
  forall str : option string,
    AccountListView.formatTimeRemaining str <> ""
    /\ (AccountListView.formatTimeRemaining str = "N/A"
        <-> str = None \/ str = Some "" \/ str = Some "未知" \/ str = Some "N/A").
Proof.
  intros [str|]; unfold AccountListView.formatTimeRemaining,
    AccountListView.parseChineseDuration.
  2: { cbn. split; [discriminate|]. tauto. }
  destruct str as [|c0 str0] eqn:Hstr.
  { cbn. split; [discriminate|]. tauto. }
  rewrite <- Hstr. assert (Js.truthy str = true) as -> by now subst.
  cbn [negb orb].
  destruct (String.eqb_spec str "未知") as [->|H1].
  { cbn. split; [discriminate|]. tauto. }
  destruct (String.eqb_spec str "N/A") as [->|H2].
  { cbn. split; [discriminate|]. tauto. }
  cbn [orb].
  assert (~ (Some str = None \/ Some str = Some "" \/ Some str = Some "未知"
             \/ Some str = Some "N/A")) as Hnot.
  { intros [H|[H|[H|H]]]; try discriminate; injection H as H; subst; congruence. }
  destruct (String.eqb_spec str "即将重置") as [->|H3].
  { cbn. split; [discriminate|]. split; [discriminate|]. tauto. }
  cbn [AccountListView.text].
  match goal with
  | |- context [if (0 <? ?a)%N then _ else if (0 <? ?b)%N then _ else Js.show ?c +:+ _] =>
      destruct (compact_text_shape a b c) as (ch & rest & -> & Hc)
  end.
  cbn [Js.truthy negb]. split; [discriminate|].
  split; [|tauto]. intros [= -> ->]. discriminate Hc.
Qed.

(* ===================================================================== *)
(** * The account card *)
(* ===================================================================== *)

Section CardFacts.
Import Eff.
Context {P : Type}.

Lemma handleDelete_confirmed (isCurrent : bool) (onSwitch onDelete : M P unit)
      (be : Backend) tr render card parent :
  AccountCard.deleting render = false ->
  AccountCard.confirmDelete render = true ->
  AccountCard.handleDelete onDelete render be tr (card, parent)
  = (result_of (onDelete be tr parent), trace_of (onDelete be tr parent),
     ({| AccountCard.switching := AccountCard.switching card;
         AccountCard.deleting := false;
         AccountCard.confirmDelete := false |},
      state_of (onDelete be tr parent))).
Proof.
  intros Hd Hc. unfold AccountCard.handleDelete. rewrite Hd, Hc. cbn [negb].
  unfold AccountCard.here, AccountCard.parent, AccountCard.setDeleting,
    AccountCard.setConfirmDelete.
  run_monad. cbn [fst snd].
  unfold result_of, trace_of, state_of.
  now destruct (onDelete be tr parent) as [[[[]|e] tr1] p1].
Qed.

Lemma handleSwitch_runs (onSwitch : M P unit) (be : Backend) tr render card parent :
  AccountCard.switching render = false ->
  AccountCard.handleSwitch false onSwitch render be tr (card, parent)
  = (result_of (onSwitch be tr parent), trace_of (onSwitch be tr parent),
     ({| AccountCard.switching := false;
         AccountCard.deleting := AccountCard.deleting card;
         AccountCard.confirmDelete := AccountCard.confirmDelete card |},
      state_of (onSwitch be tr parent))).
Proof.
  intros Hs. unfold AccountCard.handleSwitch. rewrite Hs. cbn [orb].
  unfold AccountCard.here, AccountCard.parent, AccountCard.setSwitching.
  run_monad. cbn [fst snd].
  unfold result_of, trace_of, state_of.
  now destruct (onSwitch be tr parent) as [[[[]|e] tr1] p1].
Qed.
End CardFacts.

(** X16. Deleting from an account card takes two clicks.  The first click
    only arms the button: [onDelete] is not run and the parent is untouched.
    The second click runs [onDelete] once and passes its outcome on; whether
    it returned or threw, the card ends neither deleting nor armed, so a
    failed deletion asks for the two clicks again.  While a deletion is
    running a click does nothing. *)
Theorem card_delete_takes_two_clicks :
  forall (P : Type) (isCurrent : bool) (onSwitch onDelete : Eff.M P unit)
         (be : Eff.Backend) (tr : list Eff.Effect)
         (render card : AccountCard.State) (parent : P),
    let run := AccountCard.handleDelete onDelete render be tr (card, parent) in
    (AccountCard.deleting render = true -> run = (Eff.Return tt, tr, (card, parent)))
    /\ (AccountCard.deleting render = false ->
        AccountCard.confirmDelete render = false ->
        Eff.result_of run = Eff.Return tt
        /\ Eff.trace_of run = tr
        /\ snd (Eff.state_of run) = parent
        /\ AccountCard.confirmDelete (fst (Eff.state_of run)) = true)
    /\ (AccountCard.deleting render = false ->
        AccountCard.confirmDelete render = true ->
        Eff.result_of run = Eff.result_of (onDelete be tr parent)
        /\ Eff.trace_of run = Eff.trace_of (onDelete be tr parent)
        /\ snd (Eff.state_of run) = Eff.state_of (onDelete be tr parent)
        /\ AccountCard.deleting (fst (Eff.state_of run)) = false
        /\ AccountCard.confirmDelete (fst (Eff.state_of run)) = false).
Proof.
  intros P isCurrent onSwitch onDelete be tr render card parent. cbv zeta.
  split; [|split].
  - intros Hd. unfold AccountCard.handleDelete. now rewrite Hd.
  - intros Hd Hc. unfold AccountCard.handleDelete. rewrite Hd, Hc. cbn.
    auto.
  - intros Hd Hc.
    rewrite (handleDelete_confirmed isCurrent onSwitch onDelete be tr render
               card parent Hd Hc).
    auto.
Qed.

Lemma card_delete_takes_two_clicks_witness :
  let first_click :=
    AccountCard.handleDelete (useAccounts.deleteAccount "a1")
      AccountCard.initial (Samples.backend_ok None true) []
      (AccountCard.initial, useAccounts.initial) in
  Eff.trace_of first_click = []
  /\ AccountCard.confirmDelete (fst (Eff.state_of first_click)) = true.
Proof.
  destruct (proj1 (proj2 (card_delete_takes_two_clicks useAccounts.State false
              (useAccounts.switchTo "a1") (useAccounts.deleteAccount "a1")
              (Samples.backend_ok None true) [] AccountCard.initial
              AccountCard.initial useAccounts.initial)) eq_refl eq_refl)
    as (_ & Ht & _ & Hc).
  exact (conj Ht Hc).
Defined.

(** X17. The switch button of a card does nothing on the current account or
    while a switch is running.  Otherwise it runs [onSwitch] once and passes
    its outcome on, and the card is not switching afterwards, also when
    [onSwitch] threw. *)
Theorem card_switch_guard :
  forall (P : Type) (isCurrent : bool) (onSwitch : Eff.M P unit)
         (be : Eff.Backend) (tr : list Eff.Effect)
         (render card : AccountCard.State) (parent : P),
    let run := AccountCard.handleSwitch isCurrent onSwitch render be tr (card, parent) in
    (isCurrent = true \/ AccountCard.switching render = true ->
       run = (Eff.Return tt, tr, (card, parent)))
    /\ (isCurrent = false -> AccountCard.switching render = false ->
        Eff.result_of run = Eff.result_of (onSwitch be tr parent)
        /\ Eff.trace_of run = Eff.trace_of (onSwitch be tr parent)
        /\ snd (Eff.state_of run) = Eff.state_of (onSwitch be tr parent)
        /\ AccountCard.switching (fst (Eff.state_of run)) = false).
Proof.
  intros P isCurrent onSwitch be tr render card parent. cbv zeta. split.
  - intros H. unfold AccountCard.handleSwitch.
    assert (isCurrent || AccountCard.switching render = true) as ->.
    { destruct H as [-> | ->]; [reflexivity | apply orb_true_r]. }
    reflexivity.
  - intros -> Hs.
    rewrite (handleSwitch_runs onSwitch be tr render card parent Hs). auto.
Qed.

Lemma card_switch_guard_witness :
  AccountCard.switching
    (fst (Eff.state_of
            (AccountCard.handleSwitch false (useAccounts.switchTo "b2")
               AccountCard.initial
               (Samples.backend_rejecting (Js.ThrownString "offline")) []
               (AccountCard.initial, useAccounts.initial))))
  = false.
Proof.
  exact (proj2 (proj2 (proj2 (proj2 (card_switch_guard useAccounts.State false
           (useAccounts.switchTo "b2")
           (Samples.backend_rejecting (Js.ThrownString "offline")) []
           AccountCard.initial AccountCard.initial useAccounts.initial)
         eq_refl eq_refl)))).
Defined.

(* ===================================================================== *)
(** * The modal while it waits, and after an import *)
(* ===================================================================== *)

Section ModalFacts.
Import Remote Eff Shapes.

Lemma openai_login_started (be : Backend) tr s url :
  outcome (be tr start_oauth_login) = inr url ->
  let run := App.modal_handleOpenAILogin be tr s in
  let modal := App.addAccountModal (state_of run) in
  result_of run = Return tt
  /\ trace_of run = (tr ++ [Invoked start_oauth_login])%list
  /\ AddAccountModal.loading modal = true
  /\ AddAccountModal.error modal = None
  /\ AddAccountModal.oauthStatus modal
     = "请在打开的浏览器窗口中完成 OpenAI 授权..."
  /\ AddAccountModal.activeTab modal
     = AddAccountModal.activeTab (App.addAccountModal s)
  /\ App.showAddModal (state_of run) = App.showAddModal s.
Proof.
  intros H. cbv zeta. run_modal. cbn in *. rewrite H. cbn. auto 10.
Qed.

Lemma handleClose_blocked (be : Backend) tr render s :
  AddAccountModalTabs.close_disabled (App.addAccountModal render) = true ->
  App.modal_handleClose render be tr s = (Return tt, tr, s).
Proof.
  unfold AddAccountModalTabs.close_disabled. intros H.
  unfold App.modal_handleClose, AddAccountModal.handleClose. now rewrite H.
Qed.

Lemma submit_closes (be : Backend) tr render s (v : unit) :
  let modal := App.addAccountModal render in
  let call :=
    import_current_account
      (trim (AddAccountModal.name modal))
      (AddAccountModal.notes_argument (AddAccountModal.notes modal)) in
  trim (AddAccountModal.name modal) <> "" ->
  AddAccountModalTabs.close_disabled modal = false ->
  outcome (be tr call) = inr v ->
  let s' := state_of (App.modal_handleSubmitOfficial render be tr s) in
  App.showAddModal s' = false
  /\ AddAccountModal.name (App.addAccountModal s') = ""
  /\ AddAccountModal.notes (App.addAccountModal s') = ""
  /\ AddAccountModal.error (App.addAccountModal s') = None
  /\ AddAccountModal.oauthStatus (App.addAccountModal s') = ""
  /\ AddAccountModal.loading (App.addAccountModal s') = false.
Proof.
  cbv zeta. unfold AddAccountModalTabs.close_disabled. intros Hname Hclose H.
  run_modal.
  destruct (trim (AddAccountModal.name (App.addAccountModal render)));
    [congruence|].
  cbn in *. rewrite H. cbn. rewrite !loadData_run. cbn.
  rewrite Hclose. cbn. auto 10.
Qed.

Lemma submit_keeps_form (be : Backend) tr render s e :
  let modal := App.addAccountModal render in
  let call :=
    import_current_account
      (trim (AddAccountModal.name modal))
      (AddAccountModal.notes_argument (AddAccountModal.notes modal)) in
  trim (AddAccountModal.name modal) <> "" ->
  outcome (be tr call) = inl e ->
  let s' := state_of (App.modal_handleSubmitOfficial render be tr s) in
  App.showAddModal s' = App.showAddModal s
  /\ AddAccountModal.name (App.addAccountModal s')
     = AddAccountModal.name (App.addAccountModal s)
  /\ AddAccountModal.notes (App.addAccountModal s')
     = AddAccountModal.notes (App.addAccountModal s).
Proof.
  cbv zeta. intros Hname H. run_modal.
  destruct (trim (AddAccountModal.name (App.addAccountModal render)));
    [congruence|].
  cbn in *. rewrite H. cbn. auto.
Qed.
End ModalFacts.

(** X18. Once [start_oauth_login] has succeeded the modal waits for the
    callback: it is loading, shows the hint to finish in the browser, and in
    that state the close button, the overlay and the two tabs do nothing:
    the modal stays open on the same tab. *)
Theorem modal_is_locked_while_oauth_pending :
  forall (be : Eff.Backend) (tr : list Eff.Effect) (s : App.State) (url : string),
    Eff.outcome (be tr Remote.start_oauth_login) = inr url ->
    let waiting := Eff.state_of (App.modal_handleOpenAILogin be tr s) in
    let modal := App.addAccountModal waiting in
    AddAccountModal.loading modal = true
    /\ AddAccountModal.oauthStatus modal
       = "请在打开的浏览器窗口中完成 OpenAI 授权..."
    /\ App.showAddModal waiting = App.showAddModal s
    /\ AddAccountModalTabs.close_disabled modal = true
    /\ (forall (be' : Eff.Backend) (tr' : list Eff.Effect),
          App.modal_handleClose waiting be' tr' waiting
          = (Eff.Return tt, tr', waiting))
    /\ (forall (tab : AddAccountModal.TabType) (be' : Eff.Backend)
               (tr' : list Eff.Effect),
          AddAccountModalTabs.clickTab modal tab be' tr' modal
          = (Eff.Return tt, tr', modal)).
Proof.
  intros be tr s url H. cbv zeta.
  destruct (openai_login_started be tr s url H)
    as (_ & _ & Hl & _ & Hs & _ & Hshow).
  assert (AddAccountModalTabs.close_disabled
            (App.addAccountModal
               (Eff.state_of (App.modal_handleOpenAILogin be tr s))) = true)
    as Hclose.
  { unfold AddAccountModalTabs.close_disabled. now rewrite Hl, Hs. }
  repeat match goal with |- _ /\ _ => split end; try assumption.
  - intros be' tr'. now apply handleClose_blocked.
  - intros tab be' tr'. unfold AddAccountModalTabs.clickTab. now rewrite Hl.
Qed.

Lemma modal_is_locked_while_oauth_pending_witness :
  App.modal_handleClose
    (Eff.state_of
       (App.modal_handleOpenAILogin (Samples.backend_ok None true) [] App.initial))
    (Samples.backend_ok None true) []
    (Eff.state_of
       (App.modal_handleOpenAILogin (Samples.backend_ok None true) [] App.initial))
  = (Eff.Return tt, [],
     Eff.state_of
       (App.modal_handleOpenAILogin (Samples.backend_ok None true) [] App.initial)).
Proof.
  exact (proj1 (proj2 (proj2 (proj2 (proj2 (modal_is_locked_while_oauth_pending
           (Samples.backend_ok None true) [] App.initial
           "https://auth.example/authorize" eq_refl)))))
         (Samples.backend_ok None true) []).
Defined.

(** X19. A manual import that succeeds, submitted from a render in which the
    modal could be closed, closes the modal and empties the form: name,
    notes, error and status are cleared and [loading] is off.  An import
    that is rejected leaves the modal open with the name and the notes as
    typed, so the user can retry. *)
Theorem import_closes_or_keeps_form :
  forall (be : Eff.Backend) (tr : list Eff.Effect) (render s : App.State),
    let modal := App.addAccountModal render in
    let call :=
      Remote.import_current_account
        (Js.trim (AddAccountModal.name modal))
        (AddAccountModal.notes_argument (AddAccountModal.notes modal)) in
    let s' := Eff.state_of (App.modal_handleSubmitOfficial render be tr s) in
    Js.trim (AddAccountModal.name modal) <> "" ->
    (forall v, Eff.outcome (be tr call) = inr v ->
       AddAccountModalTabs.close_disabled modal = false ->
       App.showAddModal s' = false
       /\ AddAccountModal.name (App.addAccountModal s') = ""
       /\ AddAccountModal.notes (App.addAccountModal s') = ""
       /\ AddAccountModal.error (App.addAccountModal s') = None
       /\ AddAccountModal.oauthStatus (App.addAccountModal s') = ""
       /\ AddAccountModal.loading (App.addAccountModal s') = false)
    /\ (forall e, Eff.outcome (be tr call) = inl e ->
          App.showAddModal s' = App.showAddModal s
          /\ AddAccountModal.name (App.addAccountModal s')
             = AddAccountModal.name (App.addAccountModal s)
          /\ AddAccountModal.notes (App.addAccountModal s')
             = AddAccountModal.notes (App.addAccountModal s)
          /\ AddAccountModal.error (App.addAccountModal s')
             = Some (Js.String_ e)).
Proof.
  intros be tr render s. cbv zeta. intros Hname. split.
  - intros v H Hclose. exact (submit_closes be tr render s v Hname Hclose H).
  - intros e H.
    destruct (submit_keeps_form be tr render s e Hname H) as (H1 & H2 & H3).
    destruct (submit_rejected be tr render s e Hname H) as (_ & _ & H4 & _).
    auto.
Qed.

Lemma import_closes_or_keeps_form_witness :
  let s' :=
    Eff.state_of
      (App.modal_handleSubmitOfficial (Samples.typed "  work  " "   ")
         (Samples.backend_ok None true) [] (Samples.typed "  work  " "   ")) in
  App.showAddModal s' = false
  /\ AddAccountModal.name (App.addAccountModal s') = "".
Proof.
  destruct (proj1 (import_closes_or_keeps_form (Samples.backend_ok None true) []
              (Samples.typed "  work  " "   ") (Samples.typed "  work  " "   ")
              ltac:(discriminate)) tt eq_refl eq_refl)
    as (H1 & H2 & _).
  exact (conj H1 H2).
Defined.

(* ===================================================================== *)
(** * A refresh and the marks of the rows *)
(* ===================================================================== *)

(** X20. A refresh of one row always gives the row back.  [handleRefreshOne]
    does not throw and asks for the quota of its account once; whatever the
    answer, the row is not marked as refreshing afterwards, and the marks
    of the other rows, the selection, the refresh-all flag, the query and
    the tab are as they were. *)
Theorem refresh_gives_the_row_back :
  forall (be : Eff.Backend) (tr : list Eff.Effect) (s : AccountList.State)
         (id : string),
    let run := AccountList.handleRefreshOne id be tr s in
    let s' := Eff.state_of run in
    Eff.result_of run = Eff.Return tt
    /\ EffLoop.calls (Eff.trace_of run)
       = (EffLoop.calls tr ++ [Remote.get_quota_by_id id])%list
    /\ (id ∉ AccountList.refreshingIds s')
    /\ (forall other, other <> id ->
          other ∈ AccountList.refreshingIds s'
          <-> other ∈ AccountList.refreshingIds s)
    /\ AccountList.selectedIds s' = AccountList.selectedIds s
    /\ AccountList.isRefreshingAll s' = AccountList.isRefreshingAll s
    /\ AccountList.searchQuery s' = AccountList.searchQuery s
    /\ AccountList.filter s' = AccountList.filter s.
Proof.
  intros be tr s id. cbv zeta.
  destruct (handleRefreshOne_frame be tr s id) as (Hres & Hcalls & Hall & Hsel & Href).
  split; [exact Hres|]. split; [exact Hcalls|].
  split; [|split; [|split; [exact Hsel|split; [exact Hall|]]]].
  - rewrite Href, elem_of_difference, elem_of_singleton. tauto.
  - intros other Hne.
    rewrite Href, elem_of_difference, elem_of_union, !elem_of_singleton. tauto.
  - unfold AccountList.handleRefreshOne, AccountList.setRefreshingIds,
      AccountList.setInvalidIds, AccountList.setUsageMap.
    run_monad.
    generalize (be tr (Remote.get_quota_by_id id)).
    intros [[e|reply] l]; cbn [Eff.outcome].
    + destruct (Js.includes "TOKEN_INVALID" (Js.String_ e)); cbn; auto.
    + unfold QuotaReply.as_UsageData; cbn [UsageData.is_valid_for_cli].
      destruct (QuotaReply.is_valid_for_cli reply); cbn; auto.
Qed.

(* ===================================================================== *)
(** * The current account on the dashboard and in the list *)
(* ===================================================================== *)

Section CurrentFacts.
Import Eff.

Lemma loadFromCache_invalid (be : Backend) tr accounts l x :
  x ∈ AccountList.invalidIds (state_of (AccountList.loadFromCache accounts be tr l))
  <-> exists acc q, In acc accounts /\ Account.id acc = x
                    /\ Account.cached_quota acc = Some q
                    /\ CachedQuota.is_valid_for_cli q = Some false.
Proof.
  unfold AccountList.loadFromCache, AccountList.setUsageMap,
    AccountList.setInvalidIds.
  run_monad. unfold state_of. cbn [snd AccountList.invalidIds].
  rewrite cache_invalid_spec. split; [|tauto].
  intros [H|H]; [|exact H]. now apply not_elem_of_empty in H.
Qed.

Lemma find_current_unique (accounts : list Account.t) (acc : Account.t) :
  NoDup (map Account.id accounts) -> In acc accounts ->
  List.find (AccountList.isCurrent (Some (Account.id acc))) accounts = Some acc.
Proof.
  induction accounts as [|a l IH]; intros Hnd Hin; [destruct Hin|].
  cbn [map] in Hnd. apply NoDup_cons in Hnd as [Hfresh Hnd].
  cbn [List.find]. destruct Hin as [->|Hin].
  - unfold AccountList.isCurrent. now rewrite String.eqb_refl.
  - destruct (AccountList.isCurrent (Some (Account.id acc)) a) eqn:Hcur.
    + exfalso. apply Hfresh. apply isCurrent_spec in Hcur. injection Hcur as <-.
      apply list_elem_of_In, in_map, Hin.
    + now apply IH.
Qed.
End CurrentFacts.

(** X21. The warning of the dashboard and the badge of the list agree on the
    current account.  When the dashboard is told that the current account is
    invalid, the list, once it has read the cached quotas of the same
    accounts, marks the current id as invalid.  The converse needs distinct
    ids: the dashboard looks at the first account with the current id, the
    list at all of them. *)
Theorem current_invalid_on_dashboard_and_list :
  forall (be : Eff.Backend) (tr : list Eff.Effect) (s : App.State)
         (l : AccountList.State),
    let accounts := useAccounts.accounts (App.hook s) in
    let marked :=
      AccountList.invalidIds
        (Eff.state_of (AccountList.loadFromCache accounts be tr l)) in
    (AppView.isCurrentInvalid s = true ->
       exists cur, useAccounts.currentId (App.hook s) = Some cur /\ cur ∈ marked)
    /\ (NoDup (map Account.id accounts) ->
        forall cur, useAccounts.currentId (App.hook s) = Some cur ->
                    cur ∈ marked -> AppView.isCurrentInvalid s = true).
Proof.
  intros be tr s l. cbv zeta. split.
  - unfold AppView.isCurrentInvalid, App.currentAccount.
    destruct (List.find _ _) as [a|] eqn:Hfind; [|discriminate].
    apply find_some in Hfind as [Hin Hcur]. apply isCurrent_spec in Hcur.
    destruct (Account.cached_quota a) as [q|] eqn:Hq; [|discriminate].
    destruct (CachedQuota.is_valid_for_cli q) as [[]|] eqn:Hv; try discriminate.
    intros _. exists (Account.id a). split; [exact Hcur|].
    apply loadFromCache_invalid. eauto 10.
  - intros Hnd cur Hcur Hin.
    apply loadFromCache_invalid in Hin as (acc & q & Hacc & <- & Hq & Hv).
    unfold AppView.isCurrentInvalid, App.currentAccount.
    rewrite Hcur, (find_current_unique _ _ Hnd Hacc), Hq, Hv. reflexivity.
Qed.

Lemma current_invalid_on_dashboard_and_list_witness :
  NoDup (map Account.id
           (useAccounts.accounts
              (App.hook (CachedSamples.with_current (Some false)))))
  /\ AppView.isCurrentInvalid (CachedSamples.with_current (Some false)) = true.
Proof.
  assert (Hnd : NoDup (map Account.id
                         (useAccounts.accounts
                            (App.hook (CachedSamples.with_current (Some false)))))).
  { repeat constructor; cbn; rewrite ?list_elem_of_In; cbn;
      intuition discriminate. }
  split; [exact Hnd|].
  refine (proj2 (current_invalid_on_dashboard_and_list
            (Samples.backend_ok None true) [] _ AccountList.initial)
            Hnd "c3" eq_refl _).
  apply loadFromCache_invalid.
  exists (CachedSamples.carol (Some false)), (CachedSamples.quota (Some false)).
  cbn. tauto.
Defined.
